(** * jodyhash command-line utility: a model of [utility.c]

    The development embeds the [main] function of [utility.c] (the default
    POSIX build: no [UNICODE], no [ON_WINDOWS], no [PERFBENCHMARK]) as Rocq
    functions with explicit state passing, and proves properties of the
    streaming engine: how input is read, cut into hashing units, hashed and
    printed, and how failures are reported.

    What is not in [utility.c] is a parameter of the development:
    - the hash primitives [jody_block_hash] and [jody_rolling_block_hash]
      and the digest width [JODY_HASH_WIDTH] (from [jody_hash.h]);
    - [VER] and [VERDATE] (from [version.h]), [PATH_MAX] (from [limits.h]);
    - the files that [fopen] finds.

    Conventions of the model:
    - a primitive is a function of the [count] bytes at its data pointer
      and of the digest it is given; it yields its return code and the
      digest it leaves;
    - a stream is a sequence of bytes followed by a clean end of file or by
      a read fault; [fread] and [fgets] behave as the C library does, [fgets]
      returning what it read when the read fails with [EAGAIN] and NULL when
      it fails for good;
    - the loops of the source are fixpoints on a fuel argument, [None]
      meaning that the fuel ran out; [main] gives them fuel enough
      ([hash_stream_returns], [main_returns]);
    - [None] also stands for undefined behaviour: reading [argv] out of
      bounds, and using [stdin] again after [fclose(stdin)]. *)

From Stdlib Require Import ZArith Ascii String DecimalString.
From Stdlib Require Import Bool Arith List Lia.
Import ListNotations.
Local Open Scope list_scope.
Set Warnings "-abstract-large-number".

(** ** Bytes and C strings *)

Definition bytes := list ascii.

(** A string literal of the source, as the bytes it stands for. *)
Definition lit (s : string) : bytes := list_ascii_of_string s.

Definition NUL : ascii := "000"%char.
Definition LF : ascii := "010"%char.
Definition CR : ascii := "013"%char.

(** [streq a b] is [!strcmp(a, b)]. *)
Fixpoint streq (a b : bytes) : bool :=
  match a, b with
  | [], [] => true
  | x :: a', y :: b' => Ascii.eqb x y && streq a' b'
  | _, _ => false
  end.

(** [strlen]: the number of bytes before the first NUL of a buffer. *)
Fixpoint strlen (s : bytes) : nat :=
  match s with
  | [] => 0
  | c :: s' => if Ascii.eqb c NUL then 0 else S (strlen s')
  end.

(** The C string held in a buffer, as [printf("%s")] prints it. *)
Definition cstring (s : bytes) : bytes := firstn (strlen s) s.

(** [strncpy(dst, src, n)] into a zero-filled [dst] of more than [n] bytes:
    the C string left in [dst]. *)
Definition strncpy (src : bytes) (n : nat) : bytes := firstn n src.

(** [peek k s] is [s[k]]; [poke k v s] is [s[k] = v]. *)
Definition peek (k : nat) (s : bytes) : ascii := nth k s NUL.

Fixpoint poke (k : nat) (v : ascii) (s : bytes) : bytes :=
  match s, k with
  | [], _ => []
  | _ :: s', 0 => v :: s'
  | c :: s', S k' => c :: poke k' v s'
  end.

(** Writing [data] at the start of a buffer leaves the rest as it was. *)
Definition store (data buf : bytes) : bytes := data ++ skipn (length data) buf.

(** [%lu] *)
Definition dec (n : nat) : bytes := lit (NilZero.string_of_uint (Nat.to_uint n)).

(** ** Streams

    A stream delivers the bytes of [pending] in order and then meets its
    [ending]: a clean end of file, or a read fault.  A fault is either
    [ReadFault], a read that fails for good (a directory, an I/O error), or
    [WouldBlock], a read that fails with [EAGAIN] (a descriptor that does
    not block and has no more data ready).  [fread] tells the two apart in
    nothing; [fgets] does.  The two indicators are what [feof] and [ferror]
    return. *)

Inductive ending := EndOfFile | ReadFault | WouldBlock.

Record FILE := mkFILE {
  pending : bytes;
  ending_of : ending;
  feof : bool;
  ferror : bool }.

Definition fresh_stream (c : bytes * ending) : FILE :=
  mkFILE (fst c) (snd c) false false.

(** The stream after a read ran into its ending. *)
Definition at_ending (fp : FILE) : FILE :=
  match ending_of fp with
  | EndOfFile => mkFILE [] EndOfFile true (ferror fp)
  | ReadFault => mkFILE [] ReadFault (feof fp) true
  | WouldBlock => mkFILE [] WouldBlock (feof fp) true
  end.

(** [fread(buf, 1, n, fp)]: the bytes transferred and the stream afterwards.
    A read of fewer than [n] bytes has met the ending. *)
Definition fread (n : nat) (fp : FILE) : bytes * FILE :=
  if n <=? length (pending fp)
  then (firstn n (pending fp),
        mkFILE (skipn n (pending fp)) (ending_of fp) (feof fp) (ferror fp))
  else (pending fp, at_ending fp).

(** At most [n] bytes of a line, its newline included; the boolean tells
    that the data ran out before a newline or the [n]-th byte. *)
Fixpoint take_line (n : nat) (s : bytes) : bytes * bytes * bool :=
  match n with
  | 0 => ([], s, false)
  | S n' =>
      match s with
      | [] => ([], [], true)
      | c :: s' =>
          if Ascii.eqb c LF then ([c], s', false)
          else let '(l, r, e) := take_line n' s' in (c :: l, r, e)
      end
  end.

(** [fgets(buf, n, fp)]: whether the result is non-NULL, the buffer and the
    stream afterwards.  At end of file with nothing read the buffer is
    unchanged and the result is NULL.  On a read fault that fails for good
    the result is NULL (and the buffer holds what was transferred, without
    terminator).  On a read that fails with [EAGAIN] after some bytes of the
    line, the C library returns those bytes as a line, with the error
    indicator set; with no byte read it returns NULL. *)
Definition fgets (buf : bytes) (n : nat) (fp : FILE) : bool * bytes * FILE :=
  let '(l, r, ran_out) := take_line (n - 1) (pending fp) in
  if ran_out then
    match ending_of fp with
    | EndOfFile =>
        match l with
        | [] => (false, buf, at_ending fp)
        | _ => (true, store (l ++ [NUL]) buf, at_ending fp)
        end
    | ReadFault => (false, store l buf, at_ending fp)
    | WouldBlock =>
        match l with
        | [] => (false, buf, at_ending fp)
        | _ => (true, store (l ++ [NUL]) buf, at_ending fp)
        end
    end
  else (true, store (l ++ [NUL]) buf,
        mkFILE r (ending_of fp) (feof fp) (ferror fp)).

(** ** Digests and their rendering *)

Inductive hash_width := W16 | W32 | W64.

Definition width_bits (w : hash_width) : nat :=
  match w with W16 => 16 | W32 => 32 | W64 => 64 end.

(** [sizeof(jodyhash_t)] *)
Definition sizeof_jodyhash_t (w : hash_width) : nat :=
  match w with W16 => 2 | W32 => 4 | W64 => 8 end.

Definition hex_digit (d : Z) : ascii :=
  nth (Z.to_nat d) (lit "0123456789abcdef") "0"%char.

(** [digits] hexadecimal digits of [v], most significant first, zero padded:
    [printf("%0<digits>x")] of a value of the matching width. *)
Fixpoint hex_field (digits : nat) (v : Z) : bytes :=
  match digits with
  | 0 => []
  | S k => hex_digit ((v / 16 ^ Z.of_nat k) mod 16) :: hex_field k v
  end.

(** Reading a field back: the value of a character as a lowercase
    hexadecimal digit, and the number that a string of such digits denotes,
    most significant digit first; [None] when a character is not such a
    digit. *)
Definition hex_digit_value (c : ascii) : option Z :=
  let n := Z.of_N (N_of_ascii c) in
  if (48 <=? n)%Z && (n <=? 57)%Z then Some (n - 48)%Z
  else if (97 <=? n)%Z && (n <=? 102)%Z then Some (n - 87)%Z
  else None.

Fixpoint hex_value_from (acc : Z) (l : bytes) : option Z :=
  match l with
  | [] => Some acc
  | c :: l' =>
      match hex_digit_value c with
      | Some d => hex_value_from (16 * acc + d) l'
      | None => None
      end
  end.

Definition hex_value (l : bytes) : option Z := hex_value_from 0 l.

Definition EXIT_SUCCESS : Z := 0.
Definition EXIT_FAILURE : Z := 1.

Definition BSIZE : nat := 32768.

(** [const int kbsize = 4096], the sub-block size of [-B]. *)
Definition kbsize : nat := 4096.

(** ** The program state: the statics of [utility.c] and the three standard
    streams.  [stdin] is [None] once it has been closed. *)

Record state := mkState {
  error : Z;
  blk : bytes;
  name : bytes;
  hash : Z;
  argnum : nat;
  outmode : Z;
  read_err : Z;
  stdin : option FILE;
  stdout : bytes;
  stderr : bytes }.

Definition set_error (v : Z) (s : state) : state :=
  mkState v (blk s) (name s) (hash s) (argnum s) (outmode s) (read_err s)
          (stdin s) (stdout s) (stderr s).
Definition set_blk (v : bytes) (s : state) : state :=
  mkState (error s) v (name s) (hash s) (argnum s) (outmode s) (read_err s)
          (stdin s) (stdout s) (stderr s).
Definition set_name (v : bytes) (s : state) : state :=
  mkState (error s) (blk s) v (hash s) (argnum s) (outmode s) (read_err s)
          (stdin s) (stdout s) (stderr s).
Definition set_hash (v : Z) (s : state) : state :=
  mkState (error s) (blk s) (name s) v (argnum s) (outmode s) (read_err s)
          (stdin s) (stdout s) (stderr s).
Definition set_argnum (v : nat) (s : state) : state :=
  mkState (error s) (blk s) (name s) (hash s) v (outmode s) (read_err s)
          (stdin s) (stdout s) (stderr s).
Definition set_outmode (v : Z) (s : state) : state :=
  mkState (error s) (blk s) (name s) (hash s) (argnum s) v (read_err s)
          (stdin s) (stdout s) (stderr s).
Definition set_read_err (v : Z) (s : state) : state :=
  mkState (error s) (blk s) (name s) (hash s) (argnum s) (outmode s) v
          (stdin s) (stdout s) (stderr s).
Definition set_stdin (v : option FILE) (s : state) : state :=
  mkState (error s) (blk s) (name s) (hash s) (argnum s) (outmode s)
          (read_err s) v (stdout s) (stderr s).
(** [printf(...)] and [fprintf(stderr, ...)] *)
Definition printf (text : bytes) (s : state) : state :=
  mkState (error s) (blk s) (name s) (hash s) (argnum s) (outmode s)
          (read_err s) (stdin s) (stdout s ++ text) (stderr s).
Definition eprintf (text : bytes) (s : state) : state :=
  mkState (error s) (blk s) (name s) (hash s) (argnum s) (outmode s)
          (read_err s) (stdin s) (stdout s) (stderr s ++ text).

(** The state [main] starts in: zeroed statics, [argnum = 1]. *)
Definition initial_state (input : FILE) : state :=
  mkState EXIT_SUCCESS (repeat NUL BSIZE) [] 0 1 0 0 (Some input) [] [].

(** ** Vocabulary of the statements *)

(** A byte string cut into consecutive pieces of [n] bytes, the last one
    possibly shorter. *)
Fixpoint blocks_upto (fuel n : nat) (l : bytes) : list bytes :=
  match fuel, l with
  | 0, _ => []
  | _, [] => []
  | S fuel', _ :: _ => firstn n l :: blocks_upto fuel' n (skipn n l)
  end.

Definition blocks (n : nat) (l : bytes) : list bytes :=
  blocks_upto (length l) n l.

(** The [k] full regions of [n] bytes of [l], then its last [r] bytes. *)
Definition regions (n k r : nat) (l : bytes) : list bytes :=
  map (fun j => firstn n (skipn (n * j) l)) (seq 0 k)
  ++ (if r =? 0 then [] else [skipn (n * k) l]).

(** A primitive applied to chunk after chunk, each call seeded with the
    digest the previous one left; [None] when a call fails. *)
Fixpoint fold_hash (prim : bytes -> Z -> Z * Z) (chunks : list bytes) (seed : Z)
  : option Z :=
  match chunks with
  | [] => Some seed
  | c :: chunks' =>
      if (fst (prim c seed) =? 0)%Z
      then fold_hash prim chunks' (snd (prim c seed))
      else None
  end.

(** The chunks that such a fold gets as far as: all of them, or those up
    to the first one on which the primitive fails. *)
Fixpoint chunks_read (prim : bytes -> Z -> Z * Z) (chunks : list bytes) (seed : Z)
  : list bytes :=
  match chunks with
  | [] => []
  | c :: chunks' =>
      c :: (if (fst (prim c seed) =? 0)%Z
            then chunks_read prim chunks' (snd (prim c seed))
            else [])
  end.

(** The message of lines 298-299, written when a call of the primitive
    failed. *)
Definition hash_failure_message (r : option Z) (display : bytes) : bytes :=
  match r with
  | Some _ => []
  | None => lit "error hashing file: " ++ display ++ [LF]
  end.

(** The control variables of a state: everything but the buffer, the
    digest and the two output streams. *)
Definition same_control (s s' : state) : Prop :=
  error s' = error s /\ name s' = name s /\ argnum s' = argnum s /\
  outmode s' = outmode s /\ read_err s' = read_err s /\ stdin s' = stdin s.

(** What the loops leave alone: the mode, the display name, the argument
    index and [stdin]; [read_err] keeps its value or becomes 1. *)
Definition frame (s s' : state) : Prop :=
  outmode s' = outmode s /\ name s' = name s /\ argnum s' = argnum s /\
  stdin s' = stdin s /\ (read_err s' = read_err s \/ read_err s' = 1%Z).

(** What a run shows to its caller: exit status, standard output and
    diagnostic output. *)
Definition report (r : option (Z * state)) : option (Z * bytes * bytes) :=
  option_map (fun p => (fst p, stdout (snd p), stderr (snd p))) r.

(** A text of lines, each followed by LF. *)
Definition text_of_lines (lines : list bytes) : bytes :=
  concat (map (fun l => l ++ [LF]) lines).

(** A line text that the line loop takes whole: no NUL or LF in it, no CR
    at its end, and room for it in the buffer. *)
Definition plain_line (l : bytes) : Prop :=
  Forall (fun x => x <> NUL /\ x <> LF) l /\ last l NUL <> CR /\
  length l + 2 < BSIZE.

(** The argument [-], which stands for standard input. *)
Definition names_stdin (a : bytes) : bool := streq (lit "-") a.

(** Two steps, from [s1] to [s1'] and from [s2] to [s2'], that print the
    same text, write the same diagnostics and report the same failure. *)
Definition same_gain (s1 s1' s2 s2' : state) : Prop :=
  exists out err,
    stdout s1' = stdout s1 ++ out /\ stdout s2' = stdout s2 ++ out /\
    stderr s1' = stderr s1 ++ err /\ stderr s2' = stderr s2 ++ err /\
    ((error s1' = error s1 /\ error s2' = error s2) \/
     (error s1' = EXIT_FAILURE /\ error s2' = EXIT_FAILURE)).

(** ** Sample inputs, to run the model

    [sample_hash] stands in for the primitives where a concrete one is
    needed: a multiplicative checksum of 64 bits that continues from the
    digest it is given and never fails.  [example_fs] is a small file
    system; [dir] is a directory, which opens but cannot be read; [bad.bin]
    fails after its first three bytes and [cut.bin] after one full chunk. *)

Definition sample_hash (data : bytes) (seed : Z) : Z * Z :=
  (0%Z,
   fold_left (fun h c => Z.land (h * 31 + Z.of_N (N_of_ascii c) + 1)
                                18446744073709551615)
             data seed).

(** One sub-block and three bytes; one chunk and five bytes. *)
Definition sample_blocks : bytes := repeat "a"%char kbsize ++ lit "xyz".
Definition sample_chunks : bytes := repeat "b"%char BSIZE ++ lit "hello".

Definition example_fs (path : bytes) : option (bytes * ending) :=
  if streq path (lit "crlf.txt") then Some (lit "abcdefgh" ++ [CR; LF], EndOfFile)
  else if streq path (lit "lf.txt") then Some (lit "abcdefgh" ++ [LF], EndOfFile)
  else if streq path (lit "hello.txt") then Some (lit "hello", EndOfFile)
  else if streq path (lit "empty") then Some ([], EndOfFile)
  else if streq path (lit "blocks.bin") then Some (sample_blocks, EndOfFile)
  else if streq path (lit "chunks.bin") then Some (sample_chunks, EndOfFile)
  else if streq path (lit "dir") then Some ([], ReadFault)
  else if streq path (lit "bad.bin") then Some (lit "abc", ReadFault)
  else if streq path (lit "cut.bin") then Some (repeat "b"%char BSIZE, ReadFault)
  else None.

(** An empty standard input. *)
Definition no_input : FILE := fresh_stream ([], EndOfFile).

(** The command line [jodyhash <flag> <path>], and the state in which the
    [do] loop is entered for it when the flag selects [mode]. *)
Definition command (flag path : bytes) : list bytes := [lit "jodyhash"; flag; path].

Definition state_in_mode (mode : Z) : state :=
  set_argnum 2 (set_outmode mode (initial_state no_input)).

(** More sample inputs.  [fussy_hash] is [sample_hash], except that it
    fails on data in which the byte [!] occurs.  [lines.txt] is a text of
    three lines, the second one empty; [mixed.bin] is two chunks, and [!]
    occurs in the second sub-block of the first one; [torn.bin] fails
    after one full chunk and three bytes; there is a file whose name is
    [-b]; [pipe.txt] and [lost.txt] hold one line and two bytes of a second
    one, where the read of the first fails with [EAGAIN] and the read of
    the second fails for good; [cr.txt] is the unterminated line of three
    bytes [a], CR, [b]. *)

Definition fussy_hash (data : bytes) (seed : Z) : Z * Z :=
  if existsb (Ascii.eqb "!"%char) data then (1%Z, seed) else sample_hash data seed.

Definition sample_lines : list bytes := [lit "ab"; []; lit "cd"].

Definition sample_mixed : bytes :=
  repeat "a"%char kbsize ++ lit "!" ++ repeat "b"%char (BSIZE - kbsize - 1)
  ++ lit "tail".

Definition extra_fs (path : bytes) : option (bytes * ending) :=
  if streq path (lit "lines.txt") then Some (text_of_lines sample_lines, EndOfFile)
  else if streq path (lit "mixed.bin") then Some (sample_mixed, EndOfFile)
  else if streq path (lit "torn.bin")
  then Some (repeat "b"%char BSIZE ++ lit "xyz", ReadFault)
  else if streq path (lit "-b") then Some (lit "hello", EndOfFile)
  else if streq path (lit "pipe.txt")
  then Some (text_of_lines [lit "ab"] ++ lit "cd", WouldBlock)
  else if streq path (lit "lost.txt")
  then Some (text_of_lines [lit "ab"] ++ lit "cd", ReadFault)
  else if streq path (lit "cr.txt") then Some (lit "a" ++ CR :: lit "b", EndOfFile)
  else example_fs path.

(** A line of [BSIZE] bytes and its newline. *)
Definition sample_long_line : bytes :=
  repeat "a"%char (BSIZE - 2) ++ "b"%char :: lit "c" ++ [LF].

Section Utility.

(** From [jody_hash.h]: the digest width and the two primitives.  A primitive
    is given the [count] bytes at its data pointer and the digest [*hash]
    holds, and yields its return code and the digest it leaves in [*hash]. *)
Variable JODY_HASH_WIDTH : hash_width.
Variable jody_block_hash : bytes -> Z -> Z * Z.
Variable jody_rolling_block_hash : bytes -> Z -> Z * Z.

(** From [version.h] and [limits.h], and the acceleration switches. *)
Variable VER VERDATE : bytes.
Variable PATH_MAX : nat.
Variable NO_AVX2 NO_SSE2 : bool.

(** What [fopen(path, "rb")] finds: nothing, or a file's bytes and the way
    reading it ends. *)
Variable fs : bytes -> option (bytes * ending).

Definition fopen (path : bytes) : option FILE := option_map fresh_stream (fs path).

(** [PRINTHASH(a)] *)
Definition PRINTHASH (a : Z) : bytes :=
  match JODY_HASH_WIDTH with
  | W64 => hex_field 16 a
  | W32 => hex_field 8 a
  | W16 => hex_field 4 a
  end.

(** [ERR(a,b)] *)
Definition ERR (b : bytes) (s : state) : state := eprintf (b ++ [LF]) s.

Definition usage (progname : bytes) (detailed : Z) (s : state) : state :=
  let s := eprintf (lit "Jody Bruchon's hashing utility " ++ VER ++ lit " ("
                    ++ VERDATE ++ lit ") [" ++ dec (width_bits JODY_HASH_WIDTH)
                    ++ lit " bit width]"
                    ++ (if negb NO_AVX2 && negb NO_SSE2
                        then lit " AVX2/SSE2 accelerated"
                        else if negb NO_AVX2 then lit " AVX2 accelerated"
                        else if negb NO_SSE2 then lit " SSE2 accelerated"
                        else lit " standard")
                    ++ [LF]) s in
  if (detailed =? 0)%Z then s
  else
    let s := eprintf (lit "usage: " ++ progname
                      ++ lit " [-b|s|n|l|L] [file_to_hash]" ++ [LF]) s in
    let s := eprintf (lit "Specifying no name or '-' as the name reads from stdin" ++ [LF]) s in
    let s := eprintf (lit "  -b|-s  Output in md5sum binary style instead of bare hashes" ++ [LF]) s in
    let s := eprintf (lit "  -n     Output just the file name after the hash" ++ [LF]) s in
    let s := eprintf (lit "  -l     Generate a hash for each text input line" ++ [LF]) s in
    let s := eprintf (lit "  -L     Same as -l but also prints hashed text after the hash" ++ [LF]) s in
    let s := eprintf (lit "  -B     Output a hash for every 4096 byte block of the file" ++ [LF]) s in
    eprintf (lit "  -r     Output a rolling 4K hash" ++ [LF]) s.

(** *** Line-by-line hashing ([-l], [-L]): lines 220-251 *)

(** The [error_loop1] label. *)
Definition error_loop1 (s : state) : state :=
  set_read_err 1 (set_error EXIT_FAILURE (ERR (name s) s)).

(** The body of the loop, lines 222-248, entered after [fgets] filled the
    buffer: the state, and whether the loop is left by [break]. *)
Definition line_body (s : state) (fp : FILE) : state * bool :=
  let s := set_hash 0 s in
  if ferror fp
  then (error_loop1 (eprintf (lit "error reading file: ") s), true)
  else
    let i := strlen (blk s) in
    if (i <? 2) || Ascii.eqb (peek 0 (blk s)) LF
    then (s, false)
    else
      let s := if Ascii.eqb (peek (i - 2) (blk s)) CR
               then set_blk (poke (i - 2) NUL (blk s)) s
               else set_blk (poke (i - 1) NUL (blk s)) s in
      let r := jody_block_hash (firstn (i - 1) (blk s)) (hash s) in
      let s := set_hash (snd r) s in
      if negb (fst r =? 0)%Z
      then (error_loop1 (eprintf (lit "error hashing file: ") s), true)
      else
        let s := printf (PRINTHASH (hash s)) s in
        let s := if (outmode s =? 3)%Z
                 then printf (lit " '" ++ cstring (blk s) ++ lit "'" ++ [LF]) s
                 else printf [LF] s in
        (s, feof fp).

(** The [while (fgets(...) != NULL)] loop.  [None]: out of fuel. *)
Fixpoint line_loop (fuel : nat) (s : state) (fp : FILE) : option (state * FILE) :=
  match fuel with
  | 0 => None
  | S fuel' =>
      let '(got, buf, fp) := fgets (blk s) BSIZE fp in
      let s := set_blk buf s in
      if negb got then Some (s, fp)
      else
        let '(s, broke) := line_body s fp in
        if broke then Some (s, fp) else line_loop fuel' s fp
  end.

(** *** Chunked hashing: lines 253-306 *)

Definition kboffsize : nat := kbsize / sizeof_jodyhash_t JODY_HASH_WIDTH.

(** The byte offset of [blk + n] for [jodyhash_t *blk]. *)
Definition elements (n : nat) : nat := n * sizeof_jodyhash_t JODY_HASH_WIDTH.

(** The [while (i > 0)] loop over the sub-blocks of a chunk ([-B]). *)
Fixpoint subblock_loop (fuel : nat) (s : state) (i kblk : nat) : option state :=
  match fuel with
  | 0 => None
  | S fuel' =>
      if i =? 0 then Some s
      else
        let s := set_hash 0 s in
        let kbdrop := if kbsize <? i then kbsize else i in
        let r := jody_block_hash
                   (firstn kbdrop (skipn (elements (kblk * kboffsize)) (blk s)))
                   (hash s) in
        let s := set_hash (snd r) s in
        if negb (fst r =? 0)%Z
        then Some (set_read_err 1 (set_error EXIT_FAILURE
                     (ERR (name s) (eprintf (lit "error hashing file: ") s))))
        else
          let s := printf [LF] (printf (PRINTHASH (hash s)) s) in
          subblock_loop fuel' s (i - kbdrop) (S kblk)
  end.

(** The [else] branch of line 281, non-benchmarked code: the state, and
    whether the loop is left by [break]. *)
Definition hash_chunk (s : state) (i : nat) : state * bool :=
  let s := eprintf (lit "doing a rolling hash of " ++ dec i ++ lit " bytes" ++ [LF]) s in
  let r := if (outmode s =? 6)%Z
           then jody_rolling_block_hash (firstn i (blk s)) (hash s)
           else jody_block_hash (firstn i (blk s)) (hash s) in
  let s := set_hash (snd r) s in
  if negb (fst r =? 0)%Z
  then (set_read_err 1 (set_error EXIT_FAILURE
          (ERR (name s) (eprintf (lit "error hashing file: ") s))), true)
  else (s, false).

(** The [while ((i = fread(...)))] loop. *)
Fixpoint chunk_loop (fuel : nat) (s : state) (fp : FILE) : option (state * FILE) :=
  match fuel with
  | 0 => None
  | S fuel' =>
      let '(data, fp) := fread BSIZE fp in
      let s := set_blk (store data (blk s)) s in
      let i := length data in
      if i =? 0 then Some (s, fp)
      else if ferror fp
      then Some (set_read_err 1 (set_error EXIT_FAILURE (ERR (name s) s)), fp)
      else
        let r := if (outmode s =? 5)%Z
                 then option_map (fun s => (s, false)) (subblock_loop (S i) s i 0)
                 else Some (hash_chunk s i) in
        match r with
        | None => None
        | Some (s, true) => Some (s, fp)
        | Some (s, false) =>
            if feof fp then Some (s, fp) else chunk_loop fuel' s fp
        end
  end.

(** *** One input: from line 219 to the [close_file] label *)

Definition hash_stream (s : state) (fp : FILE) : option (state * FILE) :=
  let fuel := S (length (pending fp)) in
  if (outmode s =? 2)%Z || (outmode s =? 3)%Z then line_loop fuel s fp
  else
    match chunk_loop fuel s fp with
    | None => None
    | Some (s, fp) =>
        if (read_err s =? 1)%Z then Some (set_read_err 0 s, fp)
        else
          let s := if negb (outmode s =? 5)%Z
                   then printf (PRINTHASH (hash s)) s else s in
          let s := if (outmode s =? 1)%Z
                   then printf (lit " *" ++ name s ++ [LF]) s
                   else if (outmode s =? 4)%Z
                   then printf (lit " " ++ name s ++ [LF]) s
                   else printf [LF] s in
          Some (s, fp)
    end.

(** *** The body of the [do ... while (argnum < argc)] loop: lines 193-336 *)

(** Lines 195-209: the display name copied to [name], the stream ([None]
    when [fopen] fails) and whether it is [stdin].  The result [None] stands
    for undefined behaviour: [argv] read out of bounds, or [stdin] taken
    again after it was closed. *)
Definition open_input (argv : list bytes) (s : state)
  : option (bytes * option FILE * bool) :=
  let from_stdin :=
    match stdin s with
    | None => None
    | Some fp => Some (strncpy (lit "-") PATH_MAX, Some fp, true)
    end in
  if length argv =? 1 then from_stdin
  else
    match nth_error argv (argnum s) with
    | None => None
    | Some path =>
        if streq (lit "-") path then from_stdin
        else Some (strncpy path PATH_MAX, fopen path, false)
    end.

(** The [close_file] label: [fclose(fp); argnum++]. *)
Definition close_file (is_stdin : bool) (s : state) : state :=
  set_argnum (S (argnum s)) (if is_stdin then set_stdin None s else s).

Definition do_body (argv : list bytes) (s : state) : option state :=
  let s := set_hash 0 s in
  match open_input argv s with
  | None => None
  | Some (display, None, _) =>
      let s := set_name display s in
      let s := ERR (name s) (eprintf (lit "error: cannot open: ") s) in
      Some (set_argnum (S (argnum s)) (set_error EXIT_FAILURE s))
  | Some (display, Some fp, is_stdin) =>
      let s := set_name display s in
      match hash_stream s fp with
      | None => None
      | Some (s, _) => Some (close_file is_stdin s)
      end
  end.

Fixpoint do_loop (fuel : nat) (argv : list bytes) (s : state) : option state :=
  match fuel with
  | 0 => None
  | S fuel' =>
      match do_body argv s with
      | None => None
      | Some s =>
          if argnum s <? length argv then do_loop fuel' argv s else Some s
      end
  end.

(** *** Option processing: lines 169-190 *)

Definition process_options (argv : list bytes) (s : state) : state :=
  let argc := length argv in
  let arg1 := nth 1 argv [] in
  if 2 <? argc then
    let s := if streq (lit "-s") arg1 || streq (lit "-b") arg1
             then set_outmode 1 s else s in
    let s := if streq (lit "-l") arg1 then set_outmode 2 s else s in
    let s := if streq (lit "-L") arg1 then set_outmode 3 s else s in
    let s := if streq (lit "-n") arg1 then set_outmode 4 s else s in
    let s := if streq (lit "-B") arg1 then set_outmode 5 s else s in
    let s := if streq (lit "-r") arg1 then set_outmode 6 s else s in
    if (0 <? outmode s)%Z || streq (lit "--") arg1
    then set_argnum (S (argnum s)) s else s
  else s.

(** [main]: the exit status and the final state. *)
Definition main (argv : list bytes) (input : FILE) : option (Z * state) :=
  let argc := length argv in
  let s := initial_state input in
  let progname := nth 0 argv [] in
  let arg1 := nth 1 argv [] in
  if (1 <? argc) && streq (lit "-v") arg1
  then Some (EXIT_SUCCESS, usage progname 0 s)
  else if (1 <? argc) && (streq (lit "-h") arg1 || streq (lit "--help") arg1)
  then Some (EXIT_SUCCESS, usage progname 1 s)
  else
    match do_loop (S argc) argv (process_options argv s) with
    | None => None
    | Some s => Some (error s, s)
    end.

(** *** Vocabulary of the statements that depends on the build *)

(** A digest on a line of its own. *)
Definition digest_line (h : Z) : bytes := PRINTHASH h ++ [LF].

(** The line that line 295 writes for a chunk. *)
Definition notice (c : bytes) : bytes :=
  lit "doing a rolling hash of " ++ dec (length c) ++ lit " bytes" ++ [LF].

(** The primitive that line 296 selects. *)
Definition chunk_primitive (s : state) : bytes -> Z -> Z * Z :=
  if (outmode s =? 6)%Z then jody_rolling_block_hash else jody_block_hash.

(** The record that Line mode prints for a line text: nothing for an empty
    text, else the digest of the text, followed under [-L] by the text in
    quotes. *)
Definition line_record (mode : Z) (l : bytes) : bytes :=
  match l with
  | [] => []
  | _ :: _ =>
      PRINTHASH (snd (jody_block_hash l 0))
      ++ (if (mode =? 3)%Z then lit " '" ++ l ++ lit "'" ++ [LF] else [LF])
  end.

(** The digest lines that [-B] prints for the sub-blocks of one chunk:
    those of the sub-blocks before the first one on which the primitive
    fails. *)
Fixpoint subblock_records (bs : list bytes) : bytes :=
  match bs with
  | [] => []
  | b :: bs' =>
      if (fst (jody_block_hash b 0) =? 0)%Z
      then digest_line (snd (jody_block_hash b 0)) ++ subblock_records bs'
      else []
  end.

(** The primitive fails on no sub-block of the chunk. *)
Definition chunk_accepted (c : bytes) : bool :=
  forallb (fun b => (fst (jody_block_hash b 0) =? 0)%Z) (blocks kbsize c).

(** ** Lemmas on buffers and on [blocks] *)

Lemma firstn_store (data buf : bytes) (n : nat) :
  n <= length data -> firstn n (store data buf) = firstn n data.
Proof.
  intros Hn. unfold store. rewrite firstn_app.
  replace (n - length data) with 0 by lia.
  rewrite firstn_0, app_nil_r. reflexivity.
Qed.

Lemma blocks_upto_fuel (n : nat) :
  0 < n ->
  forall f1 f2 l, length l <= f1 -> length l <= f2 ->
                  blocks_upto f1 n l = blocks_upto f2 n l.
Proof.
  intros Hn. induction f1 as [|f1 IH]; intros f2 l H1 H2.
  - destruct l; [|simpl in H1; lia]. destruct f2; reflexivity.
  - destruct l as [|c l]; [destruct f2; reflexivity|].
    destruct f2 as [|f2]; [simpl in H2; lia|].
    cbn [blocks_upto]. f_equal.
    cbn [length] in H1, H2.
    apply IH; rewrite length_skipn; cbn [length]; lia.
Qed.

Lemma blocks_nil (n : nat) : blocks n [] = [].
Proof. reflexivity. Qed.

Lemma blocks_step (n : nat) (l : bytes) :
  0 < n -> l <> [] -> blocks n l = firstn n l :: blocks n (skipn n l).
Proof.
  intros Hn Hl. unfold blocks.
  destruct l as [|c l]; [congruence|].
  cbn [length blocks_upto]. f_equal.
  apply blocks_upto_fuel; trivial; rewrite length_skipn; cbn [length]; lia.
Qed.

Lemma blocks_short (n : nat) (l : bytes) :
  l <> [] -> length l <= n -> blocks n l = [l].
Proof.
  intros Hl Hlen.
  assert (0 < n) by (destruct l; [congruence | simpl in Hlen; lia]).
  rewrite blocks_step by assumption.
  rewrite firstn_all2, skipn_all2 by assumption. reflexivity.
Qed.

Lemma blocks_app (n m : nat) :
  0 < n ->
  forall a b, length a = n * m -> blocks n (a ++ b) = blocks n a ++ blocks n b.
Proof.
  intros Hn. induction m as [|m IH]; intros a b Ha.
  - rewrite Nat.mul_0_r in Ha. apply length_zero_iff_nil in Ha. subst a.
    reflexivity.
  - assert (Hlen : n <= length a) by nia.
    assert (Hne : a <> []) by (intros ->; simpl in Hlen; lia).
    rewrite (blocks_step n (a ++ b)), (blocks_step n a); trivial.
    + rewrite firstn_app, skipn_app.
      replace (n - length a) with 0 by lia.
      rewrite firstn_0, skipn_0, app_nil_r. simpl. f_equal.
      apply IH. rewrite length_skipn. nia.
    + destruct a; [congruence | discriminate].
Qed.

Lemma blocks_regions (n : nat) :
  0 < n ->
  forall k r l, length l = n * k + r -> r < n -> blocks n l = regions n k r l.
Proof.
  intros Hn. unfold regions. induction k as [|k IH]; intros r l Hl Hr.
  - rewrite Nat.mul_0_r in *. simpl in Hl. simpl.
    destruct (Nat.eqb_spec r 0) as [->|Hr0].
    + apply length_zero_iff_nil in Hl. subst l. reflexivity.
    + apply blocks_short; [intros ->; simpl in Hl; lia | lia].
  - assert (Hne : l <> []) by (intros ->; simpl in Hl; nia).
    rewrite blocks_step by assumption.
    rewrite (IH r (skipn n l)) by (rewrite ?length_skipn; nia || assumption).
    cbn [seq map]. rewrite Nat.mul_0_r, skipn_0.
    rewrite <- seq_shift, map_map. simpl. f_equal. f_equal.
    + apply map_ext. intros j. rewrite skipn_skipn. f_equal. f_equal. lia.
    + destruct (r =? 0); [reflexivity|].
      rewrite skipn_skipn. f_equal. f_equal. lia.
Qed.

Lemma length_regions (n k r : nat) (l : bytes) :
  length (regions n k r l) = if r =? 0 then k else S k.
Proof.
  unfold regions. rewrite length_app, length_map, length_seq.
  destruct (r =? 0); simpl; lia.
Qed.

(** ** The sub-block loop *)

Lemma kbsize_pos : 0 < kbsize.
Proof. apply Nat.ltb_lt. vm_compute. reflexivity. Qed.

Lemma BSIZE_kbsize : BSIZE = kbsize * 8.
Proof. apply Nat.eqb_eq. vm_compute. reflexivity. Qed.

Lemma BSIZE_pos : 0 < BSIZE.
Proof. rewrite BSIZE_kbsize. pose proof kbsize_pos. lia. Qed.

Lemma elements_kboffsize (kblk : nat) :
  elements (kblk * kboffsize) = kblk * kbsize.
Proof.
  unfold elements, kboffsize. rewrite <- Nat.mul_assoc. f_equal.
  destruct JODY_HASH_WIDTH; apply Nat.eqb_eq; vm_compute; reflexivity.
Qed.

Lemma same_control_refl (s : state) : same_control s s.
Proof. repeat split. Qed.

Lemma same_control_trans (s1 s2 s3 : state) :
  same_control s1 s2 -> same_control s2 s3 -> same_control s1 s3.
Proof.
  unfold same_control. intros (?&?&?&?&?&?) (?&?&?&?&?&?).
  repeat split; congruence.
Qed.

#[local] Opaque kbsize BSIZE.

Lemma subblock_loop_digests :
  forall fuel s i kblk,
    i < fuel ->
    length (firstn i (skipn (kblk * kbsize) (blk s))) = i ->
    (forall b, In b (blocks kbsize (firstn i (skipn (kblk * kbsize) (blk s)))) ->
               fst (jody_block_hash b 0) = 0%Z) ->
    exists s',
      subblock_loop fuel s i kblk = Some s' /\
      same_control s s' /\ blk s' = blk s /\ stderr s' = stderr s /\
      stdout s' =
        stdout s ++
        concat (map (fun b => digest_line (snd (jody_block_hash b 0)))
                    (blocks kbsize (firstn i (skipn (kblk * kbsize) (blk s))))).
Proof.
  induction fuel as [|fuel IH]; intros s i kblk Hfuel Hlen Hok; [lia|].
  cbn [subblock_loop].
  destruct (Nat.eqb_spec i 0) as [->|Hi].
  - exists s. rewrite firstn_0, blocks_nil. simpl. rewrite app_nil_r.
    auto using same_control_refl.
  - set (region := firstn i (skipn (kblk * kbsize) (blk s))) in *.
    set (kbdrop := if kbsize <? i then kbsize else i).
    assert (Hdrop : kbdrop = Nat.min kbsize i)
      by (unfold kbdrop; destruct (Nat.ltb_spec kbsize i); lia).
    assert (Hne : region <> []) by (intros E; rewrite E in Hlen; simpl in Hlen; lia).
    rewrite elements_kboffsize. cbn [blk set_hash hash].
    assert (Hdata : firstn kbdrop (skipn (kblk * kbsize) (blk s)) = firstn kbsize region)
      by (unfold region; rewrite firstn_firstn, Hdrop; reflexivity).
    rewrite Hdata.
    rewrite (blocks_step kbsize region kbsize_pos Hne) in Hok |- *.
    rewrite (Hok (firstn kbsize region)) by (left; reflexivity).
    cbn [negb Z.eqb].
    assert (Hrest : firstn (i - kbdrop) (skipn (S kblk * kbsize) (blk s))
                    = skipn kbsize region).
    { unfold region. rewrite skipn_firstn_comm, skipn_skipn.
      cbn [Nat.mul]. f_equal. pose proof kbsize_pos. lia. }
    pose proof kbsize_pos as Hkb.
    destruct (IH (printf [LF] (printf (PRINTHASH (snd (jody_block_hash (firstn kbsize region) 0)))
                   (set_hash (snd (jody_block_hash (firstn kbsize region) 0)) (set_hash 0 s))))
                 (i - kbdrop) (S kblk)) as (s' & Hrun & Hctl & Hblk & Herr & Hout).
    + lia.
    + cbn [blk printf set_hash]. rewrite Hrest, length_skipn, Hlen.
      pose proof kbsize_pos. lia.
    + cbn [blk printf set_hash]. rewrite Hrest. intros b Hb. apply Hok. right. exact Hb.
    + exists s'. split; [exact Hrun|]. split; [|split; [|split]].
      * eapply same_control_trans; [|exact Hctl]. repeat split.
      * rewrite Hblk. reflexivity.
      * rewrite Herr. reflexivity.
      * rewrite Hout. cbn [blk stdout printf set_hash]. rewrite Hrest.
        cbn [map concat]. unfold digest_line. rewrite <- !app_assoc. reflexivity.
Qed.

(** ** The chunk loop on a stream that ends cleanly

    [chunk_loop_whole] also covers a stream whose fault comes when no byte
    is left to deliver, after a whole number of chunks. *)

Lemma region_of_store (data buf : bytes) :
  firstn (length data) (skipn (0 * kbsize) (store data buf)) = data.
Proof.
  rewrite Nat.mul_0_l, skipn_0, firstn_store by lia. apply firstn_all.
Qed.

Lemma fread_full (fp : FILE) :
  BSIZE <= length (pending fp) ->
  fread BSIZE fp =
    (firstn BSIZE (pending fp),
     mkFILE (skipn BSIZE (pending fp)) (ending_of fp) (feof fp) (ferror fp)).
Proof.
  intros H. unfold fread. destruct (Nat.leb_spec BSIZE (length (pending fp)));
    [reflexivity | lia].
Qed.

Lemma fread_short (fp : FILE) :
  length (pending fp) < BSIZE -> fread BSIZE fp = (pending fp, at_ending fp).
Proof.
  intros H. unfold fread. destruct (Nat.leb_spec BSIZE (length (pending fp)));
    [lia | reflexivity].
Qed.

Lemma chunk_loop_subblocks :
  forall fuel s fp,
    length (pending fp) < fuel ->
    ending_of fp = EndOfFile -> ferror fp = false -> feof fp = false ->
    outmode s = 5%Z ->
    (forall b, In b (blocks kbsize (pending fp)) ->
               fst (jody_block_hash b 0) = 0%Z) ->
    exists s' fp',
      chunk_loop fuel s fp = Some (s', fp') /\
      same_control s s' /\ stderr s' = stderr s /\
      stdout s' =
        stdout s ++
        concat (map (fun b => digest_line (snd (jody_block_hash b 0)))
                    (blocks kbsize (pending fp))).
Proof.
  induction fuel as [|fuel IH]; intros s fp Hfuel Hend Herr Heof Hmode Hok; [lia|].
  cbn [chunk_loop].
  destruct (Nat.leb_spec BSIZE (length (pending fp))) as [Hfull|Hshort].
  - (* a full chunk, and the loop goes on *)
    rewrite fread_full by assumption.
    set (data := firstn BSIZE (pending fp)).
    assert (Hlen : length data = BSIZE) by (unfold data; rewrite length_firstn; lia).
    assert (Hsplit : pending fp = data ++ skipn BSIZE (pending fp))
      by (unfold data; symmetry; apply firstn_skipn).
    assert (Hblocks : blocks kbsize (pending fp)
                      = blocks kbsize data ++ blocks kbsize (skipn BSIZE (pending fp))).
    { rewrite Hsplit at 1. apply (blocks_app kbsize 8 kbsize_pos).
      rewrite Hlen. apply BSIZE_kbsize. }
    pose proof BSIZE_pos as Hpos.
    destruct (Nat.eqb_spec (length data) 0) as [E|_]; [lia|].
    cbn [ferror outmode set_blk]. rewrite Herr, Hmode. cbn [Z.eqb Pos.eqb].
    destruct (subblock_loop_digests (S (length data))
                (set_blk (store data (blk s)) s) (length data) 0)
      as (s1 & Hrun & Hctl & _ & Herr1 & Hout1).
    + lia.
    + cbn [blk set_blk]. rewrite region_of_store. reflexivity.
    + cbn [blk set_blk]. rewrite region_of_store. intros b Hb.
      apply Hok. rewrite Hblocks. apply in_or_app. left. exact Hb.
    + rewrite Hrun. cbn [option_map feof]. rewrite Heof.
      cbn [blk set_blk] in Hout1. rewrite region_of_store in Hout1.
      destruct (IH s1 (mkFILE (skipn BSIZE (pending fp)) (ending_of fp)
                              (feof fp) (ferror fp)))
        as (s' & fp' & Hrun' & Hctl' & Herr' & Hout'); cbn [pending ending_of feof ferror]; trivial.
      * rewrite length_skipn. lia.
      * destruct Hctl as (_&_&_&Hm&_). rewrite Hm. exact Hmode.
      * intros b Hb. apply Hok. rewrite Hblocks. apply in_or_app. right. exact Hb.
      * exists s', fp'. rewrite Heof, Herr in Hrun'. split; [exact Hrun'|].
        split; [eapply same_control_trans; [|exact Hctl']; exact Hctl|].
        split; [rewrite Herr', Herr1; reflexivity|].
        rewrite Hout', Hout1. cbn [pending stdout set_blk].
        rewrite Hblocks, map_app, concat_app, <- app_assoc. reflexivity.
  - (* the last chunk, or none *)
    rewrite fread_short by assumption.
    destruct (Nat.eqb_spec (length (pending fp)) 0) as [E|Hne].
    + apply length_zero_iff_nil in E. rewrite E.
      eexists _, _. split; [reflexivity|].
      rewrite blocks_nil. cbn [map concat stdout stderr set_blk].
      rewrite app_nil_r. repeat split.
    + unfold at_ending. rewrite Hend. cbn [ferror outmode set_blk].
      rewrite Herr, Hmode. cbn [Z.eqb Pos.eqb].
      destruct (subblock_loop_digests (S (length (pending fp)))
                  (set_blk (store (pending fp) (blk s)) s) (length (pending fp)) 0)
        as (s1 & Hrun & Hctl & _ & Herr1 & Hout1).
      * lia.
      * cbn [blk set_blk]. rewrite region_of_store. reflexivity.
      * cbn [blk set_blk]. rewrite region_of_store. exact Hok.
      * rewrite Hrun. cbn [option_map feof].
        cbn [blk set_blk] in Hout1. rewrite region_of_store in Hout1.
        eexists _, _. split; [reflexivity|].
        split; [exact Hctl|]. split; [exact Herr1 | exact Hout1].
Qed.

Lemma hash_chunk_primitive (s : state) (i : nat) :
  hash_chunk s i =
    let r := chunk_primitive s (firstn i (blk s)) (hash s) in
    let s1 := set_hash (snd r) (eprintf (lit "doing a rolling hash of " ++ dec i
                                         ++ lit " bytes" ++ [LF]) s) in
    if negb (fst r =? 0)%Z
    then (set_read_err 1 (set_error EXIT_FAILURE
            (ERR (name s1) (eprintf (lit "error hashing file: ") s1))), true)
    else (s1, false).
Proof.
  unfold hash_chunk, chunk_primitive. cbn [outmode eprintf blk hash].
  destruct (outmode s =? 6)%Z; reflexivity.
Qed.

Lemma chunk_loop_whole :
  forall fuel s fp h,
    length (pending fp) < fuel ->
    (ending_of fp <> EndOfFile -> exists m, length (pending fp) = BSIZE * m) ->
    ferror fp = false -> feof fp = false ->
    outmode s <> 5%Z ->
    fold_hash (chunk_primitive s) (blocks BSIZE (pending fp)) (hash s) = Some h ->
    exists s' fp',
      chunk_loop fuel s fp = Some (s', fp') /\
      same_control s s' /\ hash s' = h /\ stdout s' = stdout s /\
      stderr s' = stderr s ++ concat (map notice (blocks BSIZE (pending fp))).
Proof.
  induction fuel as [|fuel IH]; intros s fp h Hfuel Hend Herr Heof Hmode Hfold; [lia|].
  cbn [chunk_loop]. pose proof BSIZE_pos as Hpos.
  apply Z.eqb_neq in Hmode.
  destruct (Nat.leb_spec BSIZE (length (pending fp))) as [Hfull|Hshort].
  - rewrite fread_full by assumption.
    set (data := firstn BSIZE (pending fp)) in *.
    assert (Hlen : length data = BSIZE) by (unfold data; rewrite length_firstn; lia).
    assert (Hne : pending fp <> []) by (intros E; rewrite E in Hfull; simpl in Hfull; lia).
    rewrite (blocks_step BSIZE _ Hpos Hne) in Hfold |- *. fold data in Hfold |- *.
    cbn [fold_hash] in Hfold.
    destruct (fst (chunk_primitive s data (hash s)) =? 0)%Z eqn:Hrc; [|discriminate].
    destruct (Nat.eqb_spec (length data) 0) as [E|_]; [lia|].
    cbn [ferror outmode set_blk]. rewrite Herr, Hmode.
    rewrite hash_chunk_primitive. cbn [blk hash set_blk].
    rewrite firstn_store, firstn_all by lia.
    change (chunk_primitive (set_blk (store data (blk s)) s)) with (chunk_primitive s).
    cbv zeta. rewrite Hrc. cbn [negb feof]. rewrite Heof.
    match goal with |- context [chunk_loop fuel ?s1 ?fp1] =>
      destruct (IH s1 fp1 h) as (s' & fp' & Hrun' & Hctl' & Hh' & Hout' & Herr')
    end; cbn [pending ending_of feof ferror].
    + rewrite length_skipn. lia.
    + intros E. destruct (Hend E) as [m Hm]. exists (m - 1).
      rewrite length_skipn, Hm. destruct m as [|m];
        [rewrite Nat.mul_0_r in Hm; lia|].
      rewrite Nat.mul_succ_r. cbn [Nat.sub]. rewrite Nat.sub_0_r. lia.
    + reflexivity.
    + reflexivity.
    + cbn [outmode set_hash eprintf set_blk]. apply Z.eqb_neq. exact Hmode.
    + exact Hfold.
    + exists s', fp'. split; [exact Hrun'|].
      split; [eapply same_control_trans; [|exact Hctl']; repeat split|].
      split; [exact Hh'|]. split; [rewrite Hout'; reflexivity|].
      rewrite Herr'. cbn [stderr set_hash eprintf set_blk map concat].
      unfold notice. rewrite Hlen, <- !app_assoc. reflexivity.
  - rewrite fread_short by assumption.
    destruct (Nat.eqb_spec (length (pending fp)) 0) as [E|Hne].
    + apply length_zero_iff_nil in E. rewrite E in Hfold |- *.
      rewrite blocks_nil in Hfold |- *. cbn [fold_hash] in Hfold.
      eexists _, _. split; [reflexivity|].
      cbn [map concat stdout stderr hash set_blk]. rewrite app_nil_r.
      repeat split. congruence.
    + assert (Hne' : pending fp <> []) by (intros E; rewrite E in Hne; simpl in Hne; lia).
      rewrite (blocks_short BSIZE _ Hne') in Hfold |- * by lia.
      cbn [fold_hash] in Hfold.
      destruct (fst (chunk_primitive s (pending fp) (hash s)) =? 0)%Z eqn:Hrc;
        [|discriminate].
      assert (Hend' : ending_of fp = EndOfFile).
      { destruct (ending_of fp) eqn:Ee; [reflexivity| |];
          (assert (Hm : exists m, length (pending fp) = BSIZE * m)
             by (apply Hend; congruence);
           destruct Hm as [[|m] Hm];
           [rewrite Nat.mul_0_r in Hm | rewrite Nat.mul_succ_r in Hm]; lia). }
      unfold at_ending. rewrite Hend'. cbn [ferror outmode set_blk].
      rewrite Herr, Hmode.
      rewrite hash_chunk_primitive. cbn [blk hash set_blk].
      rewrite firstn_store, firstn_all by lia.
      change (chunk_primitive (set_blk (store (pending fp) (blk s)) s))
        with (chunk_primitive s).
      cbv zeta. rewrite Hrc. cbn [negb feof].
      eexists _, _. split; [reflexivity|].
      split; [repeat split|]. split; [cbn [hash set_hash]; congruence|].
      split; [reflexivity|].
      cbn [stderr set_hash eprintf set_blk map concat].
      unfold notice. rewrite app_nil_r. reflexivity.
Qed.

Lemma chunks_read_all (prim : bytes -> Z -> Z * Z) :
  forall chunks seed h,
    fold_hash prim chunks seed = Some h -> chunks_read prim chunks seed = chunks.
Proof.
  induction chunks as [|c chunks IH]; intros seed h H; [reflexivity|].
  cbn [fold_hash chunks_read] in *.
  destruct (fst (prim c seed) =? 0)%Z; [|discriminate].
  f_equal. eapply IH. exact H.
Qed.

(** The diagnostic stream after the chunk loop, whether or not the
    primitive accepts every chunk. *)
Lemma chunk_loop_notices :
  forall fuel s fp,
    length (pending fp) < fuel ->
    (ending_of fp <> EndOfFile -> exists m, length (pending fp) = BSIZE * m) ->
    ferror fp = false -> feof fp = false ->
    outmode s <> 5%Z ->
    exists s' fp',
      chunk_loop fuel s fp = Some (s', fp') /\
      stderr s' =
        stderr s ++
        concat (map notice
                    (chunks_read (chunk_primitive s) (blocks BSIZE (pending fp)) (hash s)))
        ++ hash_failure_message
             (fold_hash (chunk_primitive s) (blocks BSIZE (pending fp)) (hash s))
             (name s).
Proof.
  induction fuel as [|fuel IH]; intros s fp Hfuel Hend Herr Heof Hmode; [lia|].
  cbn [chunk_loop]. pose proof BSIZE_pos as Hpos.
  apply Z.eqb_neq in Hmode.
  destruct (Nat.leb_spec BSIZE (length (pending fp))) as [Hfull|Hshort].
  - rewrite fread_full by assumption.
    set (data := firstn BSIZE (pending fp)) in *.
    assert (Hlen : length data = BSIZE) by (unfold data; rewrite length_firstn; lia).
    assert (Hne : pending fp <> []) by (intros E; rewrite E in Hfull; simpl in Hfull; lia).
    rewrite (blocks_step BSIZE _ Hpos Hne). fold data.
    cbn [fold_hash chunks_read]. unfold hash_failure_message.
    destruct (Nat.eqb_spec (length data) 0) as [E|_]; [lia|].
    cbn [ferror outmode set_blk]. rewrite Herr, Hmode.
    rewrite hash_chunk_primitive. cbn [blk hash set_blk].
    rewrite firstn_store, firstn_all by lia.
    change (chunk_primitive (set_blk (store data (blk s)) s)) with (chunk_primitive s).
    cbv zeta.
    destruct (fst (chunk_primitive s data (hash s)) =? 0)%Z eqn:Hrc; cbn [negb].
    + cbn [feof]. rewrite Heof.
      match goal with |- context [chunk_loop fuel ?s1 ?fp1] =>
        destruct (IH s1 fp1) as (s' & fp' & Hrun' & Herr')
      end; cbn [pending ending_of feof ferror].
      * rewrite length_skipn. lia.
      * intros E. destruct (Hend E) as [m Hm]. exists (m - 1).
        rewrite length_skipn, Hm. destruct m as [|m];
          [rewrite Nat.mul_0_r in Hm; lia|].
        rewrite Nat.mul_succ_r. cbn [Nat.sub]. rewrite Nat.sub_0_r. lia.
      * reflexivity.
      * reflexivity.
      * cbn [outmode set_hash eprintf set_blk]. apply Z.eqb_neq. exact Hmode.
      * exists s', fp'. split; [exact Hrun'|].
        rewrite Herr'. cbn [stderr hash name set_hash eprintf set_blk map concat pending].
        change (chunk_primitive
                  (set_hash (snd (chunk_primitive s data (hash s)))
                     (eprintf (lit "doing a rolling hash of " ++ dec (length data)
                               ++ lit " bytes" ++ [LF])
                        (set_blk (store data (blk s)) s))))
          with (chunk_primitive s).
        unfold notice at 2. rewrite Hlen, <- !app_assoc. reflexivity.
    + eexists _, _. split; [reflexivity|].
      cbn [stderr name set_read_err set_error ERR eprintf set_hash set_blk map concat].
      unfold notice. rewrite Hlen, app_nil_r, <- !app_assoc. reflexivity.
  - rewrite fread_short by assumption.
    destruct (Nat.eqb_spec (length (pending fp)) 0) as [E|Hne].
    + apply length_zero_iff_nil in E. rewrite E.
      rewrite blocks_nil. cbn [fold_hash chunks_read]. unfold hash_failure_message.
      eexists _, _. split; [reflexivity|].
      cbn [map concat stderr set_blk]. rewrite !app_nil_r. reflexivity.
    + assert (Hne' : pending fp <> []) by (intros E; rewrite E in Hne; simpl in Hne; lia).
      rewrite (blocks_short BSIZE _ Hne') by lia.
      cbn [fold_hash chunks_read]. unfold hash_failure_message.
      assert (Hend' : ending_of fp = EndOfFile).
      { destruct (ending_of fp) eqn:Ee; [reflexivity| |];
          (assert (Hm : exists m, length (pending fp) = BSIZE * m)
             by (apply Hend; congruence);
           destruct Hm as [[|m] Hm];
           [rewrite Nat.mul_0_r in Hm | rewrite Nat.mul_succ_r in Hm]; lia). }
      unfold at_ending. rewrite Hend'. cbn [ferror outmode set_blk].
      rewrite Herr, Hmode.
      rewrite hash_chunk_primitive. cbn [blk hash set_blk].
      rewrite firstn_store, firstn_all by lia.
      change (chunk_primitive (set_blk (store (pending fp) (blk s)) s))
        with (chunk_primitive s).
      cbv zeta.
      destruct (fst (chunk_primitive s (pending fp) (hash s)) =? 0)%Z eqn:Hrc;
        cbn [negb feof].
      * eexists _, _. split; [reflexivity|].
        cbn [stderr set_hash eprintf set_blk map concat].
        unfold notice. rewrite !app_nil_r. reflexivity.
      * eexists _, _. split; [reflexivity|].
        cbn [stderr name set_read_err set_error ERR eprintf set_hash set_blk map concat].
        unfold notice. rewrite app_nil_r, <- !app_assoc. reflexivity.
Qed.

(** ** One iteration of the [do] loop outside Line mode *)

Lemma open_input_set_hash (argv : list bytes) (s : state) (v : Z) :
  open_input argv (set_hash v s) = open_input argv s.
Proof. reflexivity. Qed.

(** One iteration of the [do] loop in Whole-file, BinaryStyle, Per-name or
    Rolling mode, on an input whose reads meet no fault while data is
    delivered: one line with the digest folded over the chunks, and one
    notice per chunk. *)
Lemma do_body_whole :
  forall argv s display is_stdin data e h,
    outmode s = 0%Z \/ outmode s = 1%Z \/ outmode s = 4%Z \/ outmode s = 6%Z ->
    read_err s = 0%Z ->
    open_input argv s = Some (display, Some (fresh_stream (data, e)), is_stdin) ->
    (e <> EndOfFile -> exists m, length data = BSIZE * m) ->
    fold_hash (chunk_primitive s) (blocks BSIZE data) 0 = Some h ->
    exists s',
      do_body argv s = Some s' /\
      stdout s' =
        stdout s ++ PRINTHASH h ++
        (if (outmode s =? 1)%Z then lit " *" ++ display ++ [LF]
         else if (outmode s =? 4)%Z then lit " " ++ display ++ [LF]
         else [LF]) /\
      stderr s' = stderr s ++ concat (map notice (blocks BSIZE data)) /\
      error s' = error s /\ argnum s' = S (argnum s).
Proof.
  clear VER VERDATE NO_AVX2 NO_SSE2.
  intros argv s display is_stdin data e h Hmode Hre Hopen Hend Hfold.
  unfold do_body. rewrite open_input_set_hash, Hopen.
  unfold hash_stream. cbn [outmode set_name set_hash].
  assert (Hline : ((outmode s =? 2) || (outmode s =? 3))%Z = false)
    by (destruct Hmode as [E|[E|[E|E]]]; rewrite E; reflexivity).
  assert (H5 : (outmode s =? 5)%Z = false)
    by (destruct Hmode as [E|[E|[E|E]]]; rewrite E; reflexivity).
  rewrite Hline.
  destruct (chunk_loop_whole
              (S (length (pending (fresh_stream (data, e)))))
              (set_name display (set_hash 0 s))
              (fresh_stream (data, e)) h)
    as (s1 & fp1 & Hrun & Hctl & Hh & Hout & Herr); trivial.
  - lia.
  - cbn [outmode set_name set_hash]. apply Z.eqb_neq. exact H5.
  - rewrite Hrun. destruct Hctl as (He & Hn & Ha & Hm & Hr1 & _).
    cbn [read_err outmode error name argnum stdout stderr set_name set_hash
         pending fresh_stream fst] in He, Hn, Ha, Hm, Hr1, Hout, Herr.
    rewrite Hr1, Hre. cbn [Z.eqb]. rewrite Hm, H5.
    cbn [negb outmode name printf]. rewrite Hm, Hn, Hh.
    eexists. split; [reflexivity|].
    destruct (outmode s =? 1)%Z; [|destruct (outmode s =? 4)%Z];
      destruct is_stdin;
      cbn [close_file stdout stderr error argnum set_argnum set_stdin printf];
      rewrite Hout, Ha, <- ?app_assoc; auto.
Qed.

(** X15.  A read fault that comes when the stream has delivered a whole
    number of chunks (none, for a directory) is not noticed: [fread]
    returns 0, the loop of line 253 ends before the test of line 254, and
    in a Whole-file mode the input is digested as if it ended there and the
    exit status is left as it was. *)
Lemma read_fault_at_chunk_boundary_goes_unnoticed :
  forall argv s display is_stdin data m h,
    outmode s = 0%Z \/ outmode s = 1%Z \/ outmode s = 4%Z \/ outmode s = 6%Z ->
    read_err s = 0%Z ->
    open_input argv s
      = Some (display, Some (fresh_stream (data, ReadFault)), is_stdin) ->
    length data = BSIZE * m ->
    fold_hash (chunk_primitive s) (blocks BSIZE data) 0 = Some h ->
    exists s',
      do_body argv s = Some s' /\
      stdout s' =
        stdout s ++ PRINTHASH h ++
        (if (outmode s =? 1)%Z then lit " *" ++ display ++ [LF]
         else if (outmode s =? 4)%Z then lit " " ++ display ++ [LF]
         else [LF]) /\
      error s' = error s.
Proof.
  clear VER VERDATE NO_AVX2 NO_SSE2.
  intros argv s display is_stdin data m h Hmode Hre Hopen Hlen Hfold.
  destruct (do_body_whole argv s display is_stdin data ReadFault h)
    as (s' & Hrun & Hout & _ & He & _); eauto.
Qed.

(** C3.  In SubBlock mode ([-B], [outmode = 5]) an input of
    [4096 * k + r] bytes with [r < 4096] that is read without fault, and
    whose sub-blocks the primitive accepts, adds to the standard output one
    digest line per region of [regions]: the [k] consecutive regions of 4096
    bytes in file order, then, when [0 < r], the final [r] bytes; so [k]
    digest lines when [r = 0] and [k + 1] otherwise.  Every digest is the
    primitive's result on its region from a zero digest.  An empty line
    follows the digest lines; nothing is written to the diagnostic stream
    and the exit status is unchanged. *)
Theorem subblock_mode_digests :
  forall argv s display is_stdin data k r,
    outmode s = 5%Z -> read_err s = 0%Z ->
    open_input argv s
      = Some (display, Some (fresh_stream (data, EndOfFile)), is_stdin) ->
    length data = kbsize * k + r -> r < kbsize ->
    (forall b, In b (regions kbsize k r data) ->
               fst (jody_block_hash b 0) = 0%Z) ->
    exists s',
      do_body argv s = Some s' /\
      stdout s' =
        stdout s ++
        concat (map (fun b => digest_line (snd (jody_block_hash b 0)))
                    (regions kbsize k r data)) ++ [LF] /\
      length (regions kbsize k r data) = (if r =? 0 then k else S k) /\
      stderr s' = stderr s /\ error s' = error s.
Proof.
  clear VER VERDATE NO_AVX2 NO_SSE2.
  intros argv s display is_stdin data k r Hmode Hre Hopen Hlen Hr Hok.
  rewrite <- (blocks_regions kbsize kbsize_pos k r data Hlen Hr) in *.
  unfold do_body. rewrite open_input_set_hash, Hopen.
  unfold hash_stream. cbn [outmode set_name set_hash]. rewrite Hmode.
  cbn [Z.eqb Pos.eqb orb].
  destruct (chunk_loop_subblocks
              (S (length (pending (fresh_stream (data, EndOfFile)))))
              (set_name display (set_hash 0 s))
              (fresh_stream (data, EndOfFile)))
    as (s1 & fp1 & Hrun & Hctl & Herr & Hout); trivial; [lia|].
  rewrite Hrun. destruct Hctl as (He & _ & _ & Hm & Hr1 & _).
  cbn [read_err outmode error set_name set_hash] in He, Hm, Hr1.
  rewrite Hr1, Hre. cbn [Z.eqb]. rewrite Hm, Hmode. cbn [Z.eqb Pos.eqb negb].
  rewrite Hm, Hmode. cbn [Z.eqb Pos.eqb].
  eexists. split; [reflexivity|].
  split; [|split; [|split]].
  - destruct is_stdin; cbn [close_file stdout set_argnum set_stdin printf];
      rewrite Hout, <- app_assoc; reflexivity.
  - rewrite (blocks_regions kbsize kbsize_pos k r data Hlen Hr).
    apply length_regions.
  - destruct is_stdin; cbn [close_file stderr set_argnum set_stdin printf];
      rewrite Herr; reflexivity.
  - destruct is_stdin; cbn [close_file error set_argnum set_stdin printf];
      rewrite He; reflexivity.
Qed.

(** C8.  In Rolling mode ([-r], [outmode = 6]) an input read without
    fault, on whose chunks the primitive does not fail, adds to the standard
    output exactly one digest line.  Its digest is obtained by starting from
    zero, whatever digest the state held before this input, and giving
    [jody_rolling_block_hash] the chunks of the input in order, each call
    seeded with the digest the previous call left: the digest is never reset
    between chunks. *)
Theorem rolling_mode_digest :
  forall argv s display is_stdin data h,
    outmode s = 6%Z -> read_err s = 0%Z ->
    open_input argv s
      = Some (display, Some (fresh_stream (data, EndOfFile)), is_stdin) ->
    fold_hash jody_rolling_block_hash (blocks BSIZE data) 0 = Some h ->
    exists s',
      do_body argv s = Some s' /\
      stdout s' = stdout s ++ digest_line h /\
      error s' = error s.
Proof.
  clear VER VERDATE NO_AVX2 NO_SSE2.
  intros argv s display is_stdin data h Hmode Hre Hopen Hfold.
  destruct (do_body_whole argv s display is_stdin data EndOfFile h)
    as (s' & Hrun & Hout & _ & He & _); auto; try congruence.
  - unfold chunk_primitive. rewrite Hmode. exact Hfold.
  - exists s'. rewrite Hmode in Hout. auto.
Qed.

(** C10.  In the modes that hash a file as a whole (Whole-file
    [outmode = 0], BinaryStyle [1], Per-name [4], Rolling [6]) an input read
    without fault adds to the diagnostic stream exactly one line
    [doing a rolling hash of <n> bytes] per chunk read, in order, [<n>] being
    the chunk's length, whether or not the mode is Rolling.  The chunks read
    are all the chunks of the input, or those up to the first one on which
    the primitive fails; in that case the failure message follows. *)
Theorem chunk_notice_in_every_whole_mode :
  forall argv s display is_stdin data,
    outmode s = 0%Z \/ outmode s = 1%Z \/ outmode s = 4%Z \/ outmode s = 6%Z ->
    open_input argv s
      = Some (display, Some (fresh_stream (data, EndOfFile)), is_stdin) ->
    exists s',
      do_body argv s = Some s' /\
      stderr s' =
        stderr s ++
        concat (map notice
                    (chunks_read (chunk_primitive s) (blocks BSIZE data) 0)) ++
        hash_failure_message
          (fold_hash (chunk_primitive s) (blocks BSIZE data) 0) display.
Proof.
  clear VER VERDATE NO_AVX2 NO_SSE2.
  intros argv s display is_stdin data Hmode Hopen.
  unfold do_body. rewrite open_input_set_hash, Hopen.
  unfold hash_stream. cbn [outmode set_name set_hash].
  assert (Hline : ((outmode s =? 2) || (outmode s =? 3))%Z = false)
    by (destruct Hmode as [E|[E|[E|E]]]; rewrite E; reflexivity).
  rewrite Hline.
  destruct (chunk_loop_notices
              (S (length (pending (fresh_stream (data, EndOfFile)))))
              (set_name display (set_hash 0 s))
              (fresh_stream (data, EndOfFile)))
    as (s1 & fp1 & Hrun & Herr); trivial.
  - lia.
  - intros E. exfalso. apply E. reflexivity.
  - cbn [outmode set_name set_hash].
    destruct Hmode as [E|[E|[E|E]]]; rewrite E; discriminate.
  - rewrite Hrun.
    cbn [stderr hash name set_name set_hash pending fresh_stream fst] in Herr.
    change (chunk_primitive (set_name display (set_hash 0 s)))
      with (chunk_primitive s) in Herr.
    destruct (read_err s1 =? 1)%Z.
    + eexists. split; [reflexivity|].
      destruct is_stdin; cbn [close_file stderr set_argnum set_stdin set_read_err];
        exact Herr.
    + eexists. split; [reflexivity|].
      destruct is_stdin; cbn [close_file stderr set_argnum set_stdin];
        repeat match goal with
               | |- context [if ?c then _ else _] => destruct c
               end; cbn [stderr printf]; exact Herr.
Qed.

(** C5.  In Whole-file mode ([outmode = 0]) and BinaryStyle mode
    ([outmode = 1]) an input of zero bytes is not an error: nothing is
    written to the diagnostic stream, the exit status is unchanged, and
    exactly one digest line is added to the standard output.  The program
    prints the zero digest it starts from, without a call of the primitive;
    that is the primitive's digest of zero-length data as soon as the
    primitive leaves a zero digest unchanged on zero-length data. *)
Theorem empty_input_digest :
  forall argv s display is_stdin,
    outmode s = 0%Z \/ outmode s = 1%Z -> read_err s = 0%Z ->
    open_input argv s
      = Some (display, Some (fresh_stream ([], EndOfFile)), is_stdin) ->
    snd (jody_block_hash [] 0) = 0%Z ->
    exists s',
      do_body argv s = Some s' /\
      stdout s' =
        stdout s ++ PRINTHASH (snd (jody_block_hash [] 0)) ++
        (if (outmode s =? 1)%Z then lit " *" ++ display ++ [LF] else [LF]) /\
      stderr s' = stderr s /\ error s' = error s.
Proof.
  clear VER VERDATE NO_AVX2 NO_SSE2.
  intros argv s display is_stdin Hmode Hre Hopen Hempty. rewrite Hempty.
  destruct (do_body_whole argv s display is_stdin [] EndOfFile 0%Z)
    as (s' & Hrun & Hout & Herr & He & _); trivial; try congruence.
  - tauto.
  - exists s'. rewrite app_nil_r in Herr.
    destruct Hmode as [E|E]; rewrite E in Hout |- *; auto.
Qed.

(** ** The line loop *)

Lemma BSIZE_ge : 8 <= BSIZE.
Proof. rewrite BSIZE_kbsize. pose proof kbsize_pos. lia. Qed.

Lemma take_line_unterminated :
  forall n l, Forall (fun x => x <> LF) l -> length l < n ->
              take_line n l = (l, [], true).
Proof.
  induction n as [|n IH]; intros l Hl Hn; [lia|].
  destruct l as [|c l]; [reflexivity|].
  inversion Hl as [|? ? Hc Hl']; subst. cbn [take_line].
  destruct (Ascii.eqb_spec c LF) as [E|_]; [contradiction|].
  rewrite IH by (simpl in Hn; trivial; lia). reflexivity.
Qed.

Lemma take_line_terminated :
  forall n l r, Forall (fun x => x <> LF) l -> length l < n ->
                take_line n (l ++ LF :: r) = (l ++ [LF], r, false).
Proof.
  induction n as [|n IH]; intros l r Hl Hn; [lia|].
  destruct l as [|c l]; [reflexivity|].
  inversion Hl as [|? ? Hc Hl']; subst. cbn [take_line app].
  destruct (Ascii.eqb_spec c LF) as [E|_]; [contradiction|].
  rewrite IH by (simpl in Hn; trivial; lia). reflexivity.
Qed.

Lemma strlen_line (l r : bytes) :
  Forall (fun x => x <> NUL) l -> strlen (l ++ NUL :: r) = length l.
Proof.
  induction 1 as [|c l Hc _ IH]; [reflexivity|].
  cbn [app strlen length]. destruct (Ascii.eqb_spec c NUL); [contradiction|].
  rewrite IH. reflexivity.
Qed.

Lemma store_line (l buf : bytes) :
  store (l ++ [NUL]) buf = l ++ NUL :: skipn (length (l ++ [NUL])) buf.
Proof. unfold store. rewrite <- app_assoc. reflexivity. Qed.

Lemma poke_middle (t : bytes) (x v : ascii) (r : bytes) :
  poke (length t) v (t ++ x :: r) = t ++ v :: r.
Proof. induction t as [|c t IH]; [reflexivity|]. cbn. rewrite IH. reflexivity. Qed.

Lemma peek_middle (t : bytes) (x : ascii) (r : bytes) :
  peek (length t) (t ++ x :: r) = x.
Proof. unfold peek. apply nth_middle. Qed.

Lemma firstn_exact (t r : bytes) : firstn (length t) (t ++ r) = t.
Proof.
  rewrite firstn_app, Nat.sub_diag, firstn_0, app_nil_r. apply firstn_all.
Qed.

Lemma cstring_line (l r : bytes) :
  Forall (fun x => x <> NUL) l -> cstring (l ++ NUL :: r) = l.
Proof. intros H. unfold cstring. rewrite strlen_line by assumption. apply firstn_exact. Qed.

Lemma fgets_unterminated (buf : bytes) (fp : FILE) :
  pending fp <> [] -> Forall (fun x => x <> LF) (pending fp) ->
  length (pending fp) < BSIZE - 1 -> ending_of fp = EndOfFile ->
  fgets buf BSIZE fp =
    (true, store (pending fp ++ [NUL]) buf, mkFILE [] EndOfFile true (ferror fp)).
Proof.
  intros Hne Hlf Hlen Hend. unfold fgets.
  rewrite take_line_unterminated by assumption.
  unfold at_ending. rewrite Hend.
  destruct (pending fp); [congruence | reflexivity].
Qed.

Lemma fgets_terminated (buf : bytes) (fp : FILE) (l r : bytes) :
  pending fp = l ++ LF :: r -> Forall (fun x => x <> LF) l ->
  length l < BSIZE - 1 ->
  fgets buf BSIZE fp =
    (true, store ((l ++ [LF]) ++ [NUL]) buf,
     mkFILE r (ending_of fp) (feof fp) (ferror fp)).
Proof.
  intros Hp Hlf Hlen. unfold fgets.
  rewrite Hp, take_line_terminated by assumption. reflexivity.
Qed.

Lemma fgets_exhausted (buf : bytes) (fp : FILE) :
  pending fp = [] -> ending_of fp = EndOfFile ->
  fgets buf BSIZE fp = (false, buf, mkFILE [] EndOfFile true (ferror fp)).
Proof.
  intros Hp Hend. unfold fgets. rewrite Hp.
  pose proof BSIZE_ge. destruct (BSIZE - 1) eqn:E; [lia|].
  cbn [take_line]. unfold at_ending. rewrite Hend. reflexivity.
Qed.

(** A buffer whose string is shorter than two bytes is passed over. *)
Lemma line_body_skip (s : state) (fp : FILE) :
  ferror fp = false -> strlen (blk s) < 2 ->
  line_body s fp = (set_hash 0 s, false).
Proof.
  intros Herr Hlen. unfold line_body. rewrite Herr. cbn [blk set_hash].
  apply Nat.ltb_lt in Hlen. rewrite Hlen. reflexivity.
Qed.

(** A buffer holding [T], one more byte and the terminator, [T] not ending
    in CR: the last byte is dropped and [T] is hashed. *)
Lemma line_body_plain (s : state) (fp : FILE) (T : bytes) (c : ascii) (rest : bytes) :
  ferror fp = false ->
  blk s = T ++ c :: NUL :: rest ->
  T <> [] -> Forall (fun x => x <> NUL) T -> c <> NUL ->
  peek 0 T <> LF -> last T NUL <> CR ->
  fst (jody_block_hash T 0) = 0%Z ->
  exists s',
    line_body s fp = (s', feof fp) /\ same_control s s' /\
    stderr s' = stderr s /\
    stdout s' =
      stdout s ++ PRINTHASH (snd (jody_block_hash T 0)) ++
      (if (outmode s =? 3)%Z then lit " '" ++ T ++ lit "'" ++ [LF] else [LF]).
Proof.
  intros Herr Hblk HT Hnul Hc Hfirst Hlast Hrc.
  unfold line_body. rewrite Herr. cbn [blk set_hash]. rewrite Hblk.
  assert (Hi : strlen (T ++ c :: NUL :: rest) = S (length T)).
  { change (T ++ c :: NUL :: rest) with (T ++ [c] ++ NUL :: rest).
    rewrite app_assoc, strlen_line, length_app.
    - simpl. lia.
    - apply Forall_app. split; [assumption|]. constructor; [assumption|constructor]. }
  rewrite Hi.
  destruct (exists_last HT) as (T' & d & ->).
  rewrite last_last in Hlast.
  assert (Hlen2 : (S (length (T' ++ [d])) <? 2) = false)
    by (apply Nat.ltb_ge; rewrite length_app; simpl; lia).
  rewrite Hlen2.
  assert (Hfirst' : peek 0 ((T' ++ [d]) ++ c :: NUL :: rest) = peek 0 (T' ++ [d]))
    by (destruct T'; reflexivity).
  rewrite Hfirst'.
  destruct (Ascii.eqb_spec (peek 0 (T' ++ [d])) LF) as [E|_]; [contradiction|].
  cbn [orb].
  replace (S (length (T' ++ [d])) - 2) with (length T')
    by (rewrite length_app; simpl; lia).
  replace (S (length (T' ++ [d])) - 1) with (length (T' ++ [d])) by lia.
  replace (peek (length T') ((T' ++ [d]) ++ c :: NUL :: rest)) with d
    by (rewrite <- app_assoc; cbn [app]; rewrite peek_middle; reflexivity).
  destruct (Ascii.eqb_spec d CR) as [E|_]; [contradiction|].
  cbn [blk set_blk hash set_hash].
  rewrite poke_middle, firstn_exact, Hrc.
  cbn [Z.eqb negb hash set_hash outmode printf set_blk blk].
  rewrite cstring_line by assumption.
  eexists. split; [reflexivity|].
  destruct (outmode s =? 3)%Z; cbn [stdout stderr printf set_blk set_hash];
    rewrite <- ?app_assoc; repeat split; auto.
Qed.

(** A buffer holding [T], CR, one more byte and the terminator: the CR is
    overwritten with NUL, and [T] and that NUL are hashed. *)
Lemma line_body_cr (s : state) (fp : FILE) (T : bytes) (c : ascii) (rest : bytes) :
  ferror fp = false ->
  blk s = T ++ CR :: c :: NUL :: rest ->
  Forall (fun x => x <> NUL) T -> c <> NUL ->
  peek 0 (T ++ [CR]) <> LF ->
  fst (jody_block_hash (T ++ [NUL]) 0) = 0%Z ->
  exists s',
    line_body s fp = (s', feof fp) /\ same_control s s' /\
    stderr s' = stderr s /\
    stdout s' =
      stdout s ++ PRINTHASH (snd (jody_block_hash (T ++ [NUL]) 0)) ++
      (if (outmode s =? 3)%Z then lit " '" ++ T ++ lit "'" ++ [LF] else [LF]).
Proof.
  intros Herr Hblk Hnul Hc Hfirst Hrc.
  unfold line_body. rewrite Herr. cbn [blk set_hash]. rewrite Hblk.
  assert (Hi : strlen (T ++ CR :: c :: NUL :: rest) = S (S (length T))).
  { change (T ++ CR :: c :: NUL :: rest) with (T ++ [CR; c] ++ NUL :: rest).
    rewrite app_assoc, strlen_line, length_app.
    - simpl. lia.
    - apply Forall_app. split; [assumption|].
      constructor; [discriminate|]. constructor; [assumption|constructor]. }
  rewrite Hi.
  assert (Hfirst' : peek 0 (T ++ CR :: c :: NUL :: rest) = peek 0 (T ++ [CR]))
    by (destruct T; reflexivity).
  rewrite Hfirst'.
  destruct (Ascii.eqb_spec (peek 0 (T ++ [CR])) LF) as [E|_]; [contradiction|].
  cbn [Nat.ltb Nat.leb orb].
  replace (S (S (length T)) - 2) with (length T) by lia.
  replace (S (S (length T)) - 1) with (length (T ++ [NUL]))
    by (rewrite length_app; simpl; lia).
  rewrite peek_middle. cbn [Ascii.eqb Bool.eqb CR].
  cbn [blk set_blk hash set_hash].
  rewrite poke_middle.
  change (T ++ NUL :: c :: NUL :: rest) with (T ++ [NUL] ++ c :: NUL :: rest).
  rewrite app_assoc, firstn_exact, Hrc.
  cbn [Z.eqb negb hash set_hash outmode printf set_blk blk].
  rewrite <- app_assoc. cbn [app]. rewrite cstring_line by assumption.
  eexists. split; [reflexivity|].
  destruct (outmode s =? 3)%Z; cbn [stdout stderr printf set_blk set_hash];
    rewrite <- ?app_assoc; repeat split; auto.
Qed.

(** C9.  In the line loop ([-l], [outmode = 2], and [-L],
    [outmode = 3]) a final line without newline loses its last byte before
    hashing: when the stream holds the unterminated line [T ++ [c]] (no NUL
    or LF in it, [T] not empty and not ending in CR, the line shorter than
    the buffer), the primitive is given [T] from a zero digest, and the
    record printed is that digest, followed in [-L] mode by [T] in quotes.
    A final unterminated line of one byte ([fp1]) produces no record and no
    diagnostic.  The condition on CR is needed: when the byte before the
    last one is CR, line 231 overwrites that CR instead, and what is hashed
    is not the line without its last byte. *)
Theorem final_unterminated_line :
  forall fuel s fp fp1 T c c1,
    outmode s = 2%Z \/ outmode s = 3%Z ->
    1 < fuel ->
    pending fp = T ++ [c] -> ending_of fp = EndOfFile -> ferror fp = false ->
    T <> [] -> Forall (fun x => x <> NUL /\ x <> LF) (T ++ [c]) ->
    last T NUL <> CR -> length (T ++ [c]) < BSIZE - 1 ->
    fst (jody_block_hash T 0) = 0%Z ->
    pending fp1 = [c1] -> c1 <> LF ->
    ending_of fp1 = EndOfFile -> ferror fp1 = false ->
    (exists s' fp',
        line_loop fuel s fp = Some (s', fp') /\
        stdout s' =
          stdout s ++ PRINTHASH (snd (jody_block_hash T 0)) ++
          (if (outmode s =? 3)%Z then lit " '" ++ T ++ lit "'" ++ [LF] else [LF]) /\
        stderr s' = stderr s /\ error s' = error s) /\
    (exists s' fp',
        line_loop fuel s fp1 = Some (s', fp') /\
        stdout s' = stdout s /\ stderr s' = stderr s /\ error s' = error s).
Proof.
  clear jody_rolling_block_hash VER VERDATE PATH_MAX NO_AVX2 NO_SSE2 fs.
  intros fuel s fp fp1 T c c1 Hmode Hfuel Hp Hend Herr HT Hchars Hlast Hlen Hrc
         Hp1 Hc1 Hend1 Herr1.
  destruct fuel as [|fuel]; [lia|].
  assert (Hnul : Forall (fun x => x <> NUL) (T ++ [c]))
    by (eapply Forall_impl; [|exact Hchars]; cbn; tauto).
  assert (Hlf : Forall (fun x => x <> LF) (T ++ [c]))
    by (eapply Forall_impl; [|exact Hchars]; cbn; tauto).
  apply Forall_app in Hnul. destruct Hnul as [HnulT Hnulc].
  split.
  - (* the line T ++ [c] *)
    cbn [line_loop].
    rewrite fgets_unterminated
      by (rewrite ?Hp; trivial; destruct T; discriminate).
    rewrite Hp, store_line, <- app_assoc. cbn [app negb].
    destruct (line_body_plain
                (set_blk (T ++ c :: NUL :: skipn (length ((T ++ [c]) ++ [NUL])) (blk s)) s)
                (mkFILE [] EndOfFile true (ferror fp)) T c
                (skipn (length ((T ++ [c]) ++ [NUL])) (blk s)))
      as (s' & Hrun & Hctl & Herr' & Hout'); trivial.
    + inversion Hnulc; assumption.
    + apply Forall_app in Hlf. destruct Hlf as [Hlf _].
      destruct T as [|x T]; [congruence|]. inversion Hlf; assumption.
    + rewrite Hrun. cbn [feof]. eexists _, _. split; [reflexivity|].
      destruct Hctl as (He & _). cbn [error stdout stderr outmode set_blk] in *.
      auto.
  - (* a line of one byte *)
    cbn [line_loop].
    rewrite fgets_unterminated; rewrite ?Hp1; trivial;
      [| discriminate
       | constructor; [assumption|constructor]
       | pose proof BSIZE_ge; simpl; lia].
    cbn [negb].
    rewrite line_body_skip; cbn [ferror blk set_blk]; trivial;
      [| unfold store; cbn [app strlen];
         destruct (Ascii.eqb c1 NUL); cbn; lia].
    destruct fuel as [|fuel]; [lia|].
    cbn [line_loop].
    rewrite fgets_exhausted by reflexivity. cbn [negb].
    eexists _, _. split; [reflexivity|]. cbn. auto.
Qed.

(** C1.  What the line loop hashes for the two terminator styles.  For
    a line text [T] (not empty, without NUL or LF, not ending in CR, fitting
    the buffer), reading [T] followed by CR LF gives the primitive the
    [length T + 1] bytes [T ++ [NUL]]: the CR is overwritten with NUL but
    stays inside the hashed length [i - 1].  Reading [T] followed by LF gives
    the primitive the bytes of [T] alone.  The two records carry the digests
    of these two byte strings; the text echoed by [-L] is [T] in both. *)
Theorem crlf_line_hashes_an_extra_nul :
  forall fuel s fp_crlf fp_lf T rest,
    outmode s = 2%Z \/ outmode s = 3%Z ->
    T <> [] -> Forall (fun x => x <> NUL /\ x <> LF) T -> last T NUL <> CR ->
    length T + 2 < BSIZE ->
    pending fp_crlf = T ++ CR :: LF :: rest ->
    ferror fp_crlf = false -> feof fp_crlf = false ->
    pending fp_lf = T ++ LF :: rest ->
    ferror fp_lf = false -> feof fp_lf = false ->
    fst (jody_block_hash (T ++ [NUL]) 0) = 0%Z ->
    fst (jody_block_hash T 0) = 0%Z ->
    (exists s1 fp1,
        line_loop (S fuel) s fp_crlf = line_loop fuel s1 fp1 /\
        pending fp1 = rest /\ stderr s1 = stderr s /\
        stdout s1 =
          stdout s ++ PRINTHASH (snd (jody_block_hash (T ++ [NUL]) 0)) ++
          (if (outmode s =? 3)%Z then lit " '" ++ T ++ lit "'" ++ [LF] else [LF])) /\
    (exists s2 fp2,
        line_loop (S fuel) s fp_lf = line_loop fuel s2 fp2 /\
        pending fp2 = rest /\ stderr s2 = stderr s /\
        stdout s2 =
          stdout s ++ PRINTHASH (snd (jody_block_hash T 0)) ++
          (if (outmode s =? 3)%Z then lit " '" ++ T ++ lit "'" ++ [LF] else [LF])).
Proof.
  clear jody_rolling_block_hash VER VERDATE PATH_MAX NO_AVX2 NO_SSE2 fs.
  intros fuel s fp_crlf fp_lf T rest Hmode HT Hchars Hlast Hlen
         Hp1 Herr1 Heof1 Hp2 Herr2 Heof2 Hrc1 Hrc2.
  assert (Hnul : Forall (fun x => x <> NUL) T)
    by (eapply Forall_impl; [|exact Hchars]; cbn; tauto).
  assert (Hlf : Forall (fun x => x <> LF) T)
    by (eapply Forall_impl; [|exact Hchars]; cbn; tauto).
  assert (Hhd : peek 0 T <> LF)
    by (destruct T as [|x T]; [congruence|]; inversion Hlf; assumption).
  split.
  - cbn [line_loop].
    rewrite (fgets_terminated (blk s) fp_crlf (T ++ [CR]) rest).
    + rewrite store_line, <- !app_assoc. cbn [app negb].
      match goal with
      | |- context [line_body (set_blk (T ++ CR :: LF :: NUL :: ?r) ?s0) ?fp0] =>
          destruct (line_body_cr (set_blk (T ++ CR :: LF :: NUL :: r) s0) fp0 T LF r)
            as (s1 & Hrun & Hctl & Herr' & Hout')
      end; trivial; try discriminate.
      * destruct T as [|x T]; [congruence | exact Hhd].
      * rewrite Hrun. cbn [feof]. rewrite Heof1.
        eexists _, _. split; [reflexivity|]. cbn [pending]. auto.
    + rewrite Hp1, <- app_assoc. reflexivity.
    + apply Forall_app. split; [assumption|].
      constructor; [discriminate|constructor].
    + rewrite length_app. simpl. lia.
  - cbn [line_loop].
    rewrite (fgets_terminated (blk s) fp_lf T rest); trivial; [|lia].
    cbn [negb]. rewrite store_line, <- app_assoc. cbn [app].
    match goal with
    | |- context [line_body (set_blk (T ++ LF :: NUL :: ?r) ?s0) ?fp0] =>
        destruct (line_body_plain (set_blk (T ++ LF :: NUL :: r) s0) fp0 T LF r)
          as (s2 & Hrun & Hctl & Herr' & Hout')
    end; trivial; try discriminate.
    rewrite Hrun. cbn [feof]. rewrite Heof2.
    eexists _, _. split; [reflexivity|]. cbn [pending]. auto.
Qed.

(** C2.  Lines that hold nothing but their terminator.  A line that
    is a lone LF is passed over: no call of the primitive, no record.  A
    line that is CR LF is not: its CR is overwritten with NUL, the primitive
    is given the one byte [NUL], and a record with that digest is printed
    (with an empty quoted text in [-L] mode). *)
Theorem blank_crlf_line_is_hashed :
  forall fuel s fp_lf fp_crlf rest,
    outmode s = 2%Z \/ outmode s = 3%Z ->
    pending fp_lf = LF :: rest -> ferror fp_lf = false ->
    pending fp_crlf = CR :: LF :: rest ->
    ferror fp_crlf = false -> feof fp_crlf = false ->
    fst (jody_block_hash [NUL] 0) = 0%Z ->
    (exists s1 fp1,
        line_loop (S fuel) s fp_lf = line_loop fuel s1 fp1 /\
        pending fp1 = rest /\ stderr s1 = stderr s /\ stdout s1 = stdout s) /\
    (exists s2 fp2,
        line_loop (S fuel) s fp_crlf = line_loop fuel s2 fp2 /\
        pending fp2 = rest /\ stderr s2 = stderr s /\
        stdout s2 =
          stdout s ++ PRINTHASH (snd (jody_block_hash [NUL] 0)) ++
          (if (outmode s =? 3)%Z then lit " '" ++ lit "'" ++ [LF] else [LF])).
Proof.
  clear jody_rolling_block_hash VER VERDATE PATH_MAX NO_AVX2 NO_SSE2 fs.
  intros fuel s fp_lf fp_crlf rest Hmode Hp1 Herr1 Hp2 Herr2 Heof2 Hrc.
  pose proof BSIZE_ge as Hb.
  split.
  - cbn [line_loop].
    rewrite (fgets_terminated (blk s) fp_lf [] rest);
      trivial; [| simpl; lia].
    cbn [negb app]. rewrite line_body_skip; cbn [ferror blk set_blk]; trivial.
    + eexists _, _. split; [reflexivity|]. cbn. auto.
    + unfold store. cbn. lia.
  - cbn [line_loop].
    rewrite (fgets_terminated (blk s) fp_crlf [CR] rest)
      ; trivial; [| constructor; [discriminate|constructor] | simpl; lia].
    cbn [negb app]. rewrite (store_line [CR; LF]). cbn [app].
    match goal with
    | |- context [line_body (set_blk (CR :: LF :: NUL :: ?r) ?s0) ?fp0] =>
        destruct (line_body_cr (set_blk (CR :: LF :: NUL :: r) s0) fp0 [] LF r)
          as (s2 & Hrun & Hctl & Herr' & Hout')
    end; trivial; try discriminate.
    rewrite Hrun. cbn [feof]. rewrite Heof2.
    eexists _, _. split; [reflexivity|]. cbn [pending]. auto.
Qed.

(** ** Every loop returns, and what it leaves alone *)

Lemma frame_refl (s : state) : frame s s.
Proof. unfold frame. repeat split; auto. Qed.

Lemma frame_trans (s1 s2 s3 : state) : frame s1 s2 -> frame s2 s3 -> frame s1 s3.
Proof.
  unfold frame. intros (Hm & Hn & Ha & Hs & Hr) (Hm' & Hn' & Ha' & Hs' & Hr').
  repeat split; try congruence.
  destruct Hr' as [E|E]; [rewrite E; exact Hr | right; exact E].
Qed.

Lemma subblock_loop_returns :
  forall fuel s i kblk,
    i < fuel -> exists s', subblock_loop fuel s i kblk = Some s' /\ frame s s'.
Proof.
  induction fuel as [|fuel IH]; intros s i kblk Hfuel; [lia|].
  cbn [subblock_loop].
  destruct (Nat.eqb_spec i 0) as [->|Hi]; [eauto using frame_refl|].
  match goal with |- context [negb ?c] => destruct c end; cbn [negb].
  - match goal with |- context [subblock_loop fuel ?s1 ?i1 ?k1] =>
      destruct (IH s1 i1 k1) as (s' & Hrun & Hfr)
    end.
    + pose proof kbsize_pos. destruct (kbsize <? i); lia.
    + exists s'. split; [exact Hrun|].
      eapply frame_trans; [|exact Hfr]. unfold frame; cbn; repeat split; auto.
  - eexists. split; [reflexivity|]. unfold frame; cbn; repeat split; auto.
Qed.

Lemma hash_chunk_frame (s : state) (i : nat) : frame s (fst (hash_chunk s i)).
Proof.
  unfold hash_chunk.
  match goal with |- context [negb ?c] => destruct c end;
    unfold frame; cbn; repeat split; auto.
Qed.

Lemma fread_progress (fp : FILE) :
  fst (fread BSIZE fp) <> [] ->
  length (pending (snd (fread BSIZE fp))) < length (pending fp).
Proof.
  pose proof BSIZE_pos. unfold fread.
  destruct (Nat.leb_spec BSIZE (length (pending fp))); cbn [fst snd pending].
  - intros _. rewrite length_skipn. lia.
  - intros Hne. unfold at_ending. destruct (ending_of fp); cbn [pending];
      destruct (pending fp); simpl; congruence || lia.
Qed.

Lemma chunk_loop_returns :
  forall fuel s fp,
    length (pending fp) < fuel ->
    exists s' fp', chunk_loop fuel s fp = Some (s', fp') /\ frame s s'.
Proof.
  induction fuel as [|fuel IH]; intros s fp Hfuel; [lia|].
  cbn [chunk_loop].
  pose proof (fread_progress fp) as Hprog.
  destruct (fread BSIZE fp) as [data fp1]. cbn [fst snd] in Hprog.
  destruct (Nat.eqb_spec (length data) 0) as [E|Hne].
  - eexists _, _. split; [reflexivity|]. unfold frame; cbn; repeat split; auto.
  - assert (Hdata : data <> []) by (intros ->; apply Hne; reflexivity).
    specialize (Hprog Hdata).
    destruct (ferror fp1).
    + eexists _, _. split; [reflexivity|]. unfold frame; cbn; repeat split; auto.
    + cbn [outmode set_blk].
      assert (Hstep : exists s1 b,
                 (if (outmode s =? 5)%Z
                  then option_map (fun s0 => (s0, false))
                         (subblock_loop (S (length data))
                            (set_blk (store data (blk s)) s) (length data) 0)
                  else Some (hash_chunk (set_blk (store data (blk s)) s) (length data)))
                 = Some (s1, b) /\ frame s s1).
      { destruct (outmode s =? 5)%Z.
        - destruct (subblock_loop_returns (S (length data))
                      (set_blk (store data (blk s)) s) (length data) 0)
            as (s1 & Hrun & Hfr); [lia|].
          rewrite Hrun. exists s1, false. split; [reflexivity|].
          eapply frame_trans; [|exact Hfr]. unfold frame; cbn; repeat split; auto.
        - pose proof (hash_chunk_frame (set_blk (store data (blk s)) s) (length data)) as Hfr.
          destruct (hash_chunk (set_blk (store data (blk s)) s) (length data)) as [s1 b].
          exists s1, b. split; [reflexivity|].
          eapply frame_trans; [|exact Hfr]. unfold frame; cbn; repeat split; auto. }
      destruct Hstep as (s1 & b & Hstep & Hfr). rewrite Hstep.
      destruct b; [eauto|].
      destruct (feof fp1); [eauto|].
      destruct (IH s1 fp1) as (s' & fp' & Hrun & Hfr'); [lia|].
      exists s', fp'. split; [exact Hrun|]. eapply frame_trans; eassumption.
Qed.

Lemma take_line_split :
  forall n s l r e,
    take_line n s = (l, r, e) ->
    s = l ++ r /\ (e = true -> r = []) /\ (e = false -> 0 < n -> s <> [] -> l <> []).
Proof.
  induction n as [|n IH]; intros s l r e H; cbn [take_line] in H.
  - inversion H; subst. repeat split; try discriminate. lia.
  - destruct s as [|c s].
    + inversion H; subst. repeat split; auto; discriminate.
    + destruct (Ascii.eqb c LF).
      * inversion H; subst. repeat split; try discriminate.
      * destruct (take_line n s) as [[l' r'] e'] eqn:E. inversion H; subst.
        destruct (IH _ _ _ _ E) as (Hs & He & _).
        repeat split; [rewrite Hs; reflexivity | exact He | discriminate].
Qed.

Lemma fgets_progress (buf : bytes) (fp : FILE) (buf' : bytes) (fp' : FILE) :
  fgets buf BSIZE fp = (true, buf', fp') ->
  length (pending fp') < length (pending fp).
Proof.
  unfold fgets. pose proof BSIZE_ge as Hb.
  destruct (take_line (BSIZE - 1) (pending fp)) as [[l r] e] eqn:E.
  destruct (take_line_split _ _ _ _ _ E) as (Hs & He & Hl).
  destruct e.
  - rewrite (He eq_refl), app_nil_r in Hs.
    unfold at_ending. destruct (ending_of fp); [|discriminate|];
      (destruct l; [discriminate|]; intros H; inversion H; subst;
       rewrite Hs; simpl; lia).
  - intros H. inversion H; subst. cbn [pending].
    destruct (pending fp) as [|c p] eqn:Ep.
    + destruct (BSIZE - 1) eqn:En; [lia|]. discriminate.
    + assert (l <> []) by (apply Hl; (reflexivity || lia || discriminate)).
      rewrite Hs, length_app. destruct l; [congruence|]. simpl. lia.
Qed.

Lemma line_body_frame (s : state) (fp : FILE) : frame s (fst (line_body s fp)).
Proof.
  unfold line_body.
  repeat match goal with
         | |- context [if ?c then _ else _] => destruct c
         end; unfold frame; cbn; repeat split; auto.
Qed.

Lemma line_loop_returns :
  forall fuel s fp,
    length (pending fp) < fuel ->
    exists s' fp', line_loop fuel s fp = Some (s', fp') /\ frame s s'.
Proof.
  induction fuel as [|fuel IH]; intros s fp Hfuel; [lia|].
  cbn [line_loop].
  destruct (fgets (blk s) BSIZE fp) as [[got buf] fp1] eqn:E.
  destruct got; cbn [negb].
  - apply fgets_progress in E.
    pose proof (line_body_frame (set_blk buf s) fp1) as Hfr.
    destruct (line_body (set_blk buf s) fp1) as [s1 b]. cbn [fst] in Hfr.
    assert (Hfr1 : frame s s1)
      by (eapply frame_trans; [|exact Hfr]; unfold frame; cbn; repeat split; auto).
    destruct b; [eauto|].
    destruct (IH s1 fp1) as (s' & fp' & Hrun & Hfr'); [lia|].
    exists s', fp'. split; [exact Hrun|]. eapply frame_trans; eassumption.
  - eexists _, _. split; [reflexivity|]. unfold frame; cbn; repeat split; auto.
Qed.

(** In Line mode one input is the line loop, with fuel to spare. *)
Lemma hash_stream_line_mode (s : state) (fp : FILE) :
  outmode s = 2%Z \/ outmode s = 3%Z ->
  hash_stream s fp = line_loop (S (length (pending fp))) s fp.
Proof.
  intros [E|E]; unfold hash_stream; rewrite E; reflexivity.
Qed.

(** One input is always processed to its end: the fuel of [hash_stream]
    never runs out.  Outside Line mode [read_err] is 0 afterwards when it
    was 0 before. *)
Lemma hash_stream_returns (s : state) (fp : FILE) :
  exists s' fp',
    hash_stream s fp = Some (s', fp') /\
    outmode s' = outmode s /\ name s' = name s /\ argnum s' = argnum s /\
    stdin s' = stdin s /\
    (outmode s <> 2%Z -> outmode s <> 3%Z -> read_err s = 0%Z -> read_err s' = 0%Z).
Proof.
  unfold hash_stream.
  destruct ((outmode s =? 2)%Z || (outmode s =? 3)%Z) eqn:Hmode.
  - destruct (line_loop_returns (S (length (pending fp))) s fp)
      as (s' & fp' & Hrun & Hm & Hn & Ha & Hs & _); [lia|].
    exists s', fp'. split; [exact Hrun|]. repeat split; trivial.
    apply orb_true_iff in Hmode. intros H2 H3.
    destruct Hmode as [E|E]; apply Z.eqb_eq in E; contradiction.
  - destruct (chunk_loop_returns (S (length (pending fp))) s fp)
      as (s' & fp' & Hrun & Hm & Hn & Ha & Hs & Hr); [lia|].
    rewrite Hrun.
    destruct (Z.eqb_spec (read_err s') 1) as [E1|E1].
    + eexists _, _. split; [reflexivity|]. cbn. auto.
    + eexists _, _. split; [reflexivity|].
      repeat match goal with
             | |- context [if ?c then _ else _] => destruct c
             end; cbn; repeat split; trivial;
        intros _ _ H0; destruct Hr as [E|E]; congruence.
Qed.

(** An iteration of the [do] loop is defined whenever its input is, and
    moves to the next argument. *)
Lemma do_body_returns (argv : list bytes) (s : state) :
  open_input argv s <> None ->
  exists s',
    do_body argv s = Some s' /\
    outmode s' = outmode s /\ argnum s' = S (argnum s) /\
    (outmode s <> 2%Z -> outmode s <> 3%Z -> read_err s = 0%Z -> read_err s' = 0%Z).
Proof.
  intros Hopen. unfold do_body. rewrite open_input_set_hash.
  destruct (open_input argv s) as [[[display [fp|]] is_stdin]|]; [| |congruence].
  - destruct (hash_stream_returns (set_name display (set_hash 0 s)) fp)
      as (s' & fp' & Hrun & Hm & _ & Ha & _ & Hr).
    rewrite Hrun. eexists. split; [reflexivity|].
    cbn [outmode argnum read_err set_name set_hash] in *.
    destruct is_stdin; cbn; rewrite ?Ha; auto.
  - eexists. split; [reflexivity|]. cbn. auto.
Qed.

(** An argument that cannot be opened: the message, the failure status,
    and on to the next argument. *)
Lemma cannot_open_is_reported (argv : list bytes) (s : state)
      (display : bytes) (is_stdin : bool) :
  open_input argv s = Some (display, None, is_stdin) ->
  exists s',
    do_body argv s = Some s' /\
    stderr s' = stderr s ++ lit "error: cannot open: " ++ display ++ [LF] /\
    stdout s' = stdout s /\ error s' = EXIT_FAILURE /\
    argnum s' = S (argnum s).
Proof.
  intros Hopen. unfold do_body. rewrite open_input_set_hash, Hopen.
  eexists. split; [reflexivity|]. cbn. rewrite <- app_assoc. auto.
Qed.

(** A read fault that comes with data, in the modes of the chunk loop: no
    digest for this input, the display name on the diagnostic stream, the
    failure status, and on to the next argument. *)
Lemma read_fault_with_data_is_reported (argv : list bytes) (s : state)
      (display : bytes) (is_stdin : bool) (data : bytes) :
  outmode s <> 2%Z -> outmode s <> 3%Z ->
  open_input argv s
    = Some (display, Some (fresh_stream (data, ReadFault)), is_stdin) ->
  data <> [] -> length data < BSIZE ->
  exists s',
    do_body argv s = Some s' /\
    stdout s' = stdout s /\ stderr s' = stderr s ++ display ++ [LF] /\
    error s' = EXIT_FAILURE /\ argnum s' = S (argnum s).
Proof.
  intros H2 H3 Hopen Hne Hlen. unfold do_body.
  rewrite open_input_set_hash, Hopen. unfold hash_stream.
  cbn [outmode set_name set_hash].
  apply Z.eqb_neq in H2, H3. rewrite H2, H3. cbn [orb].
  change (fresh_stream (data, ReadFault)) with (mkFILE data ReadFault false false).
  cbn [pending chunk_loop].
  rewrite fread_short by assumption. cbn [pending].
  destruct (Nat.eqb_spec (length data) 0) as [E|_];
    [apply length_zero_iff_nil in E; contradiction|].
  cbn [at_ending ending_of ferror read_err set_read_err Z.eqb Pos.eqb].
  eexists. split; [reflexivity|].
  destruct is_stdin; cbn; auto.
Qed.

Lemma streq_eq (a b : bytes) : streq a b = true <-> a = b.
Proof.
  revert b. induction a as [|x a IH]; intros [|y b]; cbn [streq];
    try (split; (discriminate || reflexivity)).
  rewrite andb_true_iff, IH, Ascii.eqb_eq.
  split; [intros [-> ->]; reflexivity | intros H; inversion H; auto].
Qed.

Lemma do_loop_returns (argv : list bytes) :
  Forall (fun a => a <> lit "-") (tl argv) ->
  forall fuel s,
    0 < fuel -> length argv < fuel + argnum s -> 1 <= argnum s ->
    argnum s < length argv \/ (length argv = 1 /\ stdin s <> None) ->
    exists s', do_loop fuel argv s = Some s'.
Proof.
  intros Hargs. induction fuel as [|fuel IH]; intros s Hpos Hfuel Hnum Hin; [lia|].
  cbn [do_loop].
  destruct (do_body_returns argv s) as (s1 & Hrun & _ & Ha & _).
  - unfold open_input. destruct (Nat.eqb_spec (length argv) 1) as [E|E].
    + destruct Hin as [Hin|[_ Hs]]; [lia|]. destruct (stdin s); congruence.
    + destruct Hin as [Hin|[E' _]]; [|contradiction].
      destruct (nth_error argv (argnum s)) as [path|] eqn:Hp;
        [|apply nth_error_None in Hp; lia].
      destruct (streq (lit "-") path) eqn:Hs; [|discriminate].
      apply streq_eq in Hs. subst path. exfalso.
      destruct argv as [|prog args]; [cbn in Hin; lia|].
      destruct (argnum s) as [|k]; [lia|]. cbn [nth_error tl] in *.
      apply nth_error_In in Hp. rewrite Forall_forall in Hargs.
      exact (Hargs _ Hp eq_refl).
  - rewrite Hrun. destruct (Nat.ltb_spec (argnum s1) (length argv)); [|eauto].
    apply IH; [lia | lia | lia | left; assumption].
Qed.

(** [main] returns for every command line that has a program name and
    does not name [-] among its arguments (and for the bare program name,
    which reads [stdin] once): the fuel of the model never runs out, and
    only undefined behaviour is left without a result. *)
Lemma main_returns (argv : list bytes) (input : FILE) :
  argv <> [] -> Forall (fun a => a <> lit "-") (tl argv) ->
  exists r, main argv input = Some r.
Proof.
  intros Hne Hargs. unfold main.
  repeat match goal with
         | |- context [if ?c then _ else _] => destruct c; [eauto|]
         end.
  destruct (do_loop_returns argv Hargs (S (length argv))
              (process_options argv (initial_state input))) as (s' & Hrun).
  - lia.
  - assert (1 <= argnum (process_options argv (initial_state input)));
      [|lia].
    unfold process_options.
    repeat match goal with
           | |- context [if ?c then _ else _] => destruct c
           end; cbn; lia.
  - unfold process_options.
    repeat match goal with
           | |- context [if ?c then _ else _] => destruct c
           end; cbn; lia.
  - unfold process_options.
    destruct (Nat.ltb_spec 2 (length argv)) as [H2|H2].
    + left.
      repeat match goal with
             | |- context [if ?c then _ else _] => destruct c
             end; cbn; lia.
    + cbn [argnum stdin initial_state].
      destruct argv as [|a [|b [|c l]]]; cbn [length] in *;
        [congruence | right; split; [reflexivity|discriminate] | left; lia | lia].
  - rewrite Hrun. eauto.
Qed.

Lemma streq_neq (a b : bytes) : a <> b -> streq a b = false.
Proof.
  intros H. destruct (streq a b) eqn:E; [|reflexivity].
  apply streq_eq in E. contradiction.
Qed.

Lemma do_loop_step (fuel : nat) (argv : list bytes) (s s1 : state) :
  do_body argv s = Some s1 ->
  do_loop (S fuel) argv s =
    if argnum s1 <? length argv then do_loop fuel argv s1 else Some s1.
Proof. intros H. cbn [do_loop]. rewrite H. reflexivity. Qed.

(** The scenario of two arguments, the first of which cannot be opened and
    the second of which is read and hashed without failure: exactly one
    digest line on the standard output, for the second input; one
    [cannot open] message, followed by the second input's chunk notices, on
    the diagnostic stream; exit status [EXIT_FAILURE]. *)
Lemma cannot_open_then_valid_input :
  forall prog missing valid input data h,
    ~ In missing (map lit ["-v"; "-h"; "--help"; "-s"; "-b"; "-l"; "-L"; "-n";
                           "-B"; "-r"; "--"; "-"]%string) ->
    valid <> lit "-" ->
    fs missing = None -> fs valid = Some (data, EndOfFile) ->
    fold_hash jody_block_hash (blocks BSIZE data) 0 = Some h ->
    report (main [prog; missing; valid] input)
    = Some (EXIT_FAILURE, digest_line h,
            lit "error: cannot open: " ++ strncpy missing PATH_MAX ++ [LF]
            ++ concat (map notice (blocks BSIZE data))).
Proof.
  intros prog missing valid input data h Hflag Hvalid Hmiss Hfile Hfold.
  cbn [map In] in Hflag.
  assert (Hno : forall f, In f ["-v"; "-h"; "--help"; "-s"; "-b"; "-l"; "-L";
                                "-n"; "-B"; "-r"; "--"; "-"]%string ->
                          streq (lit f) missing = false).
  { intros f Hf. apply streq_neq. intros E. apply Hflag.
    cbn [In] in Hf. intuition (subst; auto 20). }
  set (argv := [prog; missing; valid]).
  set (s0 := initial_state input).
  assert (Hopt : process_options argv s0 = s0).
  { unfold process_options, argv. cbn [length nth Nat.ltb Nat.leb].
    rewrite !Hno by (cbn [In]; auto 20). reflexivity. }
  set (s1 := set_argnum 2 (set_error EXIT_FAILURE
               (ERR (strncpy missing PATH_MAX)
                  (eprintf (lit "error: cannot open: ")
                     (set_name (strncpy missing PATH_MAX) (set_hash 0 s0)))))).
  assert (Hb1 : do_body argv s0 = Some s1).
  { unfold do_body. rewrite open_input_set_hash.
    unfold open_input, argv. cbn [length Nat.eqb argnum s0 initial_state nth_error].
    rewrite Hno by (cbn [In]; auto 20). unfold fopen. rewrite Hmiss. reflexivity. }
  destruct (do_body_whole argv s1 (strncpy valid PATH_MAX) false data EndOfFile h)
    as (s2 & Hb2 & Hout & Herr & He & Ha).
  - left. reflexivity.
  - reflexivity.
  - unfold open_input, argv. cbn [length Nat.eqb argnum s1 set_argnum nth_error].
    rewrite streq_neq by congruence. unfold fopen. rewrite Hfile. reflexivity.
  - congruence.
  - exact Hfold.
  - unfold main. fold argv. fold s0. change (length argv) with 3.
    replace (nth 1 argv []) with missing by reflexivity.
    rewrite !Hno by (cbn [In]; auto 20). rewrite !andb_false_r. cbn [orb].
    rewrite Hopt, (do_loop_step _ _ _ _ Hb1).
    change (length argv) with 3.
    replace (argnum s1 <? 3) with true by reflexivity.
    rewrite (do_loop_step _ _ _ _ Hb2), Ha. change (length argv) with 3.
    replace (S (argnum s1) <? 3) with false by reflexivity.
    unfold report. cbn [option_map fst snd].
    rewrite Hout, Herr, He. unfold digest_line.
    cbn [s1 s0 error stdout stderr set_argnum set_error ERR eprintf set_name
         set_hash initial_state app].
    rewrite <- !app_assoc. reflexivity.
Qed.

(** X14.  A single argument is a file name.  Options are processed only
    when there are more than two words on the command line (line 182), so
    in [jodyhash <path>] the argument names a file also when it is spelled
    like a mode option such as [-b] or [-l]: Whole-file mode on that input.
    When its reads meet no fault while data is delivered: one digest line,
    the digest folded over the chunks from zero; one notice per chunk; exit
    status 0. *)
Lemma single_argument_run :
  forall prog path input data e h,
    ~ In path (map lit ["-v"; "-h"; "--help"; "-"]%string) ->
    fs path = Some (data, e) ->
    (e <> EndOfFile -> exists m, length data = BSIZE * m) ->
    fold_hash jody_block_hash (blocks BSIZE data) 0 = Some h ->
    report (main [prog; path] input)
    = Some (EXIT_SUCCESS, digest_line h, concat (map notice (blocks BSIZE data))).
Proof.
  intros prog path input data e h Hflag Hfile Hend Hfold.
  cbn [map In] in Hflag.
  assert (Hno : forall f, In f ["-v"; "-h"; "--help"; "-"]%string ->
                          streq (lit f) path = false).
  { intros f Hf. apply streq_neq. intros E. apply Hflag.
    cbn [In] in Hf. intuition (subst; auto 10). }
  set (argv := [prog; path]).
  set (s0 := initial_state input).
  destruct (do_body_whole argv s0 (strncpy path PATH_MAX) false data e h)
    as (s1 & Hb1 & Hout & Herr & He & Ha).
  - left. reflexivity.
  - reflexivity.
  - unfold open_input, argv. cbn [length Nat.eqb argnum s0 initial_state nth_error].
    rewrite Hno by (cbn [In]; auto 10). unfold fopen. rewrite Hfile. reflexivity.
  - exact Hend.
  - exact Hfold.
  - unfold main. fold argv. fold s0. change (length argv) with 2.
    replace (nth 1 argv []) with path by reflexivity.
    rewrite !Hno by (cbn [In]; auto 10). rewrite !andb_false_r. cbn [orb].
    replace (process_options argv s0) with s0 by reflexivity.
    rewrite (do_loop_step _ _ _ _ Hb1), Ha. change (length argv) with 2.
    replace (S (argnum s0) <? 2) with false by reflexivity.
    unfold report. cbn [option_map fst snd].
    rewrite Hout, Herr, He. reflexivity.
Qed.

(** ** Line mode on a whole text *)

Lemma plain_line_parts (l : bytes) :
  plain_line l ->
  Forall (fun x => x <> NUL) l /\ Forall (fun x => x <> LF) l /\
  last l NUL <> CR /\ length l + 2 < BSIZE.
Proof.
  clear JODY_HASH_WIDTH jody_block_hash jody_rolling_block_hash VER VERDATE
        PATH_MAX NO_AVX2 NO_SSE2 fs.
  intros (Hc & Hl & Hn). repeat split; trivial;
    (eapply Forall_impl; [|exact Hc]; cbn; tauto).
Qed.

(** As [line_body_plain], when the primitive fails on [T]. *)
Lemma line_body_plain_fails (s : state) (fp : FILE) (T : bytes) (c : ascii)
      (rest : bytes) :
  ferror fp = false ->
  blk s = T ++ c :: NUL :: rest ->
  T <> [] -> Forall (fun x => x <> NUL) T -> c <> NUL ->
  peek 0 T <> LF -> last T NUL <> CR ->
  fst (jody_block_hash T 0) <> 0%Z ->
  exists s',
    line_body s fp = (s', true) /\ stdout s' = stdout s /\
    stderr s' = stderr s ++ lit "error hashing file: " ++ name s ++ [LF] /\
    error s' = EXIT_FAILURE /\ outmode s' = outmode s /\ name s' = name s /\
    argnum s' = argnum s /\ stdin s' = stdin s.
Proof.
  clear jody_rolling_block_hash VER VERDATE PATH_MAX NO_AVX2 NO_SSE2 fs.
  intros Herr Hblk HT Hnul Hc Hfirst Hlast Hrc.
  unfold line_body. rewrite Herr. cbn [blk set_hash]. rewrite Hblk.
  assert (Hi : strlen (T ++ c :: NUL :: rest) = S (length T)).
  { change (T ++ c :: NUL :: rest) with (T ++ [c] ++ NUL :: rest).
    rewrite app_assoc, strlen_line, length_app.
    - simpl. lia.
    - apply Forall_app. split; [assumption|]. constructor; [assumption|constructor]. }
  rewrite Hi.
  destruct (exists_last HT) as (T' & d & ->).
  rewrite last_last in Hlast.
  assert (Hlen2 : (S (length (T' ++ [d])) <? 2) = false)
    by (apply Nat.ltb_ge; rewrite length_app; simpl; lia).
  rewrite Hlen2.
  assert (Hfirst' : peek 0 ((T' ++ [d]) ++ c :: NUL :: rest) = peek 0 (T' ++ [d]))
    by (destruct T'; reflexivity).
  rewrite Hfirst'.
  destruct (Ascii.eqb_spec (peek 0 (T' ++ [d])) LF) as [E|_]; [contradiction|].
  cbn [orb].
  replace (S (length (T' ++ [d])) - 2) with (length T')
    by (rewrite length_app; simpl; lia).
  replace (S (length (T' ++ [d])) - 1) with (length (T' ++ [d])) by lia.
  replace (peek (length T') ((T' ++ [d]) ++ c :: NUL :: rest)) with d
    by (rewrite <- app_assoc; cbn [app]; rewrite peek_middle; reflexivity).
  destruct (Ascii.eqb_spec d CR) as [E|_]; [contradiction|].
  cbn [blk set_blk hash set_hash].
  rewrite poke_middle, firstn_exact.
  apply Z.eqb_neq in Hrc. rewrite Hrc. cbn [negb].
  eexists. split; [reflexivity|].
  cbn. rewrite <- !app_assoc. repeat split; reflexivity.
Qed.

Lemma line_loop_records :
  forall lines fuel s fp,
    pending fp = text_of_lines lines ->
    ending_of fp = EndOfFile -> ferror fp = false -> feof fp = false ->
    length (pending fp) < fuel ->
    Forall plain_line lines ->
    Forall (fun l => l <> [] -> fst (jody_block_hash l 0) = 0%Z) lines ->
    exists s' fp',
      line_loop fuel s fp = Some (s', fp') /\ same_control s s' /\
      stderr s' = stderr s /\
      stdout s' = stdout s ++ concat (map (line_record (outmode s)) lines).
Proof.
  clear jody_rolling_block_hash VER VERDATE PATH_MAX NO_AVX2 NO_SSE2 fs.
  induction lines as [|l lines IH];
    intros fuel s fp Hp Hend Herr Heof Hfuel Hplain Hok;
    (destruct fuel as [|fuel]; [lia|]); cbn [line_loop].
  - rewrite fgets_exhausted by assumption. cbn [negb].
    eexists _, _. split; [reflexivity|]. split; [repeat split|].
    cbn. rewrite app_nil_r. auto.
  - inversion Hplain as [|? ? Hl Hplain']; subst.
    inversion Hok as [|? ? Hrc Hok']; subst.
    destruct (plain_line_parts l Hl) as (Hnul & Hlf & Hlast & Hlen).
    assert (Hp' : pending fp = l ++ LF :: text_of_lines lines).
    { rewrite Hp. unfold text_of_lines. cbn [map concat].
      rewrite <- app_assoc. reflexivity. }
    rewrite (fgets_terminated (blk s) fp l (text_of_lines lines) Hp' Hlf) by lia.
    cbn [negb]. rewrite store_line, <- app_assoc. cbn [app].
    assert (Hfuel' : length (text_of_lines lines) < fuel).
    { rewrite Hp', length_app in Hfuel. cbn [length] in Hfuel. lia. }
    destruct l as [|x l].
    + (* an empty line *)
      rewrite line_body_skip; cbn [ferror blk set_blk app strlen]; trivial;
        [|destruct (Ascii.eqb LF NUL); cbn; lia].
      match goal with |- context [line_loop fuel ?s1 ?fp1] =>
        destruct (IH fuel s1 fp1) as (s' & fp' & Hrun & Hctl & Herr' & Hout')
      end; trivial.
      exists s', fp'. split; [exact Hrun|].
      split; [eapply same_control_trans; [|exact Hctl]; repeat split|].
      split; [rewrite Herr'; reflexivity|].
      rewrite Hout'. reflexivity.
    + (* a line with text *)
      match goal with
      | |- context [line_body (set_blk ((x :: l) ++ LF :: NUL :: ?r) ?s0) ?fp0] =>
          destruct (line_body_plain (set_blk ((x :: l) ++ LF :: NUL :: r) s0) fp0
                      (x :: l) LF r)
            as (s1 & Hrun1 & Hctl1 & Herr1 & Hout1)
      end; trivial; try discriminate.
      * inversion Hlf; assumption.
      * apply Hrc. discriminate.
      * rewrite Hrun1. cbn [feof]. rewrite Heof.
        destruct (IH fuel s1 (mkFILE (text_of_lines lines) (ending_of fp) false
                                     (ferror fp)))
          as (s' & fp' & Hrun & Hctl & Herr' & Hout'); trivial.
        exists s', fp'. split; [exact Hrun|].
        split; [eapply same_control_trans; [|exact Hctl]; exact Hctl1|].
        split; [rewrite Herr', Herr1; reflexivity|].
        rewrite Hout', Hout1. destruct Hctl1 as (_ & _ & _ & Hm & _).
        rewrite Hm. cbn [stdout outmode set_blk map concat line_record].
        rewrite <- !app_assoc. reflexivity.
Qed.

(** X1.  Line mode ([-l], [-L]) on a text of LF-terminated lines (no NUL,
    no CR before the LF, each line fitting the buffer): the standard output
    gains one record per line that has text, in the order of the lines, the
    digest of each being the primitive's result on that line's text alone,
    from a zero digest; lines without text give nothing.  Nothing is written
    to the diagnostic stream and the exit status is unchanged. *)
Theorem line_mode_records :
  forall argv s display is_stdin lines,
    outmode s = 2%Z \/ outmode s = 3%Z ->
    open_input argv s
      = Some (display, Some (fresh_stream (text_of_lines lines, EndOfFile)),
              is_stdin) ->
    Forall plain_line lines ->
    Forall (fun l => l <> [] -> fst (jody_block_hash l 0) = 0%Z) lines ->
    exists s',
      do_body argv s = Some s' /\
      stdout s' = stdout s ++ concat (map (line_record (outmode s)) lines) /\
      stderr s' = stderr s /\ error s' = error s.
Proof.
  clear VER VERDATE NO_AVX2 NO_SSE2.
  intros argv s display is_stdin lines Hmode Hopen Hplain Hok.
  unfold do_body. rewrite open_input_set_hash, Hopen.
  rewrite hash_stream_line_mode by exact Hmode.
  destruct (line_loop_records lines
              (S (length (pending (fresh_stream (text_of_lines lines, EndOfFile)))))
              (set_name display (set_hash 0 s))
              (fresh_stream (text_of_lines lines, EndOfFile)))
    as (s1 & fp1 & Hrun & Hctl & Herr & Hout); trivial; [lia|].
  rewrite Hrun. destruct Hctl as (He & _).
  eexists. split; [reflexivity|].
  destruct is_stdin; cbn [close_file stdout stderr error set_argnum set_stdin];
    rewrite Hout, Herr, He; auto.
Qed.

(** X2.  A line on whose text the primitive fails ends Line mode for its
    input: no record for the line, the message [error hashing file: <name>],
    the failure status, and the lines after it are left unread. *)
Theorem line_hash_failure_ends_input :
  forall fuel s fp T rest,
    outmode s = 2%Z \/ outmode s = 3%Z ->
    pending fp = T ++ LF :: rest -> ferror fp = false ->
    T <> [] -> plain_line T ->
    fst (jody_block_hash T 0) <> 0%Z ->
    exists s' fp',
      line_loop (S fuel) s fp = Some (s', fp') /\ pending fp' = rest /\
      stdout s' = stdout s /\
      stderr s' = stderr s ++ lit "error hashing file: " ++ name s ++ [LF] /\
      error s' = EXIT_FAILURE.
Proof.
  clear jody_rolling_block_hash VER VERDATE PATH_MAX NO_AVX2 NO_SSE2 fs.
  intros fuel s fp T rest Hmode Hp Herr HT Hplain Hrc.
  destruct (plain_line_parts T Hplain) as (Hnul & Hlf & Hlast & Hlen).
  cbn [line_loop].
  rewrite (fgets_terminated (blk s) fp T rest Hp Hlf) by lia.
  cbn [negb]. rewrite store_line, <- app_assoc. cbn [app].
  match goal with
  | |- context [line_body (set_blk (T ++ LF :: NUL :: ?r) ?s0) ?fp0] =>
      destruct (line_body_plain_fails (set_blk (T ++ LF :: NUL :: r) s0) fp0 T LF r)
        as (s1 & Hrun & Hout & Herr' & He & _)
  end; trivial; try discriminate.
  - destruct T as [|x T]; [congruence|]. inversion Hlf; assumption.
  - rewrite Hrun. eexists _, _. split; [reflexivity|]. cbn [pending]. auto.
Qed.

(** ** SubBlock mode when the primitive may fail *)

Lemma subblock_loop_general :
  forall fuel s i kblk,
    i < fuel ->
    length (firstn i (skipn (kblk * kbsize) (blk s))) = i ->
    exists s',
      subblock_loop fuel s i kblk = Some s' /\
      outmode s' = outmode s /\ name s' = name s /\ argnum s' = argnum s /\
      stdin s' = stdin s /\ blk s' = blk s /\
      stdout s' =
        stdout s ++
        subblock_records (blocks kbsize (firstn i (skipn (kblk * kbsize) (blk s)))) /\
      (forallb (fun b => (fst (jody_block_hash b 0) =? 0)%Z)
               (blocks kbsize (firstn i (skipn (kblk * kbsize) (blk s)))) = true ->
       stderr s' = stderr s /\ error s' = error s /\ read_err s' = read_err s) /\
      (forallb (fun b => (fst (jody_block_hash b 0) =? 0)%Z)
               (blocks kbsize (firstn i (skipn (kblk * kbsize) (blk s)))) = false ->
       stderr s' = stderr s ++ lit "error hashing file: " ++ name s ++ [LF] /\
       error s' = EXIT_FAILURE /\ read_err s' = 1%Z).
Proof.
  clear jody_rolling_block_hash VER VERDATE PATH_MAX NO_AVX2 NO_SSE2 fs.
  induction fuel as [|fuel IH]; intros s i kblk Hfuel Hlen; [lia|].
  cbn [subblock_loop].
  destruct (Nat.eqb_spec i 0) as [->|Hi].
  - exists s. rewrite firstn_0, blocks_nil. cbn [subblock_records forallb].
    rewrite app_nil_r. repeat split; auto; discriminate.
  - set (region := firstn i (skipn (kblk * kbsize) (blk s))) in *.
    set (kbdrop := if kbsize <? i then kbsize else i).
    assert (Hdrop : kbdrop = Nat.min kbsize i)
      by (unfold kbdrop; destruct (Nat.ltb_spec kbsize i); lia).
    assert (Hne : region <> []) by (intros E; rewrite E in Hlen; simpl in Hlen; lia).
    rewrite elements_kboffsize. cbn [blk set_hash hash].
    assert (Hdata : firstn kbdrop (skipn (kblk * kbsize) (blk s)) = firstn kbsize region)
      by (unfold region; rewrite firstn_firstn, Hdrop; reflexivity).
    rewrite Hdata.
    rewrite (blocks_step kbsize region kbsize_pos Hne).
    cbn [subblock_records forallb].
    destruct (fst (jody_block_hash (firstn kbsize region) 0) =? 0)%Z eqn:Hrc;
      cbn [negb andb].
    + assert (Hrest : firstn (i - kbdrop) (skipn (S kblk * kbsize) (blk s))
                      = skipn kbsize region).
      { unfold region. rewrite skipn_firstn_comm, skipn_skipn.
        cbn [Nat.mul]. f_equal. pose proof kbsize_pos. lia. }
      pose proof kbsize_pos as Hkb.
      match goal with |- context [subblock_loop fuel ?s1 ?i1 ?k1] =>
        destruct (IH s1 i1 k1)
          as (s' & Hrun & Hm & Hn & Ha & Hs & Hblk & Hout & Hok & Hbad)
      end.
      * lia.
      * cbn [blk printf set_hash]. rewrite Hrest, length_skipn, Hlen. lia.
      * cbn [blk outmode name argnum stdin stdout stderr error read_err
             printf set_hash] in Hm, Hn, Ha, Hs, Hblk, Hout, Hok, Hbad.
        rewrite Hrest in Hout, Hok, Hbad.
        exists s'. split; [exact Hrun|].
        split; [exact Hm|]. split; [exact Hn|]. split; [exact Ha|].
        split; [exact Hs|]. split; [exact Hblk|].
        split; [|split; assumption].
        rewrite Hout. unfold digest_line.
        rewrite <- !app_assoc. reflexivity.
    + eexists. split; [reflexivity|].
      cbn. rewrite app_nil_r, <- !app_assoc.
      repeat split; trivial; discriminate.
Qed.

Lemma chunk_loop_subblocks_general :
  forall fuel s fp,
    length (pending fp) < fuel ->
    ending_of fp = EndOfFile -> ferror fp = false -> feof fp = false ->
    outmode s = 5%Z ->
    exists s' fp',
      chunk_loop fuel s fp = Some (s', fp') /\
      outmode s' = outmode s /\ name s' = name s /\ argnum s' = argnum s /\
      stdin s' = stdin s /\
      stdout s' =
        stdout s ++
        concat (map (fun c => subblock_records (blocks kbsize c))
                    (blocks BSIZE (pending fp))) /\
      stderr s' =
        stderr s ++
        concat (map (fun c => if chunk_accepted c then []
                              else lit "error hashing file: " ++ name s ++ [LF])
                    (blocks BSIZE (pending fp))) /\
      error s' = (if forallb chunk_accepted (blocks BSIZE (pending fp))
                  then error s else EXIT_FAILURE) /\
      read_err s' = (if forallb chunk_accepted (blocks BSIZE (pending fp))
                     then read_err s else 1%Z).
Proof.
  clear VER VERDATE PATH_MAX NO_AVX2 NO_SSE2 fs.
  induction fuel as [|fuel IH]; intros s fp Hfuel Hend Herr Heof Hmode; [lia|].
  cbn [chunk_loop]. pose proof BSIZE_pos as Hpos.
  assert (Hchunk : forall data fp1,
             data <> [] -> ferror fp1 = false ->
             exists s1,
               (if length data =? 0 then Some (set_blk (store data (blk s)) s, fp1)
                else if ferror fp1
                then Some (set_read_err 1 (set_error EXIT_FAILURE
                             (ERR (name (set_blk (store data (blk s)) s))
                                  (set_blk (store data (blk s)) s))), fp1)
                else
                  match
                    (if (outmode (set_blk (store data (blk s)) s) =? 5)%Z
                     then option_map (fun s0 => (s0, false))
                            (subblock_loop (S (length data))
                               (set_blk (store data (blk s)) s) (length data) 0)
                     else Some (hash_chunk (set_blk (store data (blk s)) s) (length data)))
                  with
                  | None => None
                  | Some (s0, true) => Some (s0, fp1)
                  | Some (s0, false) =>
                      if feof fp1 then Some (s0, fp1) else chunk_loop fuel s0 fp1
                  end)
               = (if feof fp1 then Some (s1, fp1) else chunk_loop fuel s1 fp1) /\
               outmode s1 = outmode s /\ name s1 = name s /\ argnum s1 = argnum s /\
               stdin s1 = stdin s /\
               stdout s1 = stdout s ++ subblock_records (blocks kbsize data) /\
               stderr s1 = stderr s ++
                           (if chunk_accepted data then []
                            else lit "error hashing file: " ++ name s ++ [LF]) /\
               error s1 = (if chunk_accepted data then error s else EXIT_FAILURE) /\
               read_err s1 = (if chunk_accepted data then read_err s else 1%Z)).
  { intros data fp1 Hdata Herr1.
    destruct (Nat.eqb_spec (length data) 0) as [E|_];
      [apply length_zero_iff_nil in E; contradiction|].
    rewrite Herr1. cbn [outmode set_blk]. rewrite Hmode. cbn [Z.eqb Pos.eqb].
    destruct (subblock_loop_general (S (length data))
                (set_blk (store data (blk s)) s) (length data) 0)
      as (s1 & Hrun & Hm & Hn & Ha & Hs & _ & Hout & Hok & Hbad).
    - lia.
    - cbn [blk set_blk]. rewrite region_of_store. reflexivity.
    - cbn [blk set_blk outmode name argnum stdin stdout stderr error read_err]
        in Hm, Hn, Ha, Hs, Hout, Hok, Hbad.
      rewrite region_of_store in Hout, Hok, Hbad.
      rewrite Hrun. cbn [option_map]. exists s1. split; [reflexivity|].
      unfold chunk_accepted.
      destruct (forallb _ (blocks kbsize data)) eqn:Hall.
      + destruct (Hok eq_refl) as (E1 & E2 & E3).
        rewrite app_nil_r. repeat split; congruence.
      + destruct (Hbad eq_refl) as (E1 & E2 & E3). repeat split; congruence. }
  destruct (Nat.leb_spec BSIZE (length (pending fp))) as [Hfull|Hshort].
  - rewrite fread_full by assumption.
    set (data := firstn BSIZE (pending fp)) in *.
    assert (Hlen : length data = BSIZE) by (unfold data; rewrite length_firstn; lia).
    assert (Hne : pending fp <> []) by (intros E; rewrite E in Hfull; simpl in Hfull; lia).
    assert (Hdata : data <> []) by (intros E; rewrite E in Hlen; simpl in Hlen; lia).
    rewrite (blocks_step BSIZE _ Hpos Hne). fold data.
    destruct (Hchunk data (mkFILE (skipn BSIZE (pending fp)) (ending_of fp)
                                  (feof fp) (ferror fp)) Hdata Herr)
      as (s1 & Hstep & Hm & Hn & Ha & Hs & Hout & Herr1 & He & Hr).
    rewrite Hstep. cbn [feof]. rewrite Heof.
    destruct (IH s1 (mkFILE (skipn BSIZE (pending fp)) (ending_of fp)
                            (feof fp) (ferror fp)))
      as (s' & fp' & Hrun & Hm' & Hn' & Ha' & Hs' & Hout' & Herr' & He' & Hr');
      cbn [pending ending_of feof ferror]; trivial.
    + rewrite length_skipn. lia.
    + congruence.
    + cbn [pending] in *. rewrite Heof in Hrun.
      exists s', fp'. split; [exact Hrun|].
      cbn [map concat forallb].
      repeat split; try congruence.
      * rewrite Hout', Hout, <- app_assoc. reflexivity.
      * rewrite Herr', Herr1, Hn, <- app_assoc. reflexivity.
      * rewrite He', He.
        destruct (chunk_accepted data), (forallb chunk_accepted _); reflexivity.
      * rewrite Hr', Hr.
        destruct (chunk_accepted data), (forallb chunk_accepted _); reflexivity.
  - rewrite fread_short by assumption.
    destruct (Nat.eqb_spec (length (pending fp)) 0) as [E|Hne].
    + apply length_zero_iff_nil in E. rewrite E.
      eexists _, _. split; [reflexivity|].
      rewrite blocks_nil. cbn. rewrite !app_nil_r. repeat split.
    + assert (Hne' : pending fp <> [])
        by (intros E; rewrite E in Hne; simpl in Hne; lia).
      rewrite (blocks_short BSIZE _ Hne') by lia.
      destruct (Hchunk (pending fp) (at_ending fp) Hne')
        as (s1 & Hstep & Hm & Hn & Ha & Hs & Hout & Herr1 & He & Hr).
      { unfold at_ending. rewrite Hend. exact Herr. }
      destruct (Nat.eqb_spec (length (pending fp)) 0) as [E|_]; [contradiction|].
      destruct (Nat.eqb_spec (length (pending fp)) 0) as [E|_] in Hstep;
        [contradiction|].
      rewrite Hstep.
      replace (feof (at_ending fp)) with true
        by (unfold at_ending; rewrite Hend; reflexivity).
      eexists _, _. split; [reflexivity|].
      cbn [map concat forallb]. rewrite !app_nil_r, andb_true_r.
      repeat split; trivial.
Qed.

(** X3.  SubBlock mode ([-B]) when the primitive fails on a sub-block, for
    an input read without fault.  The failure ends the digest lines of the
    chunk of [BSIZE] bytes that holds the sub-block, and of that chunk
    only: the chunks after it are still cut into sub-blocks and hashed.
    Every chunk with a failure writes one [error hashing file: <name>]
    message; then the exit status is the failure status and the closing
    empty line is not printed. *)
Theorem subblock_mode_with_failures :
  forall argv s display is_stdin data,
    outmode s = 5%Z -> read_err s = 0%Z ->
    open_input argv s
      = Some (display, Some (fresh_stream (data, EndOfFile)), is_stdin) ->
    exists s',
      do_body argv s = Some s' /\
      stdout s' =
        stdout s ++
        concat (map (fun c => subblock_records (blocks kbsize c))
                    (blocks BSIZE data)) ++
        (if forallb chunk_accepted (blocks BSIZE data) then [LF] else []) /\
      stderr s' =
        stderr s ++
        concat (map (fun c => if chunk_accepted c then []
                              else lit "error hashing file: " ++ display ++ [LF])
                    (blocks BSIZE data)) /\
      error s' = (if forallb chunk_accepted (blocks BSIZE data)
                  then error s else EXIT_FAILURE).
Proof.
  clear VER VERDATE NO_AVX2 NO_SSE2.
  intros argv s display is_stdin data Hmode Hre Hopen.
  unfold do_body. rewrite open_input_set_hash, Hopen.
  unfold hash_stream. cbn [outmode set_name set_hash]. rewrite Hmode.
  cbn [Z.eqb Pos.eqb orb].
  destruct (chunk_loop_subblocks_general
              (S (length (pending (fresh_stream (data, EndOfFile)))))
              (set_name display (set_hash 0 s))
              (fresh_stream (data, EndOfFile)))
    as (s1 & fp1 & Hrun & Hm & _ & _ & _ & Hout & Herr & He & Hr); trivial; [lia|].
  rewrite Hrun.
  cbn [outmode name stdout stderr error read_err set_name set_hash pending
       fresh_stream fst] in Hm, Hout, Herr, He, Hr.
  rewrite Hr, Hre.
  destruct (forallb chunk_accepted (blocks BSIZE data)).
  - cbn [Z.eqb]. rewrite Hm, Hmode. cbn [Z.eqb Pos.eqb negb].
    rewrite Hm, Hmode. cbn [Z.eqb Pos.eqb].
    eexists. split; [reflexivity|].
    destruct is_stdin; cbn [close_file stdout stderr error set_argnum set_stdin printf];
      rewrite Hout, Herr, He, <- ?app_assoc; auto.
  - cbn [Z.eqb Pos.eqb].
    eexists. split; [reflexivity|].
    destruct is_stdin;
      cbn [close_file stdout stderr error set_argnum set_stdin set_read_err];
      rewrite Hout, Herr, He, ?app_nil_r; auto.
Qed.

(** ** Whole-file modes when hashing or reading fails *)

Lemma chunk_loop_hash_fails :
  forall fuel s fp,
    length (pending fp) < fuel ->
    (ending_of fp <> EndOfFile -> exists m, length (pending fp) = BSIZE * m) ->
    ferror fp = false -> feof fp = false ->
    outmode s <> 5%Z ->
    fold_hash (chunk_primitive s) (blocks BSIZE (pending fp)) (hash s) = None ->
    exists s' fp',
      chunk_loop fuel s fp = Some (s', fp') /\
      outmode s' = outmode s /\ name s' = name s /\ argnum s' = argnum s /\
      stdin s' = stdin s /\ stdout s' = stdout s /\
      error s' = EXIT_FAILURE /\ read_err s' = 1%Z.
Proof.
  clear VER VERDATE PATH_MAX NO_AVX2 NO_SSE2 fs.
  induction fuel as [|fuel IH]; intros s fp Hfuel Hend Herr Heof Hmode Hfold; [lia|].
  cbn [chunk_loop]. pose proof BSIZE_pos as Hpos.
  apply Z.eqb_neq in Hmode.
  destruct (Nat.leb_spec BSIZE (length (pending fp))) as [Hfull|Hshort].
  - rewrite fread_full by assumption.
    set (data := firstn BSIZE (pending fp)) in *.
    assert (Hlen : length data = BSIZE) by (unfold data; rewrite length_firstn; lia).
    assert (Hne : pending fp <> []) by (intros E; rewrite E in Hfull; simpl in Hfull; lia).
    rewrite (blocks_step BSIZE _ Hpos Hne) in Hfold. fold data in Hfold.
    cbn [fold_hash] in Hfold.
    destruct (Nat.eqb_spec (length data) 0) as [E|_]; [lia|].
    cbn [ferror outmode set_blk]. rewrite Herr, Hmode.
    rewrite hash_chunk_primitive. cbn [blk hash set_blk].
    rewrite firstn_store, firstn_all by lia.
    change (chunk_primitive (set_blk (store data (blk s)) s)) with (chunk_primitive s).
    cbv zeta.
    destruct (fst (chunk_primitive s data (hash s)) =? 0)%Z eqn:Hrc; cbn [negb].
    + cbn [feof]. rewrite Heof.
      match goal with |- context [chunk_loop fuel ?s1 ?fp1] =>
        destruct (IH s1 fp1)
          as (s' & fp' & Hrun' & Hm' & Hn' & Ha' & Hs' & Hout' & He' & Hr')
      end; cbn [pending ending_of feof ferror].
      * rewrite length_skipn. lia.
      * intros E. destruct (Hend E) as [m Hm]. exists (m - 1).
        rewrite length_skipn, Hm. destruct m as [|m];
          [rewrite Nat.mul_0_r in Hm; lia|].
        rewrite Nat.mul_succ_r. cbn [Nat.sub]. rewrite Nat.sub_0_r. lia.
      * reflexivity.
      * reflexivity.
      * cbn [outmode set_hash eprintf set_blk]. apply Z.eqb_neq. exact Hmode.
      * exact Hfold.
      * exists s', fp'. split; [exact Hrun'|]. repeat split; assumption.
    + eexists _, _. split; [reflexivity|]. repeat split.
  - rewrite fread_short by assumption.
    destruct (Nat.eqb_spec (length (pending fp)) 0) as [E|Hne].
    + apply length_zero_iff_nil in E. rewrite E, blocks_nil in Hfold.
      discriminate.
    + assert (Hne' : pending fp <> []) by (intros E; rewrite E in Hne; simpl in Hne; lia).
      rewrite (blocks_short BSIZE _ Hne') in Hfold by lia.
      cbn [fold_hash] in Hfold.
      assert (Hend' : ending_of fp = EndOfFile).
      { destruct (ending_of fp) eqn:Ee; [reflexivity| |];
          (assert (Hm : exists m, length (pending fp) = BSIZE * m)
             by (apply Hend; congruence);
           destruct Hm as [[|m] Hm];
           [rewrite Nat.mul_0_r in Hm | rewrite Nat.mul_succ_r in Hm]; lia). }
      unfold at_ending. rewrite Hend'. cbn [ferror outmode set_blk].
      rewrite Herr, Hmode.
      rewrite hash_chunk_primitive. cbn [blk hash set_blk].
      rewrite firstn_store, firstn_all by lia.
      change (chunk_primitive (set_blk (store (pending fp) (blk s)) s))
        with (chunk_primitive s).
      cbv zeta.
      destruct (fst (chunk_primitive s (pending fp) (hash s)) =? 0)%Z eqn:Hrc;
        [discriminate|].
      cbn [negb]. eexists _, _. split; [reflexivity|]. repeat split.
Qed.

Lemma chunk_loop_read_fault :
  forall fuel s fp full part m h,
    length (pending fp) < fuel ->
    pending fp = full ++ part -> length full = BSIZE * m ->
    part <> [] -> length part < BSIZE ->
    ending_of fp = ReadFault -> ferror fp = false -> feof fp = false ->
    outmode s <> 5%Z ->
    fold_hash (chunk_primitive s) (blocks BSIZE full) (hash s) = Some h ->
    exists s' fp',
      chunk_loop fuel s fp = Some (s', fp') /\
      outmode s' = outmode s /\ name s' = name s /\ argnum s' = argnum s /\
      stdin s' = stdin s /\ stdout s' = stdout s /\
      stderr s' = stderr s ++ concat (map notice (blocks BSIZE full))
                  ++ name s ++ [LF] /\
      error s' = EXIT_FAILURE /\ read_err s' = 1%Z.
Proof.
  clear VER VERDATE PATH_MAX NO_AVX2 NO_SSE2 fs.
  induction fuel as [|fuel IH];
    intros s fp full part m h Hfuel Hp Hfull Hpne Hplen Hend Herr Heof Hmode Hfold;
    [lia|].
  cbn [chunk_loop]. pose proof BSIZE_pos as Hpos.
  apply Z.eqb_neq in Hmode.
  destruct m as [|m].
  - rewrite Nat.mul_0_r in Hfull. apply length_zero_iff_nil in Hfull. subst full.
    cbn [app] in Hp. rewrite fread_short by (rewrite Hp; assumption).
    rewrite Hp. rewrite blocks_nil.
    destruct (Nat.eqb_spec (length part) 0) as [E|_];
      [apply length_zero_iff_nil in E; contradiction|].
    unfold at_ending. rewrite Hend. cbn [ferror].
    eexists _, _. split; [reflexivity|]. repeat split.
  - assert (Hge : BSIZE <= length full) by (rewrite Hfull, Nat.mul_succ_r; lia).
    rewrite fread_full by (rewrite Hp, length_app; lia).
    rewrite Hp, firstn_app, skipn_app.
    replace (BSIZE - length full) with 0 by lia.
    rewrite firstn_0, skipn_0, app_nil_r.
    set (data := firstn BSIZE full) in *.
    assert (Hlen : length data = BSIZE) by (unfold data; rewrite length_firstn; lia).
    assert (Hne : full <> []) by (intros E; rewrite E in Hge; simpl in Hge; lia).
    rewrite (blocks_step BSIZE _ Hpos Hne) in Hfold |- *. fold data in Hfold |- *.
    cbn [fold_hash] in Hfold.
    destruct (fst (chunk_primitive s data (hash s)) =? 0)%Z eqn:Hrc; [|discriminate].
    destruct (Nat.eqb_spec (length data) 0) as [E|_]; [lia|].
    cbn [ferror outmode set_blk]. rewrite Herr, Hmode.
    rewrite hash_chunk_primitive. cbn [blk hash set_blk].
    rewrite firstn_store, firstn_all by lia.
    change (chunk_primitive (set_blk (store data (blk s)) s)) with (chunk_primitive s).
    cbv zeta. rewrite Hrc. cbn [negb feof]. rewrite Heof.
    match goal with |- context [chunk_loop fuel ?s1 ?fp1] =>
      destruct (IH s1 fp1 (skipn BSIZE full) part m h)
        as (s' & fp' & Hrun' & Hm' & Hn' & Ha' & Hs' & Hout' & Herr' & He' & Hr')
    end; cbn [pending ending_of feof ferror]; trivial.
    + rewrite length_app, length_skipn. rewrite Hp, length_app in Hfuel. lia.
    + rewrite length_skipn, Hfull, Nat.mul_succ_r. lia.
    + cbn [outmode set_hash eprintf set_blk]. apply Z.eqb_neq. exact Hmode.
    + exists s', fp'. split; [exact Hrun'|].
      cbn [outmode name argnum stdin stdout stderr set_hash eprintf set_blk]
        in Hm', Hn', Ha', Hs', Hout', Herr'.
      repeat split; trivial.
      rewrite Herr'. cbn [map concat]. unfold notice at 2.
      rewrite Hlen, <- !app_assoc. reflexivity.
Qed.

(** X4.  A Whole-file mode (none, [-b]/[-s], [-n], [-r]) when the
    primitive fails on a chunk.  No digest line is printed for the input,
    also when chunks before the failing one were hashed; the diagnostic
    stream gets the notices of the chunks read and one
    [error hashing file: <name>] message; the exit status becomes the
    failure status; [read_err] is cleared again, so that the failure does
    not suppress the digest of the next input; and the argument index
    advances. *)
Theorem whole_mode_hash_failure :
  forall argv s display is_stdin data e,
    outmode s = 0%Z \/ outmode s = 1%Z \/ outmode s = 4%Z \/ outmode s = 6%Z ->
    open_input argv s = Some (display, Some (fresh_stream (data, e)), is_stdin) ->
    (e <> EndOfFile -> exists m, length data = BSIZE * m) ->
    fold_hash (chunk_primitive s) (blocks BSIZE data) 0 = None ->
    exists s',
      do_body argv s = Some s' /\
      stdout s' = stdout s /\
      stderr s' =
        stderr s ++
        concat (map notice (chunks_read (chunk_primitive s) (blocks BSIZE data) 0))
        ++ lit "error hashing file: " ++ display ++ [LF] /\
      error s' = EXIT_FAILURE /\ read_err s' = 0%Z /\
      argnum s' = S (argnum s).
Proof.
  clear VER VERDATE NO_AVX2 NO_SSE2.
  intros argv s display is_stdin data e Hmode Hopen Hend Hfold.
  unfold do_body. rewrite open_input_set_hash, Hopen.
  unfold hash_stream. cbn [outmode set_name set_hash].
  assert (Hline : ((outmode s =? 2) || (outmode s =? 3))%Z = false)
    by (destruct Hmode as [E|[E|[E|E]]]; rewrite E; reflexivity).
  assert (H5 : outmode s <> 5%Z)
    by (destruct Hmode as [E|[E|[E|E]]]; rewrite E; discriminate).
  rewrite Hline.
  destruct (chunk_loop_hash_fails
              (S (length (pending (fresh_stream (data, e)))))
              (set_name display (set_hash 0 s))
              (fresh_stream (data, e)))
    as (s1 & fp1 & Hrun & Hm & Hn & Ha & Hs & Hout & He & Hr); trivial; [lia|].
  destruct (chunk_loop_notices
              (S (length (pending (fresh_stream (data, e)))))
              (set_name display (set_hash 0 s))
              (fresh_stream (data, e)))
    as (s2 & fp2 & Hrun2 & Herr); trivial; [lia|].
  rewrite Hrun in Hrun2. injection Hrun2 as <- <-.
  rewrite Hrun, Hr. cbn [Z.eqb Pos.eqb].
  cbn [outmode name argnum stdout stderr hash set_name set_hash pending
       fresh_stream fst] in Hm, Hn, Ha, Hs, Hout, Herr.
  change (chunk_primitive (set_name display (set_hash 0 s)))
    with (chunk_primitive s) in Herr.
  rewrite Hfold in Herr. cbn [hash_failure_message] in Herr.
  eexists. split; [reflexivity|].
  destruct is_stdin;
    cbn [close_file stdout stderr error read_err argnum set_argnum set_stdin
         set_read_err];
    rewrite Ha; auto.
Qed.

(** X5.  A read fault inside a chunk, in a Whole-file mode.  When the
    stream fails after [m] full chunks and some further bytes, the full
    chunks are hashed and noticed, the bytes of the last read are not, and
    nothing is printed for the input: the digest of the chunks hashed so
    far is dropped.  The diagnostic is the display name alone on a line,
    the exit status becomes the failure status, and [read_err] is cleared
    again. *)
Theorem read_fault_inside_a_chunk :
  forall argv s display is_stdin full part m h,
    outmode s = 0%Z \/ outmode s = 1%Z \/ outmode s = 4%Z \/ outmode s = 6%Z ->
    open_input argv s
      = Some (display, Some (fresh_stream (full ++ part, ReadFault)), is_stdin) ->
    length full = BSIZE * m -> part <> [] -> length part < BSIZE ->
    fold_hash (chunk_primitive s) (blocks BSIZE full) 0 = Some h ->
    exists s',
      do_body argv s = Some s' /\
      stdout s' = stdout s /\
      stderr s' =
        stderr s ++ concat (map notice (blocks BSIZE full)) ++ display ++ [LF] /\
      error s' = EXIT_FAILURE /\ read_err s' = 0%Z /\
      argnum s' = S (argnum s).
Proof.
  clear VER VERDATE NO_AVX2 NO_SSE2.
  intros argv s display is_stdin full part m h Hmode Hopen Hfull Hpne Hplen Hfold.
  unfold do_body. rewrite open_input_set_hash, Hopen.
  unfold hash_stream. cbn [outmode set_name set_hash].
  assert (Hline : ((outmode s =? 2) || (outmode s =? 3))%Z = false)
    by (destruct Hmode as [E|[E|[E|E]]]; rewrite E; reflexivity).
  assert (H5 : outmode s <> 5%Z)
    by (destruct Hmode as [E|[E|[E|E]]]; rewrite E; discriminate).
  rewrite Hline.
  destruct (chunk_loop_read_fault
              (S (length (pending (fresh_stream (full ++ part, ReadFault)))))
              (set_name display (set_hash 0 s))
              (fresh_stream (full ++ part, ReadFault)) full part m h)
    as (s1 & fp1 & Hrun & Hm & Hn & Ha & Hs & Hout & Herr & He & Hr); trivial;
    [lia|].
  rewrite Hrun, Hr. cbn [Z.eqb Pos.eqb].
  cbn [outmode name argnum stdout stderr hash set_name set_hash pending
       fresh_stream fst] in Hm, Hn, Ha, Hs, Hout, Herr.
  eexists. split; [reflexivity|].
  destruct is_stdin;
    cbn [close_file stdout stderr error read_err argnum set_argnum set_stdin
         set_read_err];
    rewrite Ha; auto.
Qed.

(** ** The exit status only ever goes from success to failure *)

Lemma subblock_loop_error :
  forall fuel s i kblk s',
    subblock_loop fuel s i kblk = Some s' ->
    error s' = error s \/ error s' = EXIT_FAILURE.
Proof.
  clear jody_rolling_block_hash VER VERDATE PATH_MAX NO_AVX2 NO_SSE2 fs.
  induction fuel as [|fuel IH]; intros s i kblk s' H; [discriminate|].
  cbn [subblock_loop] in H.
  destruct (i =? 0); [inversion H; left; reflexivity|].
  match type of H with (if ?c then _ else _) = _ => destruct c end;
    [inversion H; right; reflexivity|].
  apply IH in H. exact H.
Qed.

Lemma chunk_loop_error :
  forall fuel s fp s' fp',
    chunk_loop fuel s fp = Some (s', fp') ->
    error s' = error s \/ error s' = EXIT_FAILURE.
Proof.
  clear VER VERDATE PATH_MAX NO_AVX2 NO_SSE2 fs.
  induction fuel as [|fuel IH]; intros s fp s' fp' H; [discriminate|].
  cbn [chunk_loop] in H.
  destruct (fread BSIZE fp) as [data fp1].
  destruct (length data =? 0); [inversion H; left; reflexivity|].
  destruct (ferror fp1); [inversion H; right; reflexivity|].
  cbn [outmode set_blk] in H.
  destruct (outmode s =? 5)%Z.
  - destruct (subblock_loop (S (length data)) (set_blk (store data (blk s)) s)
                            (length data) 0) as [s1|] eqn:E;
      cbn [option_map] in H; [|discriminate].
    apply subblock_loop_error in E. cbn [error set_blk] in E.
    destruct (feof fp1); [inversion H; subst; exact E|].
    apply IH in H. destruct H as [H|H]; [rewrite H; exact E | right; exact H].
  - unfold hash_chunk in H. cbv zeta in H.
    match type of H with
    | match (if ?c then _ else _) with _ => _ end = _ => destruct c
    end; [inversion H; right; reflexivity|].
    destruct (feof fp1); [inversion H; left; reflexivity|].
    apply IH in H. exact H.
Qed.

Lemma line_body_error (s : state) (fp : FILE) :
  error (fst (line_body s fp)) = error s \/
  error (fst (line_body s fp)) = EXIT_FAILURE.
Proof.
  clear jody_rolling_block_hash VER VERDATE PATH_MAX NO_AVX2 NO_SSE2 fs.
  unfold line_body.
  repeat match goal with
         | |- context [if ?c then _ else _] => destruct c
         end; cbn; auto.
Qed.

Lemma line_loop_error :
  forall fuel s fp s' fp',
    line_loop fuel s fp = Some (s', fp') ->
    error s' = error s \/ error s' = EXIT_FAILURE.
Proof.
  clear jody_rolling_block_hash VER VERDATE PATH_MAX NO_AVX2 NO_SSE2 fs.
  induction fuel as [|fuel IH]; intros s fp s' fp' H; [discriminate|].
  cbn [line_loop] in H.
  destruct (fgets (blk s) BSIZE fp) as [[got buf] fp1].
  destruct got; cbn [negb] in H; [|inversion H; left; reflexivity].
  pose proof (line_body_error (set_blk buf s) fp1) as Hb.
  destruct (line_body (set_blk buf s) fp1) as [s1 b]. cbn [fst error set_blk] in Hb.
  destruct b; [inversion H; subst; exact Hb|].
  apply IH in H. destruct H as [H|H]; [rewrite H; exact Hb | right; exact H].
Qed.

Lemma hash_stream_error (s : state) (fp : FILE) (s' : state) (fp' : FILE) :
  hash_stream s fp = Some (s', fp') ->
  error s' = error s \/ error s' = EXIT_FAILURE.
Proof.
  clear VER VERDATE PATH_MAX NO_AVX2 NO_SSE2 fs.
  unfold hash_stream. intros H.
  destruct ((outmode s =? 2)%Z || (outmode s =? 3)%Z);
    [eapply line_loop_error; exact H|].
  destruct (chunk_loop (S (length (pending fp))) s fp) as [[s1 fp1]|] eqn:E;
    [|discriminate].
  apply chunk_loop_error in E.
  repeat match type of H with
         | context [if ?c then _ else _] => destruct c
         end; inversion H; subst; exact E.
Qed.

Lemma do_body_error (argv : list bytes) (s s' : state) :
  do_body argv s = Some s' ->
  (error s' = error s \/ error s' = EXIT_FAILURE) /\ argnum s' = S (argnum s).
Proof.
  clear VER VERDATE NO_AVX2 NO_SSE2.
  unfold do_body. intros H.
  destruct (open_input argv (set_hash 0 s)) as [[[display [fp|]] is_stdin]|];
    [| |discriminate].
  - destruct (hash_stream (set_name display (set_hash 0 s)) fp)
      as [[s1 fp1]|] eqn:E; [|discriminate].
    pose proof (hash_stream_error _ _ _ _ E) as He.
    destruct (hash_stream_returns (set_name display (set_hash 0 s)) fp)
      as (s2 & fp2 & E2 & _ & _ & Ha & _).
    rewrite E in E2. inversion E2; subst s2 fp2.
    inversion H; subst.
    destruct is_stdin; cbn in *; auto.
  - inversion H; subst. cbn. auto.
Qed.

Lemma do_loop_error :
  forall fuel argv s s',
    do_loop fuel argv s = Some s' ->
    error s' = error s \/ error s' = EXIT_FAILURE.
Proof.
  clear VER VERDATE NO_AVX2 NO_SSE2.
  induction fuel as [|fuel IH]; intros argv s s' H; [discriminate|].
  cbn [do_loop] in H.
  destruct (do_body argv s) as [s1|] eqn:E; [|discriminate].
  apply do_body_error in E. destruct E as [E _].
  destruct (argnum s1 <? length argv); [|inversion H; subst; exact E].
  apply IH in H. destruct H as [H|H]; [rewrite H; exact E | right; exact H].
Qed.

Lemma do_loop_cannot_open :
  forall fuel argv s s' k,
    do_loop fuel argv s = Some s' ->
    length argv <> 1 ->
    argnum s <= k -> k < length argv ->
    nth k argv [] <> lit "-" -> fs (nth k argv []) = None ->
    error s' = EXIT_FAILURE.
Proof.
  clear VER VERDATE NO_AVX2 NO_SSE2.
  induction fuel as [|fuel IH]; intros argv s s' k H Hargc Hlo Hhi Hdash Hfs;
    [discriminate|].
  cbn [do_loop] in H.
  destruct (do_body argv s) as [s1|] eqn:E; [|discriminate].
  destruct (do_body_error _ _ _ E) as [He Ha].
  destruct (Nat.eq_dec k (argnum s)) as [Hk|Hk].
  - assert (He1 : error s1 = EXIT_FAILURE).
    { destruct (cannot_open_is_reported argv s (strncpy (nth k argv []) PATH_MAX) false)
        as (s2 & E2 & _ & _ & He2 & _).
      - unfold open_input.
        destruct (Nat.eqb_spec (length argv) 1) as [E1|_]; [contradiction|].
        rewrite <- Hk, (nth_error_nth' argv [] Hhi).
        rewrite streq_neq by congruence.
        unfold fopen. rewrite Hfs. reflexivity.
      - rewrite E in E2. inversion E2; subst. exact He2. }
    destruct (argnum s1 <? length argv); [|inversion H; subst; exact He1].
    apply do_loop_error in H. destruct H as [H|H]; congruence.
  - destruct (Nat.ltb_spec (argnum s1) (length argv)) as [Hlt|Hge]; [|lia].
    apply (IH argv s1 s' k H); trivial. lia.
Qed.

Lemma Some_inj (A : Type) (a b : A) : Some a = Some b -> a = b.
Proof. congruence. Qed.

Lemma Some_fst_inj (A B : Type) (a c : A) (b d : B) :
  Some (a, b) = Some (c, d) -> a = c.
Proof. congruence. Qed.

Lemma skipn_nth_error (l : list bytes) :
  forall k p, nth_error l k = Some p -> skipn k l = p :: skipn (S k) l.
Proof.
  clear JODY_HASH_WIDTH jody_block_hash jody_rolling_block_hash VER VERDATE
        PATH_MAX NO_AVX2 NO_SSE2 fs.
  induction l as [|a l IH]; intros [|k] p H; cbn in H; try discriminate.
  - inversion H. reflexivity.
  - cbn [skipn]. rewrite (IH k p H). reflexivity.
Qed.

(** An input that is not [stdin] leaves [stdin] alone. *)
Lemma do_body_stdin (argv : list bytes) (s s1 : state) (p : bytes) :
  length argv <> 1 -> nth_error argv (argnum s) = Some p -> p <> lit "-" ->
  do_body argv s = Some s1 -> stdin s1 = stdin s.
Proof.
  clear VER VERDATE NO_AVX2 NO_SSE2.
  intros Hl Hp Hdash H. unfold do_body in H. rewrite open_input_set_hash in H.
  unfold open_input in H.
  destruct (Nat.eqb_spec (length argv) 1) as [E|_]; [contradiction|].
  rewrite Hp, streq_neq in H by congruence.
  destruct (fopen p) as [fp|].
  - destruct (hash_stream_returns (set_name (strncpy p PATH_MAX) (set_hash 0 s)) fp)
      as (s' & fp' & Hrun & _ & _ & _ & Hs & _).
    rewrite Hrun in H. apply Some_inj in H. subst s1. exact Hs.
  - apply Some_inj in H. subst s1. reflexivity.
Qed.

(** The [do] loop returns as long as [stdin] is not taken twice. *)
Lemma do_loop_returns_once (argv : list bytes) :
  forall fuel s,
    0 < fuel -> length argv < fuel + argnum s -> 1 <= argnum s ->
    (length argv = 1 -> stdin s <> None) ->
    (length argv <> 1 ->
     argnum s < length argv /\
     length (filter names_stdin (skipn (argnum s) argv))
     <= match stdin s with Some _ => 1 | None => 0 end) ->
    exists s', do_loop fuel argv s = Some s'.
Proof.
  clear VER VERDATE NO_AVX2 NO_SSE2.
  induction fuel as [|fuel IH]; intros s Hpos Hfuel Hnum H1 Hn; [lia|].
  cbn [do_loop].
  assert (Hstep : exists s1,
             do_body argv s = Some s1 /\ argnum s1 = S (argnum s) /\
             (length argv <> 1 ->
              length (filter names_stdin (skipn (S (argnum s)) argv))
              <= match stdin s1 with Some _ => 1 | None => 0 end)).
  { destruct (Nat.eq_dec (length argv) 1) as [E|E].
    - destruct (do_body_returns argv s) as (s1 & Hrun & _ & Ha & _).
      + unfold open_input. rewrite E. cbn [Nat.eqb].
        destruct (stdin s); [discriminate|]. exfalso. apply (H1 E). reflexivity.
      + exists s1. repeat split; trivial. contradiction.
    - destruct (Hn E) as (Hlt & Hcount).
      destruct (nth_error argv (argnum s)) as [p|] eqn:Hp;
        [|apply nth_error_None in Hp; lia].
      rewrite (skipn_nth_error _ _ _ Hp) in Hcount. cbn [filter] in Hcount.
      destruct (do_body_returns argv s) as (s1 & Hrun & _ & Ha & _).
      + unfold open_input.
        destruct (Nat.eqb_spec (length argv) 1) as [E'|_]; [contradiction|].
        rewrite Hp. change (names_stdin p) with (streq (lit "-") p) in Hcount.
        destruct (streq (lit "-") p); [|discriminate].
        destruct (stdin s); [discriminate|]. cbn [length] in Hcount. lia.
      + exists s1. repeat split; trivial. intros _.
        change (names_stdin p) with (streq (lit "-") p) in Hcount.
        destruct (streq (lit "-") p) eqn:Hdash.
        * cbn [length] in Hcount. destruct (stdin s); [|lia].
          destruct (stdin s1); lia.
        * assert (Hd : p <> lit "-")
            by (intros ->; rewrite (proj2 (streq_eq _ _) eq_refl) in Hdash;
                discriminate).
          rewrite (do_body_stdin argv s s1 p E Hp Hd Hrun). exact Hcount. }
  destruct Hstep as (s1 & Hrun & Ha & Hcount).
  rewrite Hrun. destruct (Nat.ltb_spec (argnum s1) (length argv)); [|eauto].
  apply IH; try lia.
  intros E. split; [assumption|]. rewrite Ha. apply Hcount. exact E.
Qed.

Lemma process_options_start (argv : list bytes) (input : FILE) :
  stdin (process_options argv (initial_state input)) = Some input /\
  (argnum (process_options argv (initial_state input)) = 1 \/
   (argnum (process_options argv (initial_state input)) = 2 /\ 2 < length argv)).
Proof.
  clear JODY_HASH_WIDTH jody_block_hash jody_rolling_block_hash VER VERDATE
        PATH_MAX NO_AVX2 NO_SSE2 fs.
  unfold process_options.
  destruct (Nat.ltb_spec 2 (length argv)) as [H2|H2]; [|cbn; auto].
  repeat match goal with
         | |- context [if ?c then _ else _] => destruct c
         end; cbn; auto.
Qed.

(** [main] returns for every command line that has a program name and
    names [-] at most once. *)
Lemma main_returns_once (argv : list bytes) (input : FILE) :
  argv <> [] -> length (filter names_stdin (tl argv)) <= 1 ->
  exists r, main argv input = Some r.
Proof.
  intros Hne Hargs. unfold main.
  repeat match goal with
         | |- context [if ?c then _ else _] => destruct c; [eauto|]
         end.
  destruct (process_options_start argv input) as (Hs & Ha).
  destruct (do_loop_returns_once argv (S (length argv))
              (process_options argv (initial_state input))) as (s' & Hrun).
  - lia.
  - lia.
  - lia.
  - intros _. rewrite Hs. discriminate.
  - intros E. rewrite Hs.
    destruct argv as [|prog args]; [congruence|]. cbn [tl length] in *.
    destruct Ha as [Ha|[Ha H2]]; rewrite Ha.
    + split; [destruct args; [exfalso; apply E; reflexivity|cbn [length]; lia]
             |exact Hargs].
    + split; [lia|]. destruct args as [|a args]; [cbn in H2; lia|].
      cbn [skipn]. cbn [filter] in Hargs.
      destruct (names_stdin a); cbn [length] in Hargs; lia.
  - rewrite Hrun. eauto.
Qed.

(** X6.  An argument that cannot be opened makes the run fail.  Take a
    command line that has a program name, whose first argument is not
    [-v], [-h] or [--help], and in which [-] stands at most once (a second
    [-] would use [stdin] after [fclose]).  When one of the arguments that
    the loop visits, from the first one after the option, is not [-] and
    names a file that [fopen] does not find, [main] returns and its exit
    status is the failure status: whatever the mode, the arguments before
    and after it, [-] included, the files behind them, what standard input
    holds and the results of the primitives.  Nothing that comes later in
    the run sets the status back. *)
Theorem run_fails_when_an_argument_cannot_be_opened :
  forall argv input k,
    argv <> [] -> length (filter names_stdin (tl argv)) <= 1 ->
    ~ In (nth 1 argv []) (map lit ["-v"; "-h"; "--help"]%string) ->
    argnum (process_options argv (initial_state input)) <= k ->
    k < length argv ->
    nth k argv [] <> lit "-" -> fs (nth k argv []) = None ->
    exists r, main argv input = Some r /\ fst r = EXIT_FAILURE.
Proof.
  intros argv input k Hne Hargs Hopt Hlo Hhi Hdash Hfs.
  destruct (main_returns_once argv input Hne Hargs) as (r & Hrun).
  exists r. split; [exact Hrun|].
  unfold main in Hrun. cbn [In map] in Hopt.
  rewrite !streq_neq in Hrun by (intros E; apply Hopt; rewrite <- E; tauto).
  rewrite !andb_false_r in Hrun. cbn [orb] in Hrun.
  destruct (do_loop (S (length argv)) argv (process_options argv (initial_state input)))
    as [s'|] eqn:E; [|discriminate].
  apply Some_inj in Hrun. subst r. cbn [fst].
  destruct (process_options_start argv input) as (_ & Ha).
  apply (do_loop_cannot_open _ _ _ _ k E); trivial. lia.
Qed.

(** X7.  [main] returns, and its exit status is one of two values.  For
    every command line that has a program name and does not name [-] among
    its arguments, whatever the files and the primitives do, the fuel of
    the loops suffices, no argument is read out of bounds, and the status
    is [EXIT_SUCCESS] or [EXIT_FAILURE]. *)
Theorem exit_status_is_success_or_failure :
  forall argv input,
    argv <> [] -> Forall (fun a => a <> lit "-") (tl argv) ->
    exists r,
      main argv input = Some r /\
      (fst r = EXIT_SUCCESS \/ fst r = EXIT_FAILURE).
Proof.
  intros argv input Hne Hargs.
  destruct (main_returns argv input Hne Hargs) as (r & Hrun).
  exists r. split; [exact Hrun|].
  unfold main in Hrun.
  repeat match type of Hrun with
         | (if ?c then _ else _) = _ =>
             destruct c; [inversion Hrun; left; reflexivity|]
         end.
  destruct (do_loop (S (length argv)) argv (process_options argv (initial_state input)))
    as [s'|] eqn:E; [|discriminate].
  inversion Hrun; subst. cbn [fst].
  apply do_loop_error in E. destruct E as [E|E]; [left|right; exact E].
  rewrite E. unfold process_options.
  repeat match goal with
         | |- context [if ?c then _ else _] => destruct c
         end; reflexivity.
Qed.

(** ** Line mode: read faults, NUL bytes and long lines *)

Lemma fgets_ferror (buf : bytes) (n : nat) (fp : FILE) (buf' : bytes) (fp' : FILE) :
  fgets buf n fp = (true, buf', fp') ->
  ending_of fp' = ending_of fp /\
  (ferror fp' = ferror fp \/ (ending_of fp = WouldBlock /\ ferror fp' = true)).
Proof.
  clear JODY_HASH_WIDTH jody_block_hash jody_rolling_block_hash VER VERDATE
        PATH_MAX NO_AVX2 NO_SSE2 fs.
  unfold fgets. destruct (take_line (n - 1) (pending fp)) as [[l r] e].
  destruct e.
  - unfold at_ending. destruct (ending_of fp) eqn:Ee; [|discriminate|];
      (destruct l; [discriminate|]; intros H; inversion H; cbn; auto).
  - intros H. inversion H. cbn. auto.
Qed.

Lemma line_body_diagnostic (s : state) (fp : FILE) :
  ferror fp = false ->
  name (fst (line_body s fp)) = name s /\
  ((error (fst (line_body s fp)) = error s /\
    stderr (fst (line_body s fp)) = stderr s) \/
   (snd (line_body s fp) = true /\
    error (fst (line_body s fp)) = EXIT_FAILURE /\
    stderr (fst (line_body s fp)) =
      stderr s ++ lit "error hashing file: " ++ name s ++ [LF])).
Proof.
  clear jody_rolling_block_hash VER VERDATE PATH_MAX NO_AVX2 NO_SSE2 fs.
  intros Herr. unfold line_body. rewrite Herr.
  repeat match goal with
         | |- context [if ?c then _ else _] => destruct c
         end; cbn; rewrite <- ?app_assoc; auto.
Qed.

(** Lines 223-226 and 245-248: the buffer was filled by a read that set the
    error indicator. *)
Lemma line_body_read_error (s : state) (fp : FILE) :
  ferror fp = true ->
  line_body s fp
  = (error_loop1 (eprintf (lit "error reading file: ") (set_hash 0 s)), true).
Proof.
  clear jody_rolling_block_hash VER VERDATE PATH_MAX NO_AVX2 NO_SSE2 fs.
  intros Herr. unfold line_body. rewrite Herr. reflexivity.
Qed.

Lemma line_loop_diagnostic :
  forall fuel s fp,
    length (pending fp) < fuel -> ferror fp = false ->
    exists s' fp',
      line_loop fuel s fp = Some (s', fp') /\
      ((error s' = error s /\ stderr s' = stderr s) \/
       (error s' = EXIT_FAILURE /\
        stderr s' = stderr s ++ lit "error hashing file: " ++ name s ++ [LF]) \/
       (ending_of fp = WouldBlock /\ error s' = EXIT_FAILURE /\
        stderr s' = stderr s ++ lit "error reading file: " ++ name s ++ [LF])).
Proof.
  clear jody_rolling_block_hash VER VERDATE PATH_MAX NO_AVX2 NO_SSE2 fs.
  induction fuel as [|fuel IH]; intros s fp Hfuel Herr; [lia|].
  cbn [line_loop].
  destruct (fgets (blk s) BSIZE fp) as [[got buf] fp1] eqn:E.
  destruct got; cbn [negb].
  - pose proof (fgets_progress _ _ _ _ E) as Hlt.
    apply fgets_ferror in E. destruct E as (Hend & [E|(Hwb & E)]).
    + rewrite Herr in E.
      destruct (line_body_diagnostic (set_blk buf s) fp1 E) as (Hn & Hd).
      destruct (line_body (set_blk buf s) fp1) as [s1 b].
      cbn [fst snd name error stderr set_blk] in Hn, Hd.
      destruct b.
      * eexists _, _. split; [reflexivity|].
        destruct Hd as [Hd|(_ & Hd)]; [left|right; left]; exact Hd.
      * destruct Hd as [(He & Hs)|(Hb & _)]; [|discriminate].
        destruct (IH s1 fp1) as (s' & fp' & Hrun & Hd'); [lia|exact E|].
        exists s', fp'. split; [exact Hrun|].
        rewrite He, Hs, Hn, Hend in Hd'. exact Hd'.
    + rewrite (line_body_read_error _ _ E).
      eexists _, _. split; [reflexivity|]. right. right.
      split; [exact Hwb|].
      unfold error_loop1.
      cbn [error stderr name set_read_err set_error ERR eprintf set_hash set_blk].
      rewrite <- !app_assoc. split; reflexivity.
  - eexists _, _. split; [reflexivity|]. left. split; reflexivity.
Qed.

(** X8.  The diagnostics of Line mode.  Whatever the input holds and
    however reading it ends, the run of one input in Line mode does one of
    three things: it leaves the exit status and the diagnostic stream as
    they were; or it has met a failing primitive, sets the failure status
    and adds one [error hashing file: <name>] line; or it sets the failure
    status and adds one [error reading file: <name>] line.  The last
    happens only on a stream whose read fails with [EAGAIN], where [fgets]
    hands over the bytes read so far with the error indicator set: a read
    that fails for good makes [fgets] return NULL, the loop of line 221
    ends before the test of line 223, and the fault is not reported. *)
Theorem line_mode_reports_only_would_block_faults :
  forall argv s display is_stdin data e,
    outmode s = 2%Z \/ outmode s = 3%Z ->
    open_input argv s = Some (display, Some (fresh_stream (data, e)), is_stdin) ->
    exists s',
      do_body argv s = Some s' /\
      ((error s' = error s /\ stderr s' = stderr s) \/
       (error s' = EXIT_FAILURE /\
        stderr s' = stderr s ++ lit "error hashing file: " ++ display ++ [LF]) \/
       (e = WouldBlock /\ error s' = EXIT_FAILURE /\
        stderr s' = stderr s ++ lit "error reading file: " ++ display ++ [LF])).
Proof.
  clear VER VERDATE NO_AVX2 NO_SSE2.
  intros argv s display is_stdin data e Hmode Hopen.
  unfold do_body. rewrite open_input_set_hash, Hopen.
  rewrite hash_stream_line_mode by exact Hmode.
  destruct (line_loop_diagnostic
              (S (length (pending (fresh_stream (data, e)))))
              (set_name display (set_hash 0 s)) (fresh_stream (data, e)))
    as (s1 & fp1 & Hrun & Hd); [lia|reflexivity|].
  rewrite Hrun. eexists. split; [reflexivity|].
  cbn [error stderr name set_name set_hash ending_of fresh_stream snd] in Hd.
  destruct is_stdin; cbn [close_file error stderr set_argnum set_stdin]; exact Hd.
Qed.

Lemma length_text_of_lines (lines : list bytes) :
  length lines <= length (text_of_lines lines).
Proof.
  clear JODY_HASH_WIDTH jody_block_hash jody_rolling_block_hash VER VERDATE
        PATH_MAX NO_AVX2 NO_SSE2 fs.
  unfold text_of_lines. induction lines as [|l lines IH]; [apply Nat.le_refl|].
  cbn [map concat length]. rewrite !length_app. cbn [length]. lia.
Qed.

Lemma line_loop_prefix :
  forall lines fuel s fp rest,
    pending fp = text_of_lines lines ++ rest ->
    ferror fp = false -> feof fp = false ->
    Forall plain_line lines ->
    Forall (fun l => l <> [] -> fst (jody_block_hash l 0) = 0%Z) lines ->
    exists s1,
      line_loop (length lines + fuel) s fp
      = line_loop fuel s1 (mkFILE rest (ending_of fp) false false) /\
      same_control s s1 /\ stderr s1 = stderr s /\
      stdout s1 = stdout s ++ concat (map (line_record (outmode s)) lines).
Proof.
  clear jody_rolling_block_hash VER VERDATE PATH_MAX NO_AVX2 NO_SSE2 fs.
  induction lines as [|l lines IH]; intros fuel s fp rest Hp Herr Heof Hplain Hok.
  - exists s. cbn [length Nat.add map concat]. rewrite app_nil_r.
    split; [|split; [apply same_control_refl|split; reflexivity]].
    destruct fp as [p e f g]. cbn [pending ending_of] in *.
    cbn [text_of_lines map concat app] in Hp. cbn [feof ferror] in Herr, Heof.
    subst. reflexivity.
  - inversion Hplain as [|? ? Hl Hplain']; subst.
    inversion Hok as [|? ? Hrc Hok']; subst.
    destruct (plain_line_parts l Hl) as (Hnul & Hlf & Hlast & Hlen).
    assert (Hp' : pending fp = l ++ LF :: (text_of_lines lines ++ rest)).
    { rewrite Hp. unfold text_of_lines. cbn [map concat].
      rewrite <- !app_assoc. reflexivity. }
    cbn [length Nat.add line_loop].
    rewrite (fgets_terminated (blk s) fp l (text_of_lines lines ++ rest) Hp' Hlf)
      by lia.
    cbn [negb]. rewrite store_line, <- app_assoc. cbn [app].
    destruct l as [|x l].
    + rewrite line_body_skip; cbn [ferror blk set_blk app strlen]; trivial;
        [|destruct (Ascii.eqb LF NUL); cbn; lia].
      match goal with |- context [line_loop _ ?s1 ?fp1] =>
        destruct (IH fuel s1 fp1 rest) as (s' & Hrun & Hctl & Herr' & Hout')
      end; trivial.
      exists s'. split; [exact Hrun|].
      split; [eapply same_control_trans; [|exact Hctl]; repeat split|].
      split; [rewrite Herr'; reflexivity|].
      rewrite Hout'. reflexivity.
    + match goal with
      | |- context [line_body (set_blk ((x :: l) ++ LF :: NUL :: ?r) ?s0) ?fp0] =>
          destruct (line_body_plain (set_blk ((x :: l) ++ LF :: NUL :: r) s0) fp0
                      (x :: l) LF r)
            as (s1 & Hrun1 & Hctl1 & Herr1 & Hout1)
      end; trivial; try discriminate.
      * inversion Hlf; assumption.
      * apply Hrc. discriminate.
      * rewrite Hrun1. cbn [feof]. rewrite Heof.
        destruct (IH fuel s1 (mkFILE (text_of_lines lines ++ rest) (ending_of fp)
                                     false (ferror fp)) rest)
          as (s' & Hrun & Hctl & Herr' & Hout'); trivial.
        exists s'. split; [exact Hrun|].
        split; [eapply same_control_trans; [|exact Hctl]; exact Hctl1|].
        split; [rewrite Herr', Herr1; reflexivity|].
        rewrite Hout', Hout1. destruct Hctl1 as (_ & _ & _ & Hm & _).
        rewrite Hm. cbn [stdout outmode set_blk map concat line_record].
        rewrite <- !app_assoc. reflexivity.
Qed.

(** X19.  A read fault inside a line, in Line mode.  When the stream
    fails after some whole lines and some bytes of a further line, the
    records of the whole lines are printed and no record is printed for
    the bytes of the broken line.  If the read fails with [EAGAIN],
    [fgets] returns those bytes with the error indicator set and the test
    of line 223 reports [error reading file: <name>] with the failure
    status.  If the read fails for good, [fgets] returns NULL, the loop
    ends, and nothing is reported: the diagnostic stream and the exit
    status are left as they were. *)
Theorem read_fault_inside_a_line :
  forall argv s display is_stdin lines part e,
    outmode s = 2%Z \/ outmode s = 3%Z -> e <> EndOfFile ->
    open_input argv s
      = Some (display, Some (fresh_stream (text_of_lines lines ++ part, e)),
              is_stdin) ->
    Forall plain_line lines ->
    Forall (fun l => l <> [] -> fst (jody_block_hash l 0) = 0%Z) lines ->
    part <> [] -> Forall (fun x => x <> LF) part -> length part < BSIZE - 1 ->
    exists s',
      do_body argv s = Some s' /\
      stdout s' = stdout s ++ concat (map (line_record (outmode s)) lines) /\
      stderr s' =
        stderr s ++
        match e with
        | WouldBlock => lit "error reading file: " ++ display ++ [LF]
        | _ => []
        end /\
      error s' = match e with WouldBlock => EXIT_FAILURE | _ => error s end.
Proof.
  clear VER VERDATE NO_AVX2 NO_SSE2.
  intros argv s display is_stdin lines part e Hmode He Hopen Hplain Hok
         Hpart Hlf Hlen.
  unfold do_body. rewrite open_input_set_hash, Hopen.
  rewrite hash_stream_line_mode by exact Hmode.
  cbn [pending fresh_stream fst].
  pose proof (length_text_of_lines lines) as Hlines.
  replace (S (length (text_of_lines lines ++ part)))
    with (length lines + S (length (text_of_lines lines ++ part) - length lines))
    by (rewrite length_app; lia).
  destruct (line_loop_prefix lines
              (S (length (text_of_lines lines ++ part) - length lines))
              (set_name display (set_hash 0 s))
              (fresh_stream (text_of_lines lines ++ part, e)) part)
    as (s1 & Hrun & Hctl & Herr & Hout); trivial.
  rewrite Hrun. destruct Hctl as (Herror & Hname & _).
  cbn [error name stdout stderr outmode set_name set_hash] in Herror, Hname, Herr, Hout.
  cbn [line_loop ending_of fresh_stream snd]. unfold fgets.
  cbn [pending]. rewrite take_line_unterminated by assumption.
  cbn [ending_of]. destruct e; [contradiction He; reflexivity| |].
  - cbn [negb]. eexists. split; [reflexivity|].
    destruct is_stdin;
      cbn [close_file stdout stderr error set_argnum set_stdin set_blk];
      rewrite Hout, Herr, Herror, app_nil_r; auto.
  - destruct part as [|c part]; [congruence|].
    cbn [negb]. rewrite line_body_read_error by reflexivity.
    eexists. split; [reflexivity|].
    unfold error_loop1.
    destruct is_stdin;
      cbn [close_file stdout stderr error name set_argnum set_stdin set_blk
           set_read_err set_error ERR eprintf set_hash];
      rewrite Hout, Herr, Hname, <- ?app_assoc; auto.
Qed.





(** ** Runs of [main]: options, standard input, version and help *)

Lemma process_options_table (prog flag path : bytes) (rest : list bytes)
      (mode : Z) (s : state) :
  In (flag, mode) [(lit "-s", 1%Z); (lit "-b", 1%Z); (lit "-l", 2%Z);
                   (lit "-L", 3%Z); (lit "-n", 4%Z); (lit "-B", 5%Z);
                   (lit "-r", 6%Z); (lit "--", 0%Z)] ->
  outmode s = 0%Z ->
  process_options (prog :: flag :: path :: rest) s
  = set_argnum (S (argnum s)) (if (mode =? 0)%Z then s else set_outmode mode s) /\
  streq (lit "-v") flag = false /\ streq (lit "-h") flag = false /\
  streq (lit "--help") flag = false.
Proof.
  clear JODY_HASH_WIDTH jody_block_hash jody_rolling_block_hash VER VERDATE
        PATH_MAX NO_AVX2 NO_SSE2 fs.
  intros H Hm. cbn [In] in H.
  repeat (destruct H as [H|H];
          [inversion H; subst; unfold process_options;
           cbn [length nth Nat.ltb Nat.leb streq Ascii.eqb Bool.eqb andb orb lit
                list_ascii_of_string outmode set_outmode Z.ltb Z.compare Z.eqb];
           rewrite ?Hm; repeat split; reflexivity|]).
  contradiction.
Qed.

(** X11.  The option selects the format of the record.  For a command
    line [jodyhash <flag> <path>] on an input that is read and hashed
    without failure: [-s] and [-b] print the digest followed by [ *] and the
    name, [-n] the digest followed by a space and the name, [-r] the bare
    digest of the rolling primitive and [--] the bare digest.  The name
    printed is the argument cut to [PATH_MAX] bytes, while the file opened
    is the one the whole argument names.  After the option the argument is
    a file name whatever its spelling, [-v] and [-b] included; only [-]
    stands for standard input. *)
Theorem option_selects_record_format :
  forall prog flag mode path input data h,
    In (flag, mode) [(lit "-s", 1%Z); (lit "-b", 1%Z); (lit "-n", 4%Z);
                     (lit "-r", 6%Z); (lit "--", 0%Z)] ->
    path <> lit "-" -> fs path = Some (data, EndOfFile) ->
    fold_hash (if (mode =? 6)%Z then jody_rolling_block_hash else jody_block_hash)
              (blocks BSIZE data) 0 = Some h ->
    report (main [prog; flag; path] input)
    = Some (EXIT_SUCCESS,
            PRINTHASH h ++
            (if (mode =? 1)%Z then lit " *" ++ strncpy path PATH_MAX ++ [LF]
             else if (mode =? 4)%Z then lit " " ++ strncpy path PATH_MAX ++ [LF]
             else [LF]),
            concat (map notice (blocks BSIZE data))).
Proof.
  intros prog flag mode path input data h Hflag Hpath Hfile Hfold.
  assert (Hcase : mode = 0%Z \/ mode = 1%Z \/ mode = 4%Z \/ mode = 6%Z)
    by (cbn [In] in Hflag; intuition congruence).
  set (argv := [prog; flag; path]).
  set (s0 := initial_state input).
  destruct (process_options_table prog flag path [] mode s0)
    as (Hopt & Hv & Hh & Hhelp);
    [cbn [In] in *; intuition auto 10 | reflexivity |].
  set (s1 := set_argnum (S (argnum s0))
               (if (mode =? 0)%Z then s0 else set_outmode mode s0)) in *.
  assert (Hmode : outmode s1 = mode /\ error s1 = EXIT_SUCCESS /\ argnum s1 = 2 /\
                  stdout s1 = [] /\ stderr s1 = [] /\ read_err s1 = 0%Z).
  { cbn [In] in Hflag.
    repeat (destruct Hflag as [Hflag|Hflag];
            [inversion Hflag; subst; repeat split; reflexivity|]).
    contradiction. }
  destruct Hmode as (Hmode & He1 & Ha1 & Hout1 & Herr1 & Hre1).
  destruct (do_body_whole argv s1 (strncpy path PATH_MAX) false data EndOfFile h)
    as (s2 & Hb & Hout & Herr & He & Ha).
  - rewrite Hmode. exact Hcase.
  - exact Hre1.
  - unfold open_input, argv. cbn [length Nat.eqb]. rewrite Ha1. cbn [nth_error].
    rewrite streq_neq by congruence. unfold fopen. rewrite Hfile. reflexivity.
  - congruence.
  - unfold chunk_primitive. rewrite Hmode. exact Hfold.
  - unfold main. fold argv. fold s0. change (length argv) with 3.
    replace (nth 1 argv []) with flag by reflexivity.
    rewrite Hv, Hh, Hhelp. rewrite !andb_false_r. cbn [orb].
    unfold argv at 2. rewrite Hopt. fold argv.
    rewrite (do_loop_step _ _ _ _ Hb), Ha, Ha1. change (length argv) with 3.
    replace (3 <? 3) with false by reflexivity.
    unfold report. cbn [option_map fst snd].
    rewrite Hout, Herr, He, Hmode, He1, Hout1, Herr1. reflexivity.
Qed.

(** X12.  Standard input.  With no argument at all, and with the
    argument [-], the input is [stdin]: the file system is not consulted,
    the display name is [-], and on an input that is read and hashed
    without failure both command lines print the same digest line; under
    [-n] the record names the input [-]. *)
Theorem standard_input_run :
  forall prog data e h,
    (e <> EndOfFile -> exists m, length data = BSIZE * m) ->
    fold_hash jody_block_hash (blocks BSIZE data) 0 = Some h ->
    report (main [prog] (fresh_stream (data, e)))
    = Some (EXIT_SUCCESS, digest_line h, concat (map notice (blocks BSIZE data))) /\
    report (main [prog; lit "-"] (fresh_stream (data, e)))
    = Some (EXIT_SUCCESS, digest_line h, concat (map notice (blocks BSIZE data))) /\
    report (main [prog; lit "-n"; lit "-"] (fresh_stream (data, e)))
    = Some (EXIT_SUCCESS,
            PRINTHASH h ++ lit " " ++ strncpy (lit "-") PATH_MAX ++ [LF],
            concat (map notice (blocks BSIZE data))).
Proof.
  intros prog data e h Hend Hfold.
  set (s0 := initial_state (fresh_stream (data, e))).
  split; [|split].
  - destruct (do_body_whole [prog] s0 (strncpy (lit "-") PATH_MAX) true data e h)
      as (s1 & Hb & Hout & Herr & He & Ha); trivial; [left; reflexivity|].
    unfold main. fold s0. cbn [length Nat.ltb Nat.leb andb].
    replace (process_options [prog] s0) with s0 by reflexivity.
    rewrite (do_loop_step _ _ _ _ Hb), Ha.
    replace (S (argnum s0) <? length [prog]) with false by reflexivity.
    unfold report. cbn [option_map fst snd].
    rewrite Hout, Herr, He. reflexivity.
  - destruct (do_body_whole [prog; lit "-"] s0 (strncpy (lit "-") PATH_MAX) true data e h)
      as (s1 & Hb & Hout & Herr & He & Ha); trivial; [left; reflexivity|].
    unfold main. fold s0.
    replace (process_options [prog; lit "-"] s0) with s0 by reflexivity.
    replace ((1 <? length [prog; lit "-"]) && streq (lit "-v") (nth 1 [prog; lit "-"] []))
      with false by reflexivity.
    replace ((1 <? length [prog; lit "-"]) &&
             (streq (lit "-h") (nth 1 [prog; lit "-"] [])
              || streq (lit "--help") (nth 1 [prog; lit "-"] [])))
      with false by reflexivity.
    rewrite (do_loop_step _ _ _ _ Hb), Ha.
    replace (S (argnum s0) <? length [prog; lit "-"]) with false by reflexivity.
    unfold report. cbn [option_map fst snd].
    rewrite Hout, Herr, He. reflexivity.
  - set (argv := [prog; lit "-n"; lit "-"]).
    set (s1 := set_argnum 2 (set_outmode 4 s0)).
    destruct (do_body_whole argv s1 (strncpy (lit "-") PATH_MAX) true data e h)
      as (s2 & Hb & Hout & Herr & He & Ha); trivial;
      [right; right; left; reflexivity|].
    unfold main. fold s0. fold argv.
    replace (process_options argv s0) with s1 by reflexivity.
    replace ((1 <? length argv) && streq (lit "-v") (nth 1 argv []))
      with false by reflexivity.
    replace ((1 <? length argv) &&
             (streq (lit "-h") (nth 1 argv []) || streq (lit "--help") (nth 1 argv [])))
      with false by reflexivity.
    rewrite (do_loop_step _ _ _ _ Hb), Ha.
    replace (S (argnum s1) <? length argv) with false by reflexivity.
    unfold report. cbn [option_map fst snd].
    rewrite Hout, Herr, He. reflexivity.
Qed.

(** ** One input after another: what a state carries over

    Two runs of a loop that start in states with the same mode, display
    name and digest print the same text, whatever the buffer, the output so
    far and the exit status that earlier inputs left behind. *)

Lemma same_gain_refl (s1 s2 : state) : same_gain s1 s1 s2 s2.
Proof.
  clear JODY_HASH_WIDTH jody_block_hash jody_rolling_block_hash VER VERDATE
        PATH_MAX NO_AVX2 NO_SSE2 fs.
  exists [], []. rewrite !app_nil_r. repeat split. left. split; reflexivity.
Qed.

Lemma same_gain_trans (s1 t1 u1 s2 t2 u2 : state) :
  same_gain s1 t1 s2 t2 -> same_gain t1 u1 t2 u2 -> same_gain s1 u1 s2 u2.
Proof.
  clear JODY_HASH_WIDTH jody_block_hash jody_rolling_block_hash VER VERDATE
        PATH_MAX NO_AVX2 NO_SSE2 fs.
  intros (o1 & e1 & A1 & A2 & A3 & A4 & A5) (o2 & e2 & B1 & B2 & B3 & B4 & B5).
  exists (o1 ++ o2), (e1 ++ e2).
  rewrite B1, B2, B3, B4, A1, A2, A3, A4, !app_assoc.
  repeat split.
  destruct B5 as [[E1 E2]|[E1 E2]]; [|right; split; assumption].
  destruct A5 as [[F1 F2]|[F1 F2]]; [left|right]; split; congruence.
Qed.

Lemma subblock_loop_alike :
  forall fuel s1 s2 i kblk s1' s2',
    outmode s1 = outmode s2 -> name s1 = name s2 -> hash s1 = hash s2 ->
    read_err s1 = read_err s2 ->
    firstn i (skipn (kblk * kbsize) (blk s1))
    = firstn i (skipn (kblk * kbsize) (blk s2)) ->
    subblock_loop fuel s1 i kblk = Some s1' ->
    subblock_loop fuel s2 i kblk = Some s2' ->
    outmode s1' = outmode s2' /\ name s1' = name s2' /\ hash s1' = hash s2' /\
    read_err s1' = read_err s2' /\ same_gain s1 s1' s2 s2'.
Proof.
  clear jody_rolling_block_hash VER VERDATE PATH_MAX NO_AVX2 NO_SSE2 fs.
  induction fuel as [|fuel IH];
    intros s1 s2 i kblk s1' s2' Hm Hn Hh Hr Hreg H1 H2; [discriminate|].
  cbn [subblock_loop] in H1, H2.
  destruct (Nat.eqb_spec i 0) as [Hi|Hi].
  - apply Some_inj in H1, H2; subst s1' s2'.
    repeat split; trivial. apply same_gain_refl.
  - rewrite elements_kboffsize in H1, H2. cbn [blk hash set_hash] in H1, H2.
    set (kbdrop := if kbsize <? i then kbsize else i) in *.
    assert (Hdrop : kbdrop = Nat.min kbsize i)
      by (unfold kbdrop; destruct (Nat.ltb_spec kbsize i); lia).
    assert (Hd : firstn kbdrop (skipn (kblk * kbsize) (blk s2))
                 = firstn kbdrop (skipn (kblk * kbsize) (blk s1))).
    { rewrite Hdrop, <- !firstn_firstn, Hreg. reflexivity. }
    rewrite Hd in H2.
    set (r := jody_block_hash (firstn kbdrop (skipn (kblk * kbsize) (blk s1))) 0) in *.
    destruct (negb (fst r =? 0)%Z).
    + apply Some_inj in H1, H2; subst s1' s2'.
      cbn [outmode name hash read_err set_read_err set_error ERR eprintf set_hash].
      repeat split; trivial.
      exists [], (lit "error hashing file: " ++ name s1 ++ [LF]).
      cbn [stdout stderr error name set_read_err set_error ERR eprintf set_hash].
      rewrite <- Hn, !app_nil_r, <- !app_assoc. repeat split. right. split; reflexivity.
    + assert (Hrest : forall b : bytes,
                 firstn (i - kbdrop) (skipn (S kblk * kbsize) b)
                 = skipn kbsize (firstn i (skipn (kblk * kbsize) b))).
      { intros b. rewrite skipn_firstn_comm, skipn_skipn.
        cbn [Nat.mul]. f_equal. lia. }
      assert (Hreg' : firstn (i - kbdrop) (skipn (S kblk * kbsize) (blk s1))
                      = firstn (i - kbdrop) (skipn (S kblk * kbsize) (blk s2)))
        by (rewrite !Hrest, Hreg; reflexivity).
      match type of H1 with subblock_loop fuel ?t1 _ _ = _ =>
        match type of H2 with subblock_loop fuel ?t2 _ _ = _ =>
          destruct (IH t1 t2 _ _ _ _ Hm Hn eq_refl Hr Hreg' H1 H2)
            as (Hm' & Hn' & Hh' & Hr' & Hg)
        end
      end.
      repeat split; trivial.
      eapply same_gain_trans; [|exact Hg].
      exists (PRINTHASH (snd r) ++ [LF]), [].
      cbn [stdout stderr error printf set_hash].
      rewrite !app_nil_r, <- !app_assoc. repeat split. left. split; reflexivity.
Qed.

Lemma chunk_loop_alike :
  forall fuel s1 s2 fp s1' fp1 s2' fp2,
    outmode s1 = outmode s2 -> name s1 = name s2 -> hash s1 = hash s2 ->
    read_err s1 = read_err s2 ->
    chunk_loop fuel s1 fp = Some (s1', fp1) ->
    chunk_loop fuel s2 fp = Some (s2', fp2) ->
    outmode s1' = outmode s2' /\ name s1' = name s2' /\ hash s1' = hash s2' /\
    read_err s1' = read_err s2' /\ same_gain s1 s1' s2 s2'.
Proof.
  clear VER VERDATE PATH_MAX NO_AVX2 NO_SSE2 fs.
  induction fuel as [|fuel IH];
    intros s1 s2 fp s1' fp1 s2' fp2 Hm Hn Hh Hr H1 H2; [discriminate|].
  cbn [chunk_loop] in H1, H2.
  destruct (fread BSIZE fp) as [data fp'].
  destruct (Nat.eqb_spec (length data) 0) as [E0|E0].
  - apply Some_fst_inj in H1, H2; subst s1' s2'.
    repeat split; trivial. exact (same_gain_refl s1 s2).
  - destruct (ferror fp').
    + apply Some_fst_inj in H1, H2; subst s1' s2'.
      cbn [outmode name hash read_err set_read_err set_error ERR eprintf set_blk].
      repeat split; trivial.
      exists [], (name s1 ++ [LF]).
      cbn [stdout stderr error name set_read_err set_error ERR eprintf set_blk].
      rewrite <- Hn, !app_nil_r. repeat split. right. split; reflexivity.
    + cbn [outmode set_blk] in H1, H2. rewrite <- Hm in H2.
      destruct (outmode s1 =? 5)%Z.
      * destruct (subblock_loop (S (length data)) (set_blk (store data (blk s1)) s1)
                                (length data) 0) as [t1|] eqn:E1; [|discriminate].
        destruct (subblock_loop (S (length data)) (set_blk (store data (blk s2)) s2)
                                (length data) 0) as [t2|] eqn:E2; [|discriminate].
        cbn [option_map] in H1, H2.
        assert (Hreg : firstn (length data)
                         (skipn (0 * kbsize) (blk (set_blk (store data (blk s1)) s1)))
                       = firstn (length data)
                           (skipn (0 * kbsize) (blk (set_blk (store data (blk s2)) s2))))
          by (cbn [blk set_blk]; rewrite !region_of_store; reflexivity).
        destruct (subblock_loop_alike
                    (S (length data)) (set_blk (store data (blk s1)) s1)
                    (set_blk (store data (blk s2)) s2) (length data) 0 t1 t2
                    Hm Hn Hh Hr Hreg E1 E2)
          as (Hm' & Hn' & Hh' & Hr' & Hg).
        destruct (feof fp').
        -- apply Some_fst_inj in H1, H2; subst s1' s2'. repeat split; trivial.
        -- destruct (IH _ _ _ _ _ _ _ Hm' Hn' Hh' Hr' H1 H2)
             as (Hm2 & Hn2 & Hh2 & Hr2 & Hg2).
           repeat split; trivial.
           eapply same_gain_trans; [exact Hg|exact Hg2].
      * unfold hash_chunk in H1, H2. cbv zeta in H1, H2.
        cbn [outmode blk hash eprintf set_blk] in H1, H2.
        rewrite !firstn_store, !firstn_all, <- Hm, <- Hh in H2 by lia.
        rewrite !firstn_store, !firstn_all in H1 by lia.
        set (r := if (outmode s1 =? 6)%Z
                  then jody_rolling_block_hash data (hash s1)
                  else jody_block_hash data (hash s1)) in *.
        assert (Hg : forall v,
                   same_gain s1
                     (set_hash v (eprintf (lit "doing a rolling hash of "
                                           ++ dec (length data) ++ lit " bytes" ++ [LF])
                                    (set_blk (store data (blk s1)) s1)))
                     s2
                     (set_hash v (eprintf (lit "doing a rolling hash of "
                                           ++ dec (length data) ++ lit " bytes" ++ [LF])
                                    (set_blk (store data (blk s2)) s2)))).
        { intros v.
          exists [], (lit "doing a rolling hash of " ++ dec (length data)
                      ++ lit " bytes" ++ [LF]).
          cbn [stdout stderr error set_hash eprintf set_blk].
          rewrite !app_nil_r. repeat split. left. split; reflexivity. }
        destruct (negb (fst r =? 0)%Z).
        -- apply Some_fst_inj in H1, H2; subst s1' s2'.
           cbn [outmode name hash read_err set_read_err set_error ERR eprintf
                set_hash set_blk].
           repeat split; trivial.
           eapply same_gain_trans; [apply (Hg (snd r))|].
           exists [], (lit "error hashing file: " ++ name s1 ++ [LF]).
           cbn [stdout stderr error name set_read_err set_error ERR eprintf
                set_hash set_blk].
           rewrite <- Hn, !app_nil_r, <- !app_assoc. repeat split.
           right. split; reflexivity.
        -- destruct (feof fp').
           ++ apply Some_fst_inj in H1, H2; subst s1' s2'.
              cbn [outmode name hash read_err eprintf set_hash set_blk].
              repeat split; trivial.
           ++ match type of H1 with chunk_loop fuel ?t1 _ = _ =>
                match type of H2 with chunk_loop fuel ?t2 _ = _ =>
                  destruct (IH t1 t2 _ _ _ _ _ Hm Hn eq_refl Hr H1 H2)
                    as (Hm2 & Hn2 & Hh2 & Hr2 & Hg2)
                end
              end.
              repeat split; trivial.
              eapply same_gain_trans; [apply (Hg (snd r))|exact Hg2].
Qed.

Lemma nul_split (l : bytes) :
  exists t u, Forall (fun x => x <> NUL) t /\ l ++ [NUL] = t ++ NUL :: u.
Proof.
  clear JODY_HASH_WIDTH jody_block_hash jody_rolling_block_hash VER VERDATE
        PATH_MAX NO_AVX2 NO_SSE2 fs.
  induction l as [|c l (t & u & Ht & E)].
  - exists [], []. split; [constructor|reflexivity].
  - destruct (Ascii.eqb_spec c NUL) as [->|Hc].
    + exists [], (l ++ [NUL]). split; [constructor|reflexivity].
    + exists (c :: t), u. split; [constructor; assumption|].
      cbn [app]. rewrite E. reflexivity.
Qed.

Lemma fgets_alike (buf1 buf2 : bytes) (n : nat) (fp : FILE) :
  fst (fst (fgets buf1 n fp)) = fst (fst (fgets buf2 n fp)) /\
  snd (fgets buf1 n fp) = snd (fgets buf2 n fp) /\
  (fst (fst (fgets buf1 n fp)) = true ->
   exists t w1 w2,
     Forall (fun x => x <> NUL) t /\
     snd (fst (fgets buf1 n fp)) = t ++ NUL :: w1 /\
     snd (fst (fgets buf2 n fp)) = t ++ NUL :: w2).
Proof.
  clear JODY_HASH_WIDTH jody_block_hash jody_rolling_block_hash VER VERDATE
        PATH_MAX NO_AVX2 NO_SSE2 fs.
  assert (Hstore : forall l,
             exists t w1 w2,
               Forall (fun x => x <> NUL) t /\
               store (l ++ [NUL]) buf1 = t ++ NUL :: w1 /\
               store (l ++ [NUL]) buf2 = t ++ NUL :: w2).
  { intros l. destruct (nul_split l) as (t & u & Ht & E).
    exists t, (u ++ skipn (length (l ++ [NUL])) buf1),
           (u ++ skipn (length (l ++ [NUL])) buf2).
    split; [exact Ht|]. unfold store. rewrite E, <- !app_assoc. split; reflexivity. }
  unfold fgets. destruct (take_line (n - 1) (pending fp)) as [[l r] e].
  destruct e; [destruct (ending_of fp); [destruct l| |destruct l]|];
    cbn [fst snd]; repeat split; try discriminate; intros _; apply Hstore.
Qed.

Lemma line_body_alike (s1 s2 : state) (fp : FILE) (t w1 w2 : bytes) :
  outmode s1 = outmode s2 -> name s1 = name s2 ->
  blk s1 = t ++ NUL :: w1 -> blk s2 = t ++ NUL :: w2 ->
  Forall (fun x => x <> NUL) t ->
  snd (line_body s1 fp) = snd (line_body s2 fp) /\
  same_gain s1 (fst (line_body s1 fp)) s2 (fst (line_body s2 fp)).
Proof.
  clear jody_rolling_block_hash VER VERDATE PATH_MAX NO_AVX2 NO_SSE2 fs.
  intros Hm Hn Hb1 Hb2 Ht.
  assert (Hskip : same_gain s1 (set_hash 0 s1) s2 (set_hash 0 s2))
    by exact (same_gain_refl s1 s2).
  assert (Hfail : forall (what : bytes) (b1 b2 : bytes) (v : Z),
             same_gain s1
               (error_loop1 (eprintf what (set_hash v (set_blk b1 (set_hash 0 s1)))))
               s2
               (error_loop1 (eprintf what (set_hash v (set_blk b2 (set_hash 0 s2)))))).
  { intros what b1 b2 v. exists [], (what ++ name s1 ++ [LF]).
    unfold error_loop1.
    cbn [stdout stderr error name set_read_err set_error ERR eprintf set_hash set_blk].
    rewrite <- Hn, !app_nil_r, <- !app_assoc. repeat split. right. split; reflexivity. }
  assert (Hprint : forall (b1 b2 : bytes) (v : Z) (text : bytes),
             same_gain s1
               (printf text (printf (PRINTHASH v)
                               (set_hash v (set_blk b1 (set_hash 0 s1)))))
               s2
               (printf text (printf (PRINTHASH v)
                               (set_hash v (set_blk b2 (set_hash 0 s2)))))).
  { intros b1 b2 v text. exists (PRINTHASH v ++ text), [].
    cbn [stdout stderr error printf set_hash set_blk].
    rewrite !app_nil_r, <- !app_assoc. repeat split. left. split; reflexivity. }
  unfold line_body. cbn [blk set_hash hash]. rewrite Hb1, Hb2.
  rewrite !strlen_line by assumption.
  destruct (ferror fp).
  { split; [reflexivity|]. cbn [fst].
    apply (Hfail (lit "error reading file: ") (blk s1) (blk s2) 0%Z). }
  destruct (Nat.ltb_spec (length t) 2) as [Hlt|Hge]; cbn [orb].
  { split; [reflexivity|exact Hskip]. }
  assert (Hne : t <> []) by (intros E; rewrite E in Hge; cbn in Hge; lia).
  destruct (exists_last Hne) as (T & c & ->).
  assert (HT : T <> [])
    by (intros E; rewrite E in Hge; cbn in Hge; lia).
  destruct (exists_last HT) as (T' & d & ->).
  apply Forall_app in Ht. destruct Ht as [Ht _].
  pose proof Ht as Ht'. apply Forall_app in Ht'. destruct Ht' as [Ht' _].
  assert (Hp0 : forall w, peek 0 (((T' ++ [d]) ++ [c]) ++ NUL :: w)
                          = peek 0 (T' ++ [d]))
    by (intros w; destruct T'; reflexivity).
  rewrite !Hp0.
  destruct (Ascii.eqb (peek 0 (T' ++ [d])) LF).
  { split; [reflexivity|exact Hskip]. }
  replace (length ((T' ++ [d]) ++ [c]) - 2) with (length T')
    by (rewrite !length_app; cbn [length]; lia).
  replace (length ((T' ++ [d]) ++ [c]) - 1) with (length (T' ++ [d]))
    by (rewrite !length_app; cbn [length]; lia).
  assert (Hd : forall w, peek (length T') (((T' ++ [d]) ++ [c]) ++ NUL :: w) = d)
    by (intros w; rewrite <- !app_assoc; cbn [app]; apply peek_middle).
  rewrite !Hd.
  destruct (Ascii.eqb d CR).
  - cbn [blk set_blk hash set_hash outmode].
    assert (Hpoke : forall w,
               poke (length T') NUL (((T' ++ [d]) ++ [c]) ++ NUL :: w)
               = (T' ++ [NUL]) ++ c :: NUL :: w)
      by (intros w; rewrite <- !app_assoc; cbn [app]; apply poke_middle).
    rewrite !Hpoke.
    replace (length (T' ++ [d])) with (length (T' ++ [NUL]))
      by (rewrite !length_app; reflexivity).
    rewrite !firstn_exact.
    set (r := jody_block_hash (T' ++ [NUL]) 0).
    destruct (negb (fst r =? 0)%Z).
    + split; [reflexivity|]. cbn [fst]. apply Hfail.
    + split; [reflexivity|]. cbn [fst printf outmode blk set_hash set_blk hash].
      rewrite <- Hm.
      rewrite <- !(app_assoc T' [NUL]). cbn [app].
      rewrite !cstring_line by assumption.
      destruct (outmode s1 =? 3)%Z; apply Hprint.
  - cbn [blk set_blk hash set_hash outmode].
    rewrite <- !(app_assoc (T' ++ [d]) [c]). cbn [app].
    rewrite !poke_middle, !firstn_exact.
    set (r := jody_block_hash (T' ++ [d]) 0).
    destruct (negb (fst r =? 0)%Z).
    + split; [reflexivity|]. cbn [fst]. apply Hfail.
    + split; [reflexivity|]. cbn [fst printf outmode blk set_hash set_blk hash].
      rewrite <- Hm.
      rewrite !cstring_line by assumption.
      destruct (outmode s1 =? 3)%Z; apply Hprint.
Qed.

Lemma line_loop_alike :
  forall fuel s1 s2 fp s1' fp1 s2' fp2,
    outmode s1 = outmode s2 -> name s1 = name s2 ->
    line_loop fuel s1 fp = Some (s1', fp1) ->
    line_loop fuel s2 fp = Some (s2', fp2) ->
    same_gain s1 s1' s2 s2'.
Proof.
  clear jody_rolling_block_hash VER VERDATE PATH_MAX NO_AVX2 NO_SSE2 fs.
  induction fuel as [|fuel IH];
    intros s1 s2 fp s1' fp1 s2' fp2 Hm Hn H1 H2; [discriminate|].
  cbn [line_loop] in H1, H2.
  destruct (fgets_alike (blk s1) (blk s2) BSIZE fp) as (Hgot & Hfp & Hbuf).
  destruct (fgets (blk s1) BSIZE fp) as [[g1 b1] f1].
  destruct (fgets (blk s2) BSIZE fp) as [[g2 b2] f2].
  cbn [fst snd] in Hgot, Hfp, Hbuf. subst g2 f2.
  destruct g1; cbn [negb] in H1, H2.
  - destruct (Hbuf eq_refl) as (t & w1 & w2 & Ht & E1 & E2).
    destruct (line_body_alike (set_blk b1 s1) (set_blk b2 s2) f1 t w1 w2)
      as (Hflag & Hg); trivial.
    pose proof (line_body_frame (set_blk b1 s1) f1) as (Hm1 & Hn1 & _).
    pose proof (line_body_frame (set_blk b2 s2) f1) as (Hm2 & Hn2 & _).
    destruct (line_body (set_blk b1 s1) f1) as [u1 br1].
    destruct (line_body (set_blk b2 s2) f1) as [u2 br2].
    cbn [fst snd outmode name set_blk] in Hflag, Hg, Hm1, Hn1, Hm2, Hn2.
    subst br2.
    destruct br1.
    + apply Some_fst_inj in H1, H2; subst s1' s2'. exact Hg.
    + eapply same_gain_trans; [exact Hg|].
      apply (IH u1 u2 f1 s1' fp1 s2' fp2); congruence.
  - apply Some_fst_inj in H1, H2; subst s1' s2'. exact (same_gain_refl s1 s2).
Qed.

Lemma hash_stream_alike (s1 s2 : state) (fp : FILE)
      (s1' s2' : state) (fp1 fp2 : FILE) :
  outmode s1 = outmode s2 -> name s1 = name s2 -> hash s1 = hash s2 ->
  outmode s1 = 2%Z \/ outmode s1 = 3%Z \/ read_err s1 = read_err s2 ->
  hash_stream s1 fp = Some (s1', fp1) ->
  hash_stream s2 fp = Some (s2', fp2) ->
  same_gain s1 s1' s2 s2'.
Proof.
  clear VER VERDATE PATH_MAX NO_AVX2 NO_SSE2 fs.
  intros Hm Hn Hh Hr H1 H2. unfold hash_stream in H1, H2. rewrite <- Hm in H2.
  destruct ((outmode s1 =? 2)%Z || (outmode s1 =? 3)%Z) eqn:Hline.
  - eapply line_loop_alike; eassumption.
  - assert (Hr' : read_err s1 = read_err s2).
    { destruct Hr as [E|[E|E]]; [rewrite E in Hline| rewrite E in Hline|exact E];
        discriminate. }
    destruct (chunk_loop (S (length (pending fp))) s1 fp) as [[t1 g1]|] eqn:E1;
      [|discriminate].
    destruct (chunk_loop (S (length (pending fp))) s2 fp) as [[t2 g2]|] eqn:E2;
      [|discriminate].
    destruct (chunk_loop_alike _ _ _ _ _ _ _ _ Hm Hn Hh Hr' E1 E2)
      as (Hm' & Hn' & Hh' & Hr2 & Hg).
    cbv zeta in H1, H2. rewrite <- Hr2 in H2.
    destruct (read_err t1 =? 1)%Z.
    + apply Some_fst_inj in H1, H2; subst s1' s2'. exact Hg.
    + eapply same_gain_trans; [exact Hg|].
      rewrite <- Hm' in H2.
      destruct (negb (outmode t1 =? 5)%Z);
        cbn [outmode name printf] in H1, H2;
        rewrite <- ?Hm', <- ?Hn', <- ?Hh' in H2;
        (destruct (outmode t1 =? 1)%Z; [|destruct (outmode t1 =? 4)%Z]);
        apply Some_fst_inj in H1, H2; subst s1' s2';
        (eexists _, []; cbn [stdout stderr error printf];
         rewrite <- ?app_assoc; repeat split;
         rewrite ?app_nil_r; try reflexivity; left; split; reflexivity).
Qed.

Lemma do_body_alike (argv1 argv2 : list bytes) (s1 s2 s1' s2' : state) (p : bytes) :
  outmode s1 = outmode s2 ->
  outmode s1 = 2%Z \/ outmode s1 = 3%Z \/ read_err s1 = read_err s2 ->
  length argv1 <> 1 -> length argv2 <> 1 ->
  nth_error argv1 (argnum s1) = Some p -> nth_error argv2 (argnum s2) = Some p ->
  p <> lit "-" ->
  do_body argv1 s1 = Some s1' -> do_body argv2 s2 = Some s2' ->
  same_gain s1 s1' s2 s2'.
Proof.
  clear VER VERDATE NO_AVX2 NO_SSE2.
  intros Hm Hr Hl1 Hl2 Hp1 Hp2 Hp H1 H2.
  unfold do_body in H1, H2. rewrite open_input_set_hash in H1, H2.
  unfold open_input in H1, H2.
  destruct (Nat.eqb_spec (length argv1) 1) as [E|_]; [contradiction|].
  destruct (Nat.eqb_spec (length argv2) 1) as [E|_]; [contradiction|].
  rewrite Hp1 in H1. rewrite Hp2 in H2.
  rewrite streq_neq in H1, H2 by congruence.
  destruct (fopen p) as [fp|].
  - destruct (hash_stream (set_name (strncpy p PATH_MAX) (set_hash 0 s1)) fp)
      as [[t1 g1]|] eqn:E1; [|discriminate].
    destruct (hash_stream (set_name (strncpy p PATH_MAX) (set_hash 0 s2)) fp)
      as [[t2 g2]|] eqn:E2; [|discriminate].
    apply Some_inj in H1, H2; subst s1' s2'.
    destruct (hash_stream_alike
                (set_name (strncpy p PATH_MAX) (set_hash 0 s1))
                (set_name (strncpy p PATH_MAX) (set_hash 0 s2))
                fp t1 t2 g1 g2 Hm eq_refl eq_refl Hr E1 E2)
      as (out & err & A1 & A2 & A3 & A4 & A5).
    exists out, err. cbn [close_file stdout stderr error set_argnum].
    repeat split; assumption.
  - apply Some_inj in H1, H2; subst s1' s2'.
    exists [], (lit "error: cannot open: " ++ strncpy p PATH_MAX ++ [LF]).
    cbn [stdout stderr error name set_argnum set_error ERR eprintf set_name set_hash].
    rewrite !app_nil_r, <- !app_assoc. repeat split. right. split; reflexivity.
Qed.

Lemma do_loop_gains (argv0 : bytes -> list bytes) (s0 : state) :
  (forall p, length (argv0 p) <> 1 /\ nth_error (argv0 p) (argnum s0) = Some p) ->
  stdout s0 = [] -> stderr s0 = [] -> error s0 = EXIT_SUCCESS ->
  read_err s0 = 0%Z ->
  forall paths pre s fuel,
    paths <> [] -> Forall (fun p => p <> lit "-") paths ->
    0 < length pre -> argnum s = length pre -> length paths <= fuel ->
    outmode s = outmode s0 ->
    outmode s = 2%Z \/ outmode s = 3%Z \/ read_err s = 0%Z ->
    exists outs s',
      Forall2 (fun p o => exists s0',
                   do_body (argv0 p) s0 = Some s0' /\
                   o = (error s0', stdout s0', stderr s0')) paths outs /\
      do_loop fuel (pre ++ paths) s = Some s' /\
      stdout s' = stdout s ++ concat (map (fun o => snd (fst o)) outs) /\
      stderr s' = stderr s ++ concat (map snd outs) /\
      error s' = (if forallb (fun o => (fst (fst o) =? EXIT_SUCCESS)%Z) outs
                  then error s else EXIT_FAILURE).
Proof.
  clear VER VERDATE NO_AVX2 NO_SSE2.
  intros Hargv0 Hout0 Herr0 He0 Hre0.
  induction paths as [|p rest IH];
    intros pre s fuel Hne Hdash Hpre Harg Hfuel Hm Hre; [congruence|].
  destruct fuel as [|fuel]; [cbn [length] in Hfuel; lia|].
  inversion Hdash as [|? ? Hp Hdash']; subst.
  destruct (Hargv0 p) as (Hl0 & Hp0).
  assert (Hl : length (pre ++ p :: rest) <> 1)
    by (rewrite length_app; cbn [length]; lia).
  assert (Hnth : nth_error (pre ++ p :: rest) (argnum s) = Some p)
    by (rewrite Harg, nth_error_app2, Nat.sub_diag by lia; reflexivity).
  assert (Hopen : forall argv t,
             length argv <> 1 -> nth_error argv (argnum t) = Some p ->
             open_input argv t <> None).
  { intros argv t Hla Hpa. unfold open_input.
    destruct (Nat.eqb_spec (length argv) 1) as [E|_]; [contradiction|].
    rewrite Hpa, streq_neq by congruence. discriminate. }
  destruct (do_body_returns (pre ++ p :: rest) s (Hopen _ _ Hl Hnth))
    as (s1 & Hb1 & Hm1 & Ha1 & Hre1).
  destruct (do_body_returns (argv0 p) s0 (Hopen _ _ Hl0 Hp0))
    as (s0' & Hb0 & _).
  destruct (do_body_alike (pre ++ p :: rest) (argv0 p) s s0 s1 s0' p)
    as (out & err & A1 & A2 & A3 & A4 & A5); trivial.
  { destruct Hre as [E|[E|E]]; [auto|auto|right; right; congruence]. }
  rewrite Hout0 in A2. rewrite Herr0 in A4. cbn [app] in A2, A4.
  rewrite He0 in A5.
  assert (He1 : error s1 = (if (error s0' =? EXIT_SUCCESS)%Z
                            then error s else EXIT_FAILURE)).
  { destruct A5 as [[E1 E2]|[E1 E2]]; rewrite E2; [exact E1|rewrite E1; reflexivity]. }
  cbn [do_loop]. rewrite Hb1, Ha1, Harg.
  destruct rest as [|q rest].
  - exists [(error s0', stdout s0', stderr s0')], s1.
    split; [constructor; [exists s0'; split; trivial|constructor]|].
    replace (S (length pre) <? length (pre ++ [p])) with false
      by (symmetry; apply Nat.ltb_ge; rewrite length_app; cbn [length]; lia).
    split; [reflexivity|].
    cbn [map concat forallb fst snd]. rewrite !app_nil_r, andb_true_r, A2, A4.
    repeat split; assumption.
  - replace (S (length pre) <? length (pre ++ p :: q :: rest)) with true
      by (symmetry; apply Nat.ltb_lt; rewrite length_app; cbn [length]; lia).
    destruct (IH (pre ++ [p]) s1 fuel) as (outs & s' & HF & Hrun & Ho & Hr & He);
      trivial.
    + discriminate.
    + rewrite length_app. cbn [length]. lia.
    + rewrite length_app, Ha1, Harg. cbn [length]. lia.
    + cbn [length] in Hfuel |- *. lia.
    + congruence.
    + rewrite Hm1.
      destruct (Z.eq_dec (outmode s) 2) as [E2|E2]; [auto|].
      destruct (Z.eq_dec (outmode s) 3) as [E3|E3]; [auto|].
      right. right. apply Hre1; trivial. destruct Hre as [E|[E|E]]; tauto.
    + exists ((error s0', stdout s0', stderr s0') :: outs), s'.
      split; [constructor; [exists s0'; split; trivial|exact HF]|].
      split; [rewrite <- app_assoc in Hrun; exact Hrun|].
      cbn [map concat forallb fst snd].
      rewrite Ho, Hr, He, A1, A3, A2, A4, He1, <- !app_assoc.
      repeat split.
      destruct (error s0' =? EXIT_SUCCESS)%Z; cbn [andb]; [reflexivity|].
      destruct (forallb _ outs); reflexivity.
Qed.

(** X16.  Inputs are processed independently.  A run on several files is
    the runs on each of them, one after the other: for a command line
    [jodyhash <flag> <path> ... <path>] with any of the mode options (or
    [--]) and any number of paths other than [-], the standard output is
    the concatenation of what [jodyhash <flag> <path>] prints for each
    path, in order, the diagnostic stream likewise, and the exit status is
    the failure status exactly when one of those runs fails.  This holds
    for every file system, every way the files end and every behaviour of
    the primitives: the buffer, the digest, the name and [read_err] that
    one input leaves behind have no effect on the next. *)
Theorem inputs_are_processed_independently :
  forall prog flag paths input,
    In flag (map lit ["-s"; "-b"; "-l"; "-L"; "-n"; "-B"; "-r"; "--"]%string) ->
    paths <> [] -> Forall (fun p => p <> lit "-") paths ->
    exists outs,
      Forall2 (fun p o => report (main [prog; flag; p] input) = Some o) paths outs /\
      report (main (prog :: flag :: paths) input)
      = Some (if forallb (fun o => (fst (fst o) =? EXIT_SUCCESS)%Z) outs
              then EXIT_SUCCESS else EXIT_FAILURE,
              concat (map (fun o => snd (fst o)) outs),
              concat (map snd outs)).
Proof.
  intros prog flag paths input Hflag Hne Hdash.
  assert (Hmode : exists mode,
             In (flag, mode) [(lit "-s", 1%Z); (lit "-b", 1%Z); (lit "-l", 2%Z);
                              (lit "-L", 3%Z); (lit "-n", 4%Z); (lit "-B", 5%Z);
                              (lit "-r", 6%Z); (lit "--", 0%Z)]).
  { cbn [map In] in Hflag. cbn [In].
    repeat (destruct Hflag as [<-|Hflag]; [eexists; auto 10; fail|]).
    contradiction. }
  destruct Hmode as (mode & Hmode).
  set (s0 := set_argnum 2 (if (mode =? 0)%Z then initial_state input
                           else set_outmode mode (initial_state input))).
  assert (Hopt : forall p rest,
             process_options (prog :: flag :: p :: rest) (initial_state input) = s0 /\
             streq (lit "-v") flag = false /\ streq (lit "-h") flag = false /\
             streq (lit "--help") flag = false).
  { intros p rest.
    apply (process_options_table prog flag p rest mode (initial_state input) Hmode).
    reflexivity. }
  assert (Hs0 : stdout s0 = [] /\ stderr s0 = [] /\ error s0 = EXIT_SUCCESS /\
                read_err s0 = 0%Z /\ argnum s0 = 2).
  { unfold s0. destruct (mode =? 0)%Z; repeat split. }
  destruct Hs0 as (Hout0 & Herr0 & He0 & Hre0 & Ha0).
  assert (Hmain : forall p rest s',
             do_loop (S (length (prog :: flag :: p :: rest)))
                     (prog :: flag :: p :: rest) s0 = Some s' ->
             report (main (prog :: flag :: p :: rest) input)
             = Some (error s', stdout s', stderr s')).
  { intros p rest s' Hrun. unfold main.
    destruct (Hopt p rest) as (Ho & Hv & Hh & Hhelp).
    cbn [nth]. rewrite Hv, Hh, Hhelp, !andb_false_r. cbn [orb].
    rewrite Ho, Hrun. reflexivity. }
  destruct paths as [|p0 rest0]; [congruence|].
  destruct (do_loop_gains (fun p => [prog; flag; p]) s0) with
    (paths := p0 :: rest0) (pre := [prog; flag]) (s := s0)
    (fuel := S (length (prog :: flag :: p0 :: rest0)))
    as (outs & s' & HF & Hrun & Ho & Hr & He); trivial.
  - intros p. split; [discriminate|]. rewrite Ha0. reflexivity.
  - cbn [length]. lia.
  - cbn [length]. lia.
  - right. right. exact Hre0.
  - exists outs. split.
    + eapply Forall2_impl; [|exact HF].
      intros p o (s1 & Hb & ->).
      apply Hmain. cbn [length do_loop]. rewrite Hb.
      destruct (do_body_error _ _ _ Hb) as [_ Ha]. rewrite Ha, Ha0.
      reflexivity.
    + rewrite (Hmain p0 rest0 s' Hrun), Ho, Hr, He, Hout0, Herr0, He0.
      reflexivity.
Qed.

(** X17.  The same without an option.  For a command line
    [jodyhash <path> ... <path>] whose paths are not spelled like an option
    or like [-], the standard output is the concatenation of what
    [jodyhash <path>] prints for each path, in order, the diagnostic stream
    likewise, and the exit status is the failure status exactly when one
    of those runs fails; for every file system, every way the files end
    and every behaviour of the primitives. *)
Theorem plain_inputs_are_processed_independently :
  forall prog paths input,
    paths <> [] ->
    Forall (fun p => ~ In p (map lit ["-v"; "-h"; "--help"; "-s"; "-b"; "-l"; "-L";
                                      "-n"; "-B"; "-r"; "--"; "-"]%string)) paths ->
    exists outs,
      Forall2 (fun p o => report (main [prog; p] input) = Some o) paths outs /\
      report (main (prog :: paths) input)
      = Some (if forallb (fun o => (fst (fst o) =? EXIT_SUCCESS)%Z) outs
              then EXIT_SUCCESS else EXIT_FAILURE,
              concat (map (fun o => snd (fst o)) outs),
              concat (map snd outs)).
Proof.
  intros prog paths input Hne Hplain.
  set (s0 := initial_state input).
  assert (Hno : forall p f,
             In p paths ->
             In f ["-v"; "-h"; "--help"; "-s"; "-b"; "-l"; "-L";
                   "-n"; "-B"; "-r"; "--"; "-"]%string ->
             streq (lit f) p = false).
  { intros p f Hp Hf. apply streq_neq. intros E.
    rewrite Forall_forall in Hplain. apply (Hplain p Hp).
    rewrite <- E. apply in_map. exact Hf. }
  assert (Hmain : forall p rest s',
             In p paths ->
             do_loop (S (length (prog :: p :: rest))) (prog :: p :: rest) s0 = Some s' ->
             report (main (prog :: p :: rest) input)
             = Some (error s', stdout s', stderr s')).
  { intros p rest s' Hp Hrun. unfold main. fold s0. cbn [nth].
    rewrite !(Hno p) by (trivial; cbn [In]; auto 20).
    rewrite !andb_false_r. cbn [orb].
    replace (process_options (prog :: p :: rest) s0) with s0.
    - rewrite Hrun. reflexivity.
    - unfold process_options. cbn [nth].
      destruct (2 <? length (prog :: p :: rest)); [|reflexivity].
      rewrite !(Hno p) by (trivial; cbn [In]; auto 20). reflexivity. }
  destruct paths as [|p0 rest0]; [congruence|].
  destruct (do_loop_gains (fun p => [prog; p]) s0) with
    (paths := p0 :: rest0) (pre := [prog]) (s := s0)
    (fuel := S (length (prog :: p0 :: rest0)))
    as (outs & s' & HF & Hrun & Ho & Hr & He); trivial.
  - intros p. split; [discriminate|reflexivity].
  - rewrite Forall_forall in Hplain |- *. intros p Hp E.
    apply (Hplain p Hp). rewrite E. cbn [map In]. auto 20.
  - cbn [length]. lia.
  - cbn [length]. lia.
  - right. right. reflexivity.
  - exists outs. split.
    + assert (HF' : Forall2 (fun p o => In p (p0 :: rest0) /\
                               exists s0', do_body [prog; p] s0 = Some s0' /\
                                 o = (error s0', stdout s0', stderr s0'))
                            (p0 :: rest0) outs).
      { clear - HF. revert HF. generalize (p0 :: rest0) as l.
        induction 1 as [|p o l l' Hpo _ IH]; constructor.
        - split; [left; reflexivity|exact Hpo].
        - eapply Forall2_impl; [|exact IH].
          intros a b [Ha Hb]. split; [right; exact Ha|exact Hb]. }
      eapply Forall2_impl; [|exact HF'].
      intros p o (Hp & s1 & Hb & ->).
      apply (Hmain p [] s1 Hp). cbn [length do_loop]. rewrite Hb.
      destruct (do_body_error _ _ _ Hb) as [_ Ha]. rewrite Ha.
      reflexivity.
    + rewrite (Hmain p0 rest0 s' (or_introl eq_refl) Hrun), Ho, Hr, He.
      reflexivity.
Qed.

(** ** The rendering of a digest *)

Lemma length_hex_field (n : nat) (v : Z) : length (hex_field n v) = n.
Proof.
  clear JODY_HASH_WIDTH jody_block_hash jody_rolling_block_hash VER VERDATE
        PATH_MAX NO_AVX2 NO_SSE2 fs.
  induction n as [|n IH]; [reflexivity|]. cbn [hex_field length]. rewrite IH.
  reflexivity.
Qed.

Lemma hex_digit_value_digit (d : Z) :
  (0 <= d < 16)%Z -> hex_digit_value (hex_digit d) = Some d.
Proof.
  clear JODY_HASH_WIDTH jody_block_hash jody_rolling_block_hash VER VERDATE
        PATH_MAX NO_AVX2 NO_SSE2 fs.
  intros Hd.
  assert (E : In d [0; 1; 2; 3; 4; 5; 6; 7; 8; 9; 10; 11; 12; 13; 14; 15]%Z)
    by (cbn [In]; lia).
  cbn [In] in E.
  repeat (destruct E as [<-|E]; [reflexivity|]). contradiction.
Qed.

Lemma hex_value_from_field :
  forall n acc v,
    hex_value_from acc (hex_field n v)
    = Some (acc * 16 ^ Z.of_nat n + v mod 16 ^ Z.of_nat n)%Z.
Proof.
  clear JODY_HASH_WIDTH jody_block_hash jody_rolling_block_hash VER VERDATE
        PATH_MAX NO_AVX2 NO_SSE2 fs.
  induction n as [|n IH]; intros acc v.
  - cbn [hex_field hex_value_from]. f_equal.
    change (16 ^ Z.of_nat 0)%Z with 1%Z. rewrite Z.mod_1_r. lia.
  - cbn [hex_field hex_value_from].
    rewrite hex_digit_value_digit by (apply Z.mod_pos_bound; lia).
    rewrite IH. f_equal.
    rewrite Nat2Z.inj_succ, Z.pow_succ_r by lia.
    rewrite (Z.mul_comm 16 (16 ^ Z.of_nat n)).
    rewrite Z.rem_mul_r by lia. ring.
Qed.

(** X18.  The rendering of a digest.  [PRINTHASH] writes a digest of the
    width of the build as a field of lowercase hexadecimal digits, most
    significant digit first, padded with zeros to a fixed width of two
    characters for each byte of [jodyhash_t]: the field has that length,
    read back as a hexadecimal numeral it gives the digest, and so two
    different digests are never printed alike. *)
Theorem digest_rendering_is_faithful :
  forall h,
    (0 <= h < 2 ^ Z.of_nat (width_bits JODY_HASH_WIDTH))%Z ->
    length (PRINTHASH h) = 2 * sizeof_jodyhash_t JODY_HASH_WIDTH /\
    hex_value (PRINTHASH h) = Some h /\
    (forall h',
        (0 <= h' < 2 ^ Z.of_nat (width_bits JODY_HASH_WIDTH))%Z ->
        h' <> h -> PRINTHASH h' <> PRINTHASH h).
Proof.
  clear jody_block_hash jody_rolling_block_hash VER VERDATE PATH_MAX
        NO_AVX2 NO_SSE2 fs.
  assert (Hback : forall h,
             (0 <= h < 2 ^ Z.of_nat (width_bits JODY_HASH_WIDTH))%Z ->
             hex_value (PRINTHASH h) = Some h).
  { intros h Hh. unfold PRINTHASH, hex_value.
    destruct JODY_HASH_WIDTH; rewrite hex_value_from_field;
      cbn [width_bits] in Hh;
      [ change (2 ^ Z.of_nat 16)%Z with (16 ^ Z.of_nat 4)%Z in Hh
      | change (2 ^ Z.of_nat 32)%Z with (16 ^ Z.of_nat 8)%Z in Hh
      | change (2 ^ Z.of_nat 64)%Z with (16 ^ Z.of_nat 16)%Z in Hh ];
      rewrite Z.mod_small by assumption; reflexivity. }
  intros h Hh. split; [|split].
  - unfold PRINTHASH. destruct JODY_HASH_WIDTH; rewrite length_hex_field; reflexivity.
  - apply Hback. exact Hh.
  - intros h' Hh' Hne E. apply Hne.
    apply Hback in Hh, Hh'. rewrite E, Hh in Hh'. congruence.
Qed.

End Utility.


(** ** Runs of [main] on the sample inputs *)

Lemma process_options_flag (flag path : bytes) (mode : Z) :
  In (flag, mode) [(lit "-s", 1%Z); (lit "-b", 1%Z); (lit "-l", 2%Z);
                   (lit "-L", 3%Z); (lit "-n", 4%Z); (lit "-B", 5%Z);
                   (lit "-r", 6%Z); (lit "--", 0%Z)] ->
  process_options (command flag path) (initial_state no_input) = state_in_mode mode.
Proof.
  intros H. cbn [In] in H.
  repeat (destruct H as [H|H]; [inversion H; subst; reflexivity|]).
  contradiction.
Qed.

(** C4.  A read fault that leaves [fread] or [fgets] nothing to
    return goes unnoticed.  [dir] opens and its first read fails.  In
    Whole-file mode [jodyhash dir] prints the digest line of the zero
    digest, writes no diagnostic and exits with status 0; in Line mode
    [jodyhash -l dir] prints nothing, writes no diagnostic and exits with
    status 0. *)
Theorem read_fault_without_data_goes_unnoticed :
  forall w H R ver verdate pm a b,
    report (main w H R ver verdate pm a b example_fs
                 [lit "jodyhash"; lit "dir"] no_input)
      = Some (EXIT_SUCCESS, digest_line w 0, []) /\
    report (main w H R ver verdate pm a b example_fs
                 (command (lit "-l") (lit "dir")) no_input)
      = Some (EXIT_SUCCESS, [], []).
Proof. intros. destruct w; split; vm_compute; reflexivity. Qed.

(** C6.  The message for a read fault in the chunk loop.  [bad.bin]
    fails after three bytes: [jodyhash bad.bin] prints no digest, exits with
    status 1, and the diagnostic stream holds the display name and a
    newline, without the words [error reading file: ]. *)
Theorem chunk_read_fault_message_is_the_bare_name :
  forall w H R ver verdate a b,
    report (main w H R ver verdate 4096 a b example_fs
                 [lit "jodyhash"; lit "bad.bin"] no_input)
      = Some (EXIT_FAILURE, [], lit "bad.bin" ++ [LF]).
Proof. intros. destruct w; vm_compute; reflexivity. Qed.

(** C7.  The exit status after a failed read.  [jodyhash dir empty]
    exits with status 0 although the first input could not be read, and so
    does [jodyhash dir] (C4); whereas with a first argument that cannot be
    opened, [jodyhash missing empty] prints exactly one digest line, for the
    second input, writes one [cannot open] message and exits with status
    1. *)
Theorem exit_status_after_failed_read :
  forall w H R ver verdate a b,
    report (main w H R ver verdate 4096 a b example_fs
                 [lit "jodyhash"; lit "dir"; lit "empty"] no_input)
      = Some (EXIT_SUCCESS, digest_line w 0 ++ digest_line w 0, []) /\
    report (main w H R ver verdate 4096 a b example_fs
                 [lit "jodyhash"; lit "missing"; lit "empty"] no_input)
      = Some (EXIT_FAILURE, digest_line w 0,
              lit "error: cannot open: missing" ++ [LF]).
Proof. intros. destruct w; split; vm_compute; reflexivity. Qed.

(** With the stand-in primitive the two terminator styles of C1 give
    different records for the same line text. *)
Lemma sample_crlf_and_lf_records_differ :
  report (main W64 sample_hash sample_hash [] [] 4096 false false example_fs
               (command (lit "-l") (lit "crlf.txt")) no_input)
  <> report (main W64 sample_hash sample_hash [] [] 4096 false false example_fs
                  (command (lit "-l") (lit "lf.txt")) no_input).
Proof. vm_compute. discriminate. Qed.

(** ** The statements at sample inputs *)

Lemma crlf_line_hashes_an_extra_nul_witness :
  (exists s1 fp1,
      line_loop W64 sample_hash 3 (state_in_mode 3)
                (fresh_stream (lit "abcdefgh" ++ CR :: LF :: [], EndOfFile))
        = line_loop W64 sample_hash 2 s1 fp1 /\
      pending fp1 = [] /\ stderr s1 = stderr (state_in_mode 3) /\
      stdout s1 =
        stdout (state_in_mode 3) ++
        PRINTHASH W64 (snd (sample_hash (lit "abcdefgh" ++ [NUL]) 0)) ++
        (if (outmode (state_in_mode 3) =? 3)%Z
         then lit " '" ++ lit "abcdefgh" ++ lit "'" ++ [LF] else [LF])) /\
  (exists s2 fp2,
      line_loop W64 sample_hash 3 (state_in_mode 3)
                (fresh_stream (lit "abcdefgh" ++ LF :: [], EndOfFile))
        = line_loop W64 sample_hash 2 s2 fp2 /\
      pending fp2 = [] /\ stderr s2 = stderr (state_in_mode 3) /\
      stdout s2 =
        stdout (state_in_mode 3) ++
        PRINTHASH W64 (snd (sample_hash (lit "abcdefgh") 0)) ++
        (if (outmode (state_in_mode 3) =? 3)%Z
         then lit " '" ++ lit "abcdefgh" ++ lit "'" ++ [LF] else [LF])).
Proof.
  apply (crlf_line_hashes_an_extra_nul W64 sample_hash 2 (state_in_mode 3)
           (fresh_stream (lit "abcdefgh" ++ CR :: LF :: [], EndOfFile))
           (fresh_stream (lit "abcdefgh" ++ LF :: [], EndOfFile))
           (lit "abcdefgh") []).
  - right. reflexivity.
  - discriminate.
  - repeat constructor; discriminate.
  - discriminate.
  - apply Nat.ltb_lt. vm_compute. reflexivity.
  - reflexivity.
  - reflexivity.
  - reflexivity.
  - reflexivity.
  - reflexivity.
  - reflexivity.
  - reflexivity.
  - reflexivity.
Defined.

Lemma blank_crlf_line_is_hashed_witness :
  (exists s1 fp1,
      line_loop W64 sample_hash 3 (state_in_mode 2)
                (fresh_stream (LF :: lit "next", EndOfFile))
        = line_loop W64 sample_hash 2 s1 fp1 /\
      pending fp1 = lit "next" /\ stderr s1 = stderr (state_in_mode 2) /\
      stdout s1 = stdout (state_in_mode 2)) /\
  (exists s2 fp2,
      line_loop W64 sample_hash 3 (state_in_mode 2)
                (fresh_stream (CR :: LF :: lit "next", EndOfFile))
        = line_loop W64 sample_hash 2 s2 fp2 /\
      pending fp2 = lit "next" /\ stderr s2 = stderr (state_in_mode 2) /\
      stdout s2 =
        stdout (state_in_mode 2) ++
        PRINTHASH W64 (snd (sample_hash [NUL] 0)) ++
        (if (outmode (state_in_mode 2) =? 3)%Z
         then lit " '" ++ lit "'" ++ [LF] else [LF])).
Proof.
  apply (blank_crlf_line_is_hashed W64 sample_hash 2 (state_in_mode 2)
           (fresh_stream (LF :: lit "next", EndOfFile))
           (fresh_stream (CR :: LF :: lit "next", EndOfFile))
           (lit "next")).
  - left. reflexivity.
  - reflexivity.
  - reflexivity.
  - reflexivity.
  - reflexivity.
  - reflexivity.
  - reflexivity.
Defined.

Lemma subblock_mode_digests_witness :
  exists s',
    do_body W64 sample_hash sample_hash 4096 example_fs
            (command (lit "-B") (lit "blocks.bin")) (state_in_mode 5) = Some s' /\
    stdout s' =
      stdout (state_in_mode 5) ++
      concat (map (fun b => digest_line W64 (snd (sample_hash b 0)))
                  (regions kbsize 1 3 sample_blocks)) ++ [LF] /\
    length (regions kbsize 1 3 sample_blocks) = (if 3 =? 0 then 1 else 2) /\
    stderr s' = stderr (state_in_mode 5) /\
    error s' = error (state_in_mode 5).
Proof.
  apply (subblock_mode_digests W64 sample_hash sample_hash 4096 example_fs
           (command (lit "-B") (lit "blocks.bin")) (state_in_mode 5)
           (lit "blocks.bin") false sample_blocks 1 3).
  - reflexivity.
  - reflexivity.
  - reflexivity.
  - apply Nat.eqb_eq. vm_compute. reflexivity.
  - apply Nat.ltb_lt. vm_compute. reflexivity.
  - intros b _. reflexivity.
Defined.

Lemma empty_input_digest_witness :
  exists s',
    do_body W64 sample_hash sample_hash 4096 example_fs
            (command (lit "-b") (lit "empty")) (state_in_mode 1) = Some s' /\
    stdout s' =
      stdout (state_in_mode 1) ++ PRINTHASH W64 (snd (sample_hash [] 0)) ++
      (if (outmode (state_in_mode 1) =? 1)%Z
       then lit " *" ++ lit "empty" ++ [LF] else [LF]) /\
    stderr s' = stderr (state_in_mode 1) /\
    error s' = error (state_in_mode 1).
Proof.
  apply (empty_input_digest W64 sample_hash sample_hash 4096 example_fs
           (command (lit "-b") (lit "empty")) (state_in_mode 1)
           (lit "empty") false).
  - right. reflexivity.
  - reflexivity.
  - reflexivity.
  - reflexivity.
Defined.

Lemma rolling_mode_digest_witness :
  exists s',
    do_body W64 sample_hash sample_hash 4096 example_fs
            (command (lit "-r") (lit "chunks.bin")) (state_in_mode 6) = Some s' /\
    stdout s' =
      stdout (state_in_mode 6) ++
      digest_line W64
        (snd (sample_hash (lit "hello")
                (snd (sample_hash (repeat "b"%char BSIZE) 0)))) /\
    error s' = error (state_in_mode 6).
Proof.
  apply (rolling_mode_digest W64 sample_hash sample_hash 4096 example_fs
           (command (lit "-r") (lit "chunks.bin")) (state_in_mode 6)
           (lit "chunks.bin") false sample_chunks).
  - reflexivity.
  - reflexivity.
  - reflexivity.
  - vm_compute. reflexivity.
Defined.

Lemma final_unterminated_line_witness :
  (exists s' fp',
      line_loop W64 sample_hash 5 (state_in_mode 3)
                (fresh_stream (lit "ab" ++ ["c"%char], EndOfFile)) = Some (s', fp') /\
      stdout s' =
        stdout (state_in_mode 3) ++ PRINTHASH W64 (snd (sample_hash (lit "ab") 0)) ++
        (if (outmode (state_in_mode 3) =? 3)%Z
         then lit " '" ++ lit "ab" ++ lit "'" ++ [LF] else [LF]) /\
      stderr s' = stderr (state_in_mode 3) /\
      error s' = error (state_in_mode 3)) /\
  (exists s' fp',
      line_loop W64 sample_hash 5 (state_in_mode 3)
                (fresh_stream (["x"%char], EndOfFile)) = Some (s', fp') /\
      stdout s' = stdout (state_in_mode 3) /\
      stderr s' = stderr (state_in_mode 3) /\
      error s' = error (state_in_mode 3)).
Proof.
  apply (final_unterminated_line W64 sample_hash 5 (state_in_mode 3)
           (fresh_stream (lit "ab" ++ ["c"%char], EndOfFile))
           (fresh_stream (["x"%char], EndOfFile))
           (lit "ab") "c"%char "x"%char).
  - right. reflexivity.
  - lia.
  - reflexivity.
  - reflexivity.
  - reflexivity.
  - discriminate.
  - repeat constructor; discriminate.
  - discriminate.
  - apply Nat.ltb_lt. vm_compute. reflexivity.
  - reflexivity.
  - reflexivity.
  - discriminate.
  - reflexivity.
  - reflexivity.
Defined.

(** C9, as the claim words it, fails on a final line whose last byte
    but one is CR.  [cr.txt] holds the unterminated line [a], CR, [b]:
    [jodyhash -L cr.txt] prints the digest of the two bytes [a], NUL,
    followed by the text [a] in quotes, and not the record of the line
    without its last byte, which would carry the digest of [a], CR. *)
Lemma final_unterminated_line_counterexample :
  report (main W64 sample_hash sample_hash [] [] 4096 false false extra_fs
               (command (lit "-L") (lit "cr.txt")) no_input)
  = Some (EXIT_SUCCESS,
          PRINTHASH W64 (snd (sample_hash (lit "a" ++ [NUL]) 0))
          ++ lit " 'a'" ++ [LF],
          []) /\
  PRINTHASH W64 (snd (sample_hash (lit "a" ++ [NUL]) 0))
  <> PRINTHASH W64 (snd (sample_hash (lit "a" ++ [CR]) 0)).
Proof. split; [vm_compute; reflexivity|vm_compute; discriminate]. Qed.

Lemma chunk_notice_in_every_whole_mode_witness :
  exists s',
    do_body W64 sample_hash sample_hash 4096 example_fs
            (command (lit "-n") (lit "chunks.bin")) (state_in_mode 4) = Some s' /\
    stderr s' =
      stderr (state_in_mode 4) ++
      concat (map notice
                  (chunks_read (chunk_primitive sample_hash sample_hash (state_in_mode 4))
                               (blocks BSIZE sample_chunks) 0)) ++
      hash_failure_message
        (fold_hash (chunk_primitive sample_hash sample_hash (state_in_mode 4))
                   (blocks BSIZE sample_chunks) 0)
        (lit "chunks.bin").
Proof.
  apply (chunk_notice_in_every_whole_mode W64 sample_hash sample_hash 4096
           example_fs (command (lit "-n") (lit "chunks.bin")) (state_in_mode 4)
           (lit "chunks.bin") false sample_chunks).
  - right. right. left. reflexivity.
  - reflexivity.
Defined.

(** The whole-file run on the five bytes [hello], with the stand-in
    primitive: one digest line, one chunk notice, status 0. *)
Example hello_whole_file :
  report (main W64 sample_hash sample_hash [] [] 4096 false false example_fs
               [lit "jodyhash"; lit "hello.txt"] no_input)
  = Some (EXIT_SUCCESS, digest_line W64 (snd (sample_hash (lit "hello") 0)),
          lit "doing a rolling hash of 5 bytes" ++ [LF]).
Proof. vm_compute. reflexivity. Qed.

(** [jodyhash -n chunks.bin], a file of one full chunk and five bytes: one
    digest line with the name, and a notice for each of the two chunks. *)
Example two_chunks_per_name :
  report (main W64 sample_hash sample_hash [] [] 4096 false false example_fs
               (command (lit "-n") (lit "chunks.bin")) no_input)
  = Some (EXIT_SUCCESS,
          PRINTHASH W64 (snd (sample_hash sample_chunks 0))
          ++ lit " chunks.bin" ++ [LF],
          lit "doing a rolling hash of 32768 bytes" ++ [LF]
          ++ lit "doing a rolling hash of 5 bytes" ++ [LF]).
Proof. vm_compute. reflexivity. Qed.

(** [jodyhash -B blocks.bin], a file of 4096 + 3 bytes: two digest lines,
    for the first 4096 bytes and for the last three, and an empty line. *)
Example two_sub_blocks :
  report (main W64 sample_hash sample_hash [] [] 4096 false false example_fs
               (command (lit "-B") (lit "blocks.bin")) no_input)
  = Some (EXIT_SUCCESS,
          digest_line W64 (snd (sample_hash (repeat "a"%char kbsize) 0))
          ++ digest_line W64 (snd (sample_hash (lit "xyz") 0)) ++ [LF],
          []).
Proof. vm_compute. reflexivity. Qed.

(** [jodyhash cut.bin], a file that fails after one full chunk: the digest
    of that chunk is printed as the file's, and the status is 0. *)
Example fault_after_one_chunk :
  report (main W64 sample_hash sample_hash [] [] 4096 false false example_fs
               [lit "jodyhash"; lit "cut.bin"] no_input)
  = Some (EXIT_SUCCESS,
          digest_line W64 (snd (sample_hash (repeat "b"%char BSIZE) 0)),
          lit "doing a rolling hash of 32768 bytes" ++ [LF]).
Proof. vm_compute. reflexivity. Qed.

Lemma line_mode_records_witness :
  exists s',
    do_body W64 sample_hash sample_hash 4096 extra_fs
            (command (lit "-L") (lit "lines.txt")) (state_in_mode 3) = Some s' /\
    stdout s' =
      stdout (state_in_mode 3) ++
      concat (map (line_record W64 sample_hash (outmode (state_in_mode 3)))
                  sample_lines) /\
    stderr s' = stderr (state_in_mode 3) /\
    error s' = error (state_in_mode 3).
Proof.
  apply (line_mode_records W64 sample_hash sample_hash 4096 extra_fs
           (command (lit "-L") (lit "lines.txt")) (state_in_mode 3)
           (lit "lines.txt") false sample_lines).
  - right. reflexivity.
  - reflexivity.
  - repeat (apply Forall_cons;
            [split; [repeat constructor; discriminate
                    |split; [discriminate|apply Nat.ltb_lt; vm_compute; reflexivity]]|]).
    apply Forall_nil.
  - repeat (apply Forall_cons; [reflexivity|]). apply Forall_nil.
Defined.

Lemma line_hash_failure_ends_input_witness :
  exists s' fp',
    line_loop W64 fussy_hash 1 (state_in_mode 2)
              (fresh_stream (lit "a!" ++ LF :: lit "next", EndOfFile))
      = Some (s', fp') /\
    pending fp' = lit "next" /\
    stdout s' = stdout (state_in_mode 2) /\
    stderr s' =
      stderr (state_in_mode 2) ++ lit "error hashing file: "
      ++ name (state_in_mode 2) ++ [LF] /\
    error s' = EXIT_FAILURE.
Proof.
  apply (line_hash_failure_ends_input W64 fussy_hash 0 (state_in_mode 2)
           (fresh_stream (lit "a!" ++ LF :: lit "next", EndOfFile))
           (lit "a!") (lit "next")).
  - left. reflexivity.
  - reflexivity.
  - reflexivity.
  - discriminate.
  - split; [repeat constructor; discriminate
           |split; [discriminate|apply Nat.ltb_lt; vm_compute; reflexivity]].
  - discriminate.
Defined.

Lemma subblock_mode_with_failures_witness :
  exists s',
    do_body W64 fussy_hash fussy_hash 4096 extra_fs
            (command (lit "-B") (lit "mixed.bin")) (state_in_mode 5) = Some s' /\
    stdout s' =
      stdout (state_in_mode 5) ++
      concat (map (fun c => subblock_records W64 fussy_hash (blocks kbsize c))
                  (blocks BSIZE sample_mixed)) ++
      (if forallb (chunk_accepted fussy_hash) (blocks BSIZE sample_mixed)
       then [LF] else []) /\
    stderr s' =
      stderr (state_in_mode 5) ++
      concat (map (fun c => if chunk_accepted fussy_hash c then []
                            else lit "error hashing file: " ++ lit "mixed.bin" ++ [LF])
                  (blocks BSIZE sample_mixed)) /\
    error s' = (if forallb (chunk_accepted fussy_hash) (blocks BSIZE sample_mixed)
                then error (state_in_mode 5) else EXIT_FAILURE).
Proof.
  apply (subblock_mode_with_failures W64 fussy_hash fussy_hash 4096 extra_fs
           (command (lit "-B") (lit "mixed.bin")) (state_in_mode 5)
           (lit "mixed.bin") false sample_mixed).
  - reflexivity.
  - reflexivity.
  - reflexivity.
Defined.

(** [jodyhash -B mixed.bin] with the primitive that fails on the second
    sub-block: one digest line for the first sub-block, none for the rest
    of the first chunk, one for the second chunk, one message, no closing
    empty line, status 1. *)
Example failing_sub_block :
  report (main W64 fussy_hash fussy_hash [] [] 4096 false false extra_fs
               (command (lit "-B") (lit "mixed.bin")) no_input)
  = Some (EXIT_FAILURE,
          digest_line W64 (snd (sample_hash (repeat "a"%char kbsize) 0))
          ++ digest_line W64 (snd (sample_hash (lit "tail") 0)),
          lit "error hashing file: mixed.bin" ++ [LF]).
Proof. vm_compute. reflexivity. Qed.

Lemma whole_mode_hash_failure_witness :
  exists s',
    do_body W64 fussy_hash fussy_hash 4096 extra_fs
            (command (lit "-b") (lit "mixed.bin")) (state_in_mode 1) = Some s' /\
    stdout s' = stdout (state_in_mode 1) /\
    stderr s' =
      stderr (state_in_mode 1) ++
      concat (map notice
                  (chunks_read (chunk_primitive fussy_hash fussy_hash (state_in_mode 1))
                               (blocks BSIZE sample_mixed) 0))
      ++ lit "error hashing file: " ++ lit "mixed.bin" ++ [LF] /\
    error s' = EXIT_FAILURE /\ read_err s' = 0%Z /\
    argnum s' = S (argnum (state_in_mode 1)).
Proof.
  apply (whole_mode_hash_failure W64 fussy_hash fussy_hash 4096 extra_fs
           (command (lit "-b") (lit "mixed.bin")) (state_in_mode 1)
           (lit "mixed.bin") false sample_mixed EndOfFile).
  - right. left. reflexivity.
  - reflexivity.
  - intros E. exfalso. apply E. reflexivity.
  - vm_compute. reflexivity.
Defined.

Lemma read_fault_inside_a_chunk_witness :
  exists s',
    do_body W64 sample_hash sample_hash 4096 extra_fs
            [lit "jodyhash"; lit "torn.bin"]
            (initial_state no_input) = Some s' /\
    stdout s' = stdout (initial_state no_input) /\
    stderr s' =
      stderr (initial_state no_input) ++
      concat (map notice (blocks BSIZE (repeat "b"%char BSIZE)))
      ++ lit "torn.bin" ++ [LF] /\
    error s' = EXIT_FAILURE /\ read_err s' = 0%Z /\
    argnum s' = S (argnum (initial_state no_input)).
Proof.
  apply (read_fault_inside_a_chunk W64 sample_hash sample_hash 4096 extra_fs
           [lit "jodyhash"; lit "torn.bin"] (initial_state no_input)
           (lit "torn.bin") false (repeat "b"%char BSIZE) (lit "xyz") 1
           (snd (sample_hash (repeat "b"%char BSIZE) 0))).
  - left. reflexivity.
  - reflexivity.
  - apply Nat.eqb_eq. vm_compute. reflexivity.
  - discriminate.
  - apply Nat.ltb_lt. vm_compute. reflexivity.
  - vm_compute. reflexivity.
Defined.

Lemma run_fails_when_an_argument_cannot_be_opened_witness :
  exists r,
    main W64 sample_hash sample_hash [] [] 4096 false false example_fs
         [lit "jodyhash"; lit "-"; lit "missing"; lit "empty"]
         (fresh_stream (lit "hello", EndOfFile))
      = Some r /\
    fst r = EXIT_FAILURE.
Proof.
  apply (run_fails_when_an_argument_cannot_be_opened
           W64 sample_hash sample_hash [] [] 4096 false false example_fs
           [lit "jodyhash"; lit "-"; lit "missing"; lit "empty"]
           (fresh_stream (lit "hello", EndOfFile)) 2).
  - discriminate.
  - apply Nat.leb_le. reflexivity.
  - cbn [map In]. intros [H|[H|[H|[]]]]; discriminate.
  - apply Nat.leb_le. reflexivity.
  - apply Nat.ltb_lt. reflexivity.
  - discriminate.
  - reflexivity.
Defined.

Lemma exit_status_is_success_or_failure_witness :
  exists r,
    main W64 fussy_hash fussy_hash [] [] 4096 false false extra_fs
         [lit "jodyhash"; lit "-B"; lit "mixed.bin"; lit "torn.bin"] no_input
      = Some r /\
    (fst r = EXIT_SUCCESS \/ fst r = EXIT_FAILURE).
Proof.
  apply (exit_status_is_success_or_failure
           W64 fussy_hash fussy_hash [] [] 4096 false false extra_fs
           [lit "jodyhash"; lit "-B"; lit "mixed.bin"; lit "torn.bin"] no_input).
  - discriminate.
  - repeat constructor; discriminate.
Defined.

Lemma line_mode_reports_only_would_block_faults_witness :
  exists s',
    do_body W64 sample_hash sample_hash 4096 extra_fs
            (command (lit "-l") (lit "pipe.txt")) (state_in_mode 2) = Some s' /\
    ((error s' = error (state_in_mode 2) /\ stderr s' = stderr (state_in_mode 2)) \/
     (error s' = EXIT_FAILURE /\
      stderr s' =
        stderr (state_in_mode 2) ++ lit "error hashing file: " ++ lit "pipe.txt"
        ++ [LF]) \/
     (WouldBlock = WouldBlock /\ error s' = EXIT_FAILURE /\
      stderr s' =
        stderr (state_in_mode 2) ++ lit "error reading file: " ++ lit "pipe.txt"
        ++ [LF])).
Proof.
  apply (line_mode_reports_only_would_block_faults
           W64 sample_hash sample_hash 4096 extra_fs
           (command (lit "-l") (lit "pipe.txt")) (state_in_mode 2)
           (lit "pipe.txt") false (text_of_lines [lit "ab"] ++ lit "cd") WouldBlock).
  - left. reflexivity.
  - reflexivity.
Defined.

Lemma read_fault_inside_a_line_witness :
  exists s',
    do_body W64 sample_hash sample_hash 4096 extra_fs
            (command (lit "-L") (lit "pipe.txt")) (state_in_mode 3) = Some s' /\
    stdout s' =
      stdout (state_in_mode 3) ++
      concat (map (line_record W64 sample_hash (outmode (state_in_mode 3)))
                  [lit "ab"]) /\
    stderr s' =
      stderr (state_in_mode 3) ++
      match WouldBlock with
      | WouldBlock => lit "error reading file: " ++ lit "pipe.txt" ++ [LF]
      | _ => []
      end /\
    error s' = match WouldBlock with
               | WouldBlock => EXIT_FAILURE
               | _ => error (state_in_mode 3)
               end.
Proof.
  apply (read_fault_inside_a_line W64 sample_hash sample_hash 4096 extra_fs
           (command (lit "-L") (lit "pipe.txt")) (state_in_mode 3)
           (lit "pipe.txt") false [lit "ab"] (lit "cd") WouldBlock).
  - right. reflexivity.
  - discriminate.
  - reflexivity.
  - apply Forall_cons; [|apply Forall_nil].
    split; [repeat constructor; discriminate
           |split; [discriminate|apply Nat.ltb_lt; vm_compute; reflexivity]].
  - apply Forall_cons; [reflexivity|apply Forall_nil].
  - discriminate.
  - repeat constructor; discriminate.
  - apply Nat.ltb_lt. vm_compute. reflexivity.
Defined.

(** The two ways a read can fail inside a line: [jodyhash -L pipe.txt]
    reports the fault and exits with status 1, [jodyhash -L lost.txt]
    reports nothing and exits with status 0; both print the record of the
    first line only. *)
Example fault_inside_a_line_both_ways :
  report (main W64 sample_hash sample_hash [] [] 4096 false false extra_fs
               (command (lit "-L") (lit "pipe.txt")) no_input)
  = Some (EXIT_FAILURE,
          PRINTHASH W64 (snd (sample_hash (lit "ab") 0)) ++ lit " 'ab'" ++ [LF],
          lit "error reading file: pipe.txt" ++ [LF]) /\
  report (main W64 sample_hash sample_hash [] [] 4096 false false extra_fs
               (command (lit "-L") (lit "lost.txt")) no_input)
  = Some (EXIT_SUCCESS,
          PRINTHASH W64 (snd (sample_hash (lit "ab") 0)) ++ lit " 'ab'" ++ [LF],
          []).
Proof. split; vm_compute; reflexivity. Qed.



(** [jodyhash -l] on the long line: two records, the second one for the
    byte that follows the cut. *)
Example long_line_in_two_records :
  report (main W64 sample_hash sample_hash [] [] 4096 false false
               (fun _ => Some (sample_long_line, EndOfFile))
               (command (lit "-l") (lit "long.txt")) no_input)
  = Some (EXIT_SUCCESS,
          digest_line W64 (snd (sample_hash (repeat "a"%char (BSIZE - 2)) 0))
          ++ digest_line W64 (snd (sample_hash (lit "c") 0)),
          []).
Proof. vm_compute. reflexivity. Qed.

Lemma option_selects_record_format_witness :
  report (main W64 sample_hash sample_hash [] [] 5 false false example_fs
               [lit "jodyhash"; lit "-s"; lit "hello.txt"] no_input)
  = Some (EXIT_SUCCESS,
          PRINTHASH W64 (snd (sample_hash (lit "hello") 0)) ++
          (if (1 =? 1)%Z then lit " *" ++ strncpy (lit "hello.txt") 5 ++ [LF]
           else if (1 =? 4)%Z then lit " " ++ strncpy (lit "hello.txt") 5 ++ [LF]
           else [LF]),
          concat (map notice (blocks BSIZE (lit "hello")))).
Proof.
  apply (option_selects_record_format
           W64 sample_hash sample_hash [] [] 5 false false example_fs
           (lit "jodyhash") (lit "-s") 1%Z (lit "hello.txt") no_input
           (lit "hello") (snd (sample_hash (lit "hello") 0))).
  - left. reflexivity.
  - discriminate.
  - reflexivity.
  - reflexivity.
Defined.

Lemma standard_input_run_witness :
  report (main W64 sample_hash sample_hash [] [] 4096 false false example_fs
               [lit "jodyhash"] (fresh_stream (lit "hello", EndOfFile)))
  = Some (EXIT_SUCCESS, digest_line W64 (snd (sample_hash (lit "hello") 0)),
          concat (map notice (blocks BSIZE (lit "hello")))) /\
  report (main W64 sample_hash sample_hash [] [] 4096 false false example_fs
               [lit "jodyhash"; lit "-"] (fresh_stream (lit "hello", EndOfFile)))
  = Some (EXIT_SUCCESS, digest_line W64 (snd (sample_hash (lit "hello") 0)),
          concat (map notice (blocks BSIZE (lit "hello")))) /\
  report (main W64 sample_hash sample_hash [] [] 4096 false false example_fs
               [lit "jodyhash"; lit "-n"; lit "-"]
               (fresh_stream (lit "hello", EndOfFile)))
  = Some (EXIT_SUCCESS,
          PRINTHASH W64 (snd (sample_hash (lit "hello") 0)) ++ lit " "
          ++ strncpy (lit "-") 4096 ++ [LF],
          concat (map notice (blocks BSIZE (lit "hello")))).
Proof.
  apply (standard_input_run W64 sample_hash sample_hash [] [] 4096 false false
           example_fs (lit "jodyhash") (lit "hello") EndOfFile
           (snd (sample_hash (lit "hello") 0))).
  - intros E. exfalso. apply E. reflexivity.
  - reflexivity.
Defined.

Lemma single_argument_run_witness :
  report (main W64 sample_hash sample_hash [] [] 4096 false false extra_fs
               [lit "jodyhash"; lit "-b"] no_input)
  = Some (EXIT_SUCCESS, digest_line W64 (snd (sample_hash (lit "hello") 0)),
          concat (map notice (blocks BSIZE (lit "hello")))).
Proof.
  apply (single_argument_run W64 sample_hash sample_hash [] [] 4096 false false
           extra_fs (lit "jodyhash") (lit "-b") no_input (lit "hello") EndOfFile
           (snd (sample_hash (lit "hello") 0))).
  - cbn [map In]. intros [H|[H|[H|[H|[]]]]]; discriminate.
  - reflexivity.
  - intros E. exfalso. apply E. reflexivity.
  - reflexivity.
Defined.

Lemma read_fault_at_chunk_boundary_goes_unnoticed_witness :
  exists s',
    do_body W64 sample_hash sample_hash 4096 example_fs
            [lit "jodyhash"; lit "cut.bin"] (initial_state no_input) = Some s' /\
    stdout s' =
      stdout (initial_state no_input) ++
      PRINTHASH W64 (snd (sample_hash (repeat "b"%char BSIZE) 0)) ++
      (if (outmode (initial_state no_input) =? 1)%Z
       then lit " *" ++ lit "cut.bin" ++ [LF]
       else if (outmode (initial_state no_input) =? 4)%Z
            then lit " " ++ lit "cut.bin" ++ [LF]
            else [LF]) /\
    error s' = error (initial_state no_input).
Proof.
  apply (read_fault_at_chunk_boundary_goes_unnoticed
           W64 sample_hash sample_hash 4096 example_fs
           [lit "jodyhash"; lit "cut.bin"] (initial_state no_input)
           (lit "cut.bin") false (repeat "b"%char BSIZE) 1
           (snd (sample_hash (repeat "b"%char BSIZE) 0))).
  - left. reflexivity.
  - reflexivity.
  - reflexivity.
  - apply Nat.eqb_eq. vm_compute. reflexivity.
  - vm_compute. reflexivity.
Defined.

Lemma inputs_are_processed_independently_witness :
  exists outs,
    Forall2 (fun p o =>
               report (main W64 fussy_hash fussy_hash [] [] 4096 false false extra_fs
                            [lit "jodyhash"; lit "-B"; p] no_input) = Some o)
            [lit "mixed.bin"; lit "missing"; lit "torn.bin"] outs /\
    report (main W64 fussy_hash fussy_hash [] [] 4096 false false extra_fs
                 (lit "jodyhash" :: lit "-B"
                  :: [lit "mixed.bin"; lit "missing"; lit "torn.bin"]) no_input)
    = Some (if forallb (fun o => (fst (fst o) =? EXIT_SUCCESS)%Z) outs
            then EXIT_SUCCESS else EXIT_FAILURE,
            concat (map (fun o => snd (fst o)) outs),
            concat (map snd outs)).
Proof.
  apply (inputs_are_processed_independently
           W64 fussy_hash fussy_hash [] [] 4096 false false extra_fs
           (lit "jodyhash") (lit "-B")
           [lit "mixed.bin"; lit "missing"; lit "torn.bin"] no_input).
  - do 5 right. left. reflexivity.
  - discriminate.
  - repeat constructor; discriminate.
Defined.

(** X13.  Version and help.  When the first argument is [-v], [-h] or
    [--help], [main] exits with status 0 before any option processing,
    having opened, read and hashed nothing: the result is the same for
    every file system, every pair of primitives, every standard input and
    all the arguments that follow.  Nothing is printed on the standard
    output.  [-v] writes one banner to the diagnostic stream; [-h] and
    [--help] write the same text as each other: the banner, then a usage
    line that names the program as it was called, then lines that do not
    depend on the command line. *)
Theorem version_and_help_exit_early :
  forall w ver verdate a b,
  exists banner options,
    forall H R pm fs prog rest input,
      report (main w H R ver verdate pm a b fs (prog :: lit "-v" :: rest) input)
      = Some (EXIT_SUCCESS, [], banner) /\
      report (main w H R ver verdate pm a b fs (prog :: lit "-h" :: rest) input)
      = Some (EXIT_SUCCESS, [],
              banner ++ lit "usage: " ++ prog ++ lit " [-b|s|n|l|L] [file_to_hash]"
              ++ LF :: options) /\
      report (main w H R ver verdate pm a b fs (prog :: lit "--help" :: rest) input)
      = report (main w H R ver verdate pm a b fs (prog :: lit "-h" :: rest) input).
Proof.
  intros w ver verdate a b.
  exists (stderr (usage w ver verdate a b [] 0 (initial_state no_input))).
  exists (lit "Specifying no name or '-' as the name reads from stdin" ++ [LF]
          ++ lit "  -b|-s  Output in md5sum binary style instead of bare hashes" ++ [LF]
          ++ lit "  -n     Output just the file name after the hash" ++ [LF]
          ++ lit "  -l     Generate a hash for each text input line" ++ [LF]
          ++ lit "  -L     Same as -l but also prints hashed text after the hash" ++ [LF]
          ++ lit "  -B     Output a hash for every 4096 byte block of the file" ++ [LF]
          ++ lit "  -r     Output a rolling 4K hash" ++ [LF]).
  intros H R pm fs prog rest input.
  unfold main, report.
  cbn [length Nat.ltb Nat.leb nth andb orb streq lit list_ascii_of_string
       Ascii.eqb Bool.eqb option_map fst snd].
  split; [reflexivity|]. split; [|reflexivity].
  unfold usage.
  cbn [Z.eqb stdout stderr eprintf initial_state app].
  rewrite <- !app_assoc. reflexivity.
Qed.

Lemma plain_inputs_are_processed_independently_witness :
  exists outs,
    Forall2 (fun p o =>
               report (main W64 sample_hash sample_hash [] [] 4096 false false example_fs
                            [lit "jodyhash"; p] no_input) = Some o)
            [lit "hello.txt"; lit "missing"; lit "bad.bin"] outs /\
    report (main W64 sample_hash sample_hash [] [] 4096 false false example_fs
                 (lit "jodyhash" :: [lit "hello.txt"; lit "missing"; lit "bad.bin"])
                 no_input)
    = Some (if forallb (fun o => (fst (fst o) =? EXIT_SUCCESS)%Z) outs
            then EXIT_SUCCESS else EXIT_FAILURE,
            concat (map (fun o => snd (fst o)) outs),
            concat (map snd outs)).
Proof.
  apply (plain_inputs_are_processed_independently
           W64 sample_hash sample_hash [] [] 4096 false false example_fs
           (lit "jodyhash") [lit "hello.txt"; lit "missing"; lit "bad.bin"] no_input).
  - discriminate.
  - repeat (apply Forall_cons;
            [cbn [map In];
             intros [H|[H|[H|[H|[H|[H|[H|[H|[H|[H|[H|[H|[]]]]]]]]]]]]];
             discriminate|]).
    apply Forall_nil.
Defined.

Lemma digest_rendering_is_faithful_witness :
  length (PRINTHASH W64 100100529) = 2 * sizeof_jodyhash_t W64 /\
  hex_value (PRINTHASH W64 100100529) = Some 100100529%Z /\
  (forall h',
      (0 <= h' < 2 ^ Z.of_nat (width_bits W64))%Z ->
      h' <> 100100529%Z -> PRINTHASH W64 h' <> PRINTHASH W64 100100529).
Proof.
  apply (digest_rendering_is_faithful W64 100100529%Z).
  split; [lia|apply Z.ltb_lt; reflexivity].
Defined.

(** The field of a digest of 64, 32 and 16 bits. *)
Example digest_fields :
  PRINTHASH W64 100100529 = lit "0000000005f769b1" /\
  PRINTHASH W32 100100529 = lit "05f769b1" /\
  PRINTHASH W16 43981 = lit "abcd".
Proof. repeat split. Qed.

(** [jodyhash hello.txt missing bad.bin]: the digest line of the first
    input; the notices and messages of the three inputs in order; status
    1. *)
Example three_inputs :
  report (main W64 sample_hash sample_hash [] [] 4096 false false example_fs
               [lit "jodyhash"; lit "hello.txt"; lit "missing"; lit "bad.bin"]
               no_input)
  = Some (EXIT_FAILURE,
          digest_line W64 (snd (sample_hash (lit "hello") 0)),
          lit "doing a rolling hash of 5 bytes" ++ [LF]
          ++ lit "error: cannot open: missing" ++ [LF]
          ++ lit "bad.bin" ++ [LF]).
Proof. vm_compute. reflexivity. Qed.
